(** * ADB Transfer Tool: a shallow embedding of [app.py]

    The development follows the layout of the Python source:

    - [Py]: the Python built-ins the source relies on ([str.strip],
      [str.split], [str.join], [float], [int], [str], fixed-point
      formatting, [os.path.join]);  floats are IEEE binary64 values
      (Rocq's primitive floats), integers are [Z];
    - the functional helpers [format_speed], [check_adb_device],
      [get_remote_size], [get_local_size] and
      [run_adb_command_with_progress];
    - the class [ADBTransferApp] with [update_ui_progress],
      [on_transfer_finished], [on_start] and [_prepare_and_run];
    - the vocabulary of the properties, facts of binary64 arithmetic,
      the properties of the transfer pipeline orchestrator, C1 to C10,
      and further properties of the same functions, X1 to X24.

    Calls to the [logging] module have no influence on any value computed
    by the program and are left out, and so are the construction of the
    widgets ([on_activate]) and the folder chooser.  The Tk front end
    [py_version/gui.py] has no progress reporting and is not covered. *)

From Stdlib Require Import ZArith List String Ascii Bool Lia.
From Stdlib Require Import Floats DecimalString.
From Stdlib Require Uint63 DecimalPos DecimalFacts.
Import ListNotations.

Local Open Scope string_scope.
Local Open Scope Z_scope.

(* ================================================================== *)
(** * Python built-ins *)
(* ================================================================== *)

Module Py.

(** Exceptions the modelled code can meet. *)
Inductive exn : Type :=
| ValueError
| OverflowError
| ZeroDivisionError
| IndexError
| OSError
| UnicodeDecodeError.

(** Outcome of an expression that may raise. *)
Inductive result (A : Type) : Type :=
| Ok (a : A)
| Raise (e : exn).
Arguments Ok {A} a.
Arguments Raise {A} e.

Definition bind {A B : Type} (r : result A) (k : A -> result B) : result B :=
  match r with
  | Ok a => k a
  | Raise e => Raise e
  end.

(** ** Strings

    A [str] is modelled by a [string] whose characters are code points
    below 256. *)

Definition code (c : ascii) : Z := Z.of_N (N_of_ascii c).

(** [str.isspace] on one character, for code points below 256. *)
Definition isspace (c : ascii) : bool :=
  let n := code c in
  ((9 <=? n) && (n <=? 13)) || ((28 <=? n) && (n <=? 32))
  || (n =? 133) || (n =? 160).

Definition is_empty (s : string) : bool :=
  match s with
  | EmptyString => true
  | String _ _ => false
  end.

(** Truth value of a [str]: non-empty. *)
Definition truthy (s : string) : bool := negb (is_empty s).

Section Strip.
Variable space : ascii -> bool.

Fixpoint lstrip_by (s : string) : string :=
  match s with
  | EmptyString => EmptyString
  | String c s' => if space c then lstrip_by s' else s
  end.

Fixpoint rstrip_by (s : string) : string :=
  match s with
  | EmptyString => EmptyString
  | String c s' =>
      let r := rstrip_by s' in
      if space c && is_empty r then EmptyString else String c r
  end.

Definition strip_by (s : string) : string := rstrip_by (lstrip_by s).
End Strip.

(** [s.strip()] *)
Definition strip (s : string) : string := strip_by isspace s.

(** [sep.join(xs)] *)
Fixpoint join (sep : string) (xs : list string) : string :=
  match xs with
  | [] => ""
  | [x] => x
  | x :: rest => x ++ sep ++ join sep rest
  end.

(** [s.split()]: the maximal runs of non-whitespace characters.
    [cur] holds the run being read, in reverse. *)
Definition string_of_rev (cs : list ascii) : string :=
  string_of_list_ascii (rev cs).

Fixpoint split_from (s : string) (cur : list ascii) : list string :=
  match s with
  | EmptyString =>
      match cur with
      | [] => []
      | _ => [string_of_rev cur]
      end
  | String c s' =>
      if isspace c then
        match cur with
        | [] => split_from s' []
        | _ => string_of_rev cur :: split_from s' []
        end
      else split_from s' (c :: cur)
  end.

Definition split (s : string) : list string := split_from s [].

(** [xs[0]] *)
Definition first {A : Type} (xs : list A) : result A :=
  match xs with
  | [] => Raise IndexError
  | x :: _ => Ok x
  end.

(** Lower-casing of ASCII letters, as used by the parser of [float]. *)
Definition lower (c : ascii) : ascii :=
  let n := code c in
  if (65 <=? n) && (n <=? 90) then ascii_of_N (Z.to_N (n + 32)) else c.

Fixpoint lower_str (s : string) : string :=
  match s with
  | EmptyString => EmptyString
  | String c s' => String (lower c) (lower_str s')
  end.

(** [str(n)] and [f"{n}"] for an [int]. *)
Definition str_of_int (n : Z) : string := NilZero.string_of_int (Z.to_int n).

(** [os.path.join(a, b)] of [posixpath]. *)
Definition starts_with_slash (s : string) : bool :=
  match s with
  | String "/" _ => true
  | _ => false
  end.

Fixpoint ends_with_slash (s : string) : bool :=
  match s with
  | EmptyString => false
  | String c EmptyString => Ascii.eqb c "/"
  | String _ s' => ends_with_slash s'
  end.

Definition path_join (a b : string) : string :=
  if starts_with_slash b then b
  else if is_empty a || ends_with_slash a then a ++ b
  else a ++ "/" ++ b.

(** ** Numeric literals

    [digitpart ::= digit (["_"] digit)*]: the grammar shared by [int] and
    [float].  [digits_rest s v n] reads the continuation of a digit part
    whose value so far is [v] over [n] digits and returns the value, the
    number of digits and the unread rest. *)

Definition is_digit (c : ascii) : bool :=
  let n := code c in (48 <=? n) && (n <=? 57).

Definition digit_val (c : ascii) : Z := code c - 48.

Fixpoint digits_rest (s : string) (v n : Z) : Z * Z * string :=
  match s with
  | EmptyString => (v, n, s)
  | String c s' =>
      if is_digit c then digits_rest s' (10 * v + digit_val c) (n + 1)
      else if Ascii.eqb c "_" then
        match s' with
        | String d s'' =>
            if is_digit d
            then digits_rest s'' (10 * v + digit_val d) (n + 1)
            else (v, n, s)
        | EmptyString => (v, n, s)
        end
      else (v, n, s)
  end.

(** A digit part is optional in some positions: when [s] does not start
    with a digit nothing is read. *)
Definition opt_digitpart (s : string) (v n : Z) : Z * Z * string :=
  match s with
  | String c s' =>
      if is_digit c then digits_rest s' (10 * v + digit_val c) (n + 1)
      else (v, n, s)
  | EmptyString => (v, n, s)
  end.

(** The whitespace [int] and [float] ignore around a literal: the
    characters below 127 that C's [isspace] accepts, and the other
    whitespace code points. *)
Definition isspace_num (c : ascii) : bool :=
  let n := code c in
  ((9 <=? n) && (n <=? 13)) || (n =? 32) || (n =? 133) || (n =? 160).

Definition strip_num (s : string) : string := strip_by isspace_num s.

(** [sign ::= "+" | "-"], optional; [true] stands for a minus sign. *)
Definition opt_sign (s : string) : bool * string :=
  match s with
  | String "-" s' => (true, s')
  | String "+" s' => (false, s')
  | _ => (false, s)
  end.

(** The number of digits above which [int] refuses a numeral
    ([sys.get_int_max_str_digits()], by default). *)
Definition int_max_str_digits : Z := 4300.

(** [int(s)] for a [str], base 10.  The digits of the numeral are
    counted without its sign, its underscores and the white space
    around it. *)
Definition int_of_str (s : string) : result Z :=
  let '(neg, s1) := opt_sign (strip_num s) in
  let '(v, n, rest) := opt_digitpart s1 0 0 in
  if (0 <? n) && is_empty rest && (n <=? int_max_str_digits)
  then Ok (if neg then - v else v)
  else Raise ValueError.

(** ** Floats

    A Python [float] is an IEEE 754 binary64 value, and so is a
    primitive [float] of Rocq: the arithmetic of the source ([-], [*],
    [/], comparisons) is that of [PrimFloat], to which the errors Python
    raises are added here. *)

Definition SF64round (neg : bool) (m : Z) (e : Z) (l : location) : spec_float :=
  binary_round_aux prec emax neg m e l.

(** The binary64 value nearest to [(-1)^neg * m * 10^e10], ties to even,
    for [0 <= m]: what [float] computes from a decimal literal. *)
Definition float_of_decimal (neg : bool) (m e10 : Z) : float :=
  SF2Prim
    match m with
    | Z0 => S754_zero neg
    | Zpos _ =>
        if 0 <=? e10
        then SF64round neg (m * 10 ^ e10) 0 loc_Exact
        else
          let '(q, e, l) := SFdiv_core_binary prec emax m 0 (10 ^ (- e10)) 0 in
          SF64round neg q e l
    | Zneg _ => S754_nan
    end.

(** [exponent ::= ("e" | "E") [sign] digitpart], optional.  Returns the
    exponent and the unread rest; a malformed exponent is left unread. *)
Definition opt_exponent (s : string) : Z * string :=
  match s with
  | String c s1 =>
      if Ascii.eqb (lower c) "e" then
        let '(neg, s2) := opt_sign s1 in
        let '(v, n, rest) := opt_digitpart s2 0 0 in
        if 0 <? n then (if neg then - v else v, rest) else (0, s)
      else (0, s)
  | EmptyString => (0, s)
  end.

(** [floatnumber ::= ([digitpart] "." digitpart | digitpart ["."]) [exponent]] *)
Definition parse_floatnumber (neg : bool) (s : string) : result float :=
  let '(ip, ni, s1) := opt_digitpart s 0 0 in
  let '(m, nd, s2) :=
    match s1 with
    | String "." s1' => opt_digitpart s1' ip ni
    | _ => (ip, ni, s1)
    end in
  let '(ex, rest) := opt_exponent s2 in
  if (0 <? nd) && is_empty rest
  then Ok (float_of_decimal neg m (ex - (nd - ni)))
  else Raise ValueError.

(** [float(s)] for a [str]: surrounding whitespace is ignored; the
    value is [inf], [infinity] or [nan] in any letter case, or a decimal
    number, after an optional sign. *)
Definition float_of_str (s : string) : result float :=
  let '(neg, body) := opt_sign (strip_num s) in
  let word := lower_str body in
  if String.eqb word "inf" || String.eqb word "infinity"
  then Ok (if neg then neg_infinity else infinity)
  else if String.eqb word "nan" then Ok nan
  else parse_floatnumber neg body.

(** Conversion of an [int] operand in mixed arithmetic ([x * n]):
    nearest float, ties to even; too large an [int] raises. *)
Definition float_of_int (n : Z) : result float :=
  match binary_normalize prec emax n 0 false with
  | S754_infinity _ => Raise OverflowError
  | f => Ok (SF2Prim f)
  end.

(** [int(x)]: truncation toward zero. *)
Definition int_of_float (x : float) : result Z :=
  match Prim2SF x with
  | S754_nan => Raise ValueError
  | S754_infinity _ => Raise OverflowError
  | S754_zero _ => Ok 0
  | S754_finite s m e =>
      let a := if 0 <=? e then Zpos m * 2 ^ e else Zpos m / 2 ^ (- e) in
      Ok (if s then - a else a)
  end.

(** [math.isfinite(x)]: neither an infinity nor a NaN. *)
Definition isfinite (x : float) : bool :=
  match Prim2SF x with
  | S754_zero _ | S754_finite _ _ _ => true
  | _ => false
  end.

(** [x / y] on floats. *)
Definition truediv (x y : float) : result float :=
  if PrimFloat.eqb y 0%float then Raise ZeroDivisionError
  else Ok (PrimFloat.div x y).

(** [x * n] with an [int] right operand. *)
Definition mul_int (x : float) (n : Z) : result float :=
  bind (float_of_int n) (fun y => Ok (PrimFloat.mul x y)).

(** Fixed-point formatting [f"{x:.<d>f}"]: the decimal with [d]
    fractional digits nearest to the exact value of [x], ties to even. *)
Definition round_half_even (p q : Z) : Z :=
  let k := p / q in
  match (2 * (p mod q)) ?= q with
  | Lt => k
  | Gt => k + 1
  | Eq => if Z.even k then k else k + 1
  end.

Fixpoint zeros (n : nat) : string :=
  match n with
  | O => ""
  | S n' => "0" ++ zeros n'
  end.

Definition zero_pad (width : nat) (s : string) : string :=
  zeros (width - String.length s) ++ s.

Definition fixed_digits (d : nat) (n : Z) : string :=
  let p := 10 ^ Z.of_nat d in
  str_of_int (n / p) ++
  match d with
  | O => ""
  | S _ => "." ++ zero_pad d (str_of_int (n mod p))
  end.

Definition sign_str (s : bool) : string := if s then "-" else "".

Definition format_f (d : nat) (x : float) : string :=
  match Prim2SF x with
  | S754_nan => "nan"
  | S754_infinity s => sign_str s ++ "inf"
  | S754_zero s => sign_str s ++ fixed_digits d 0
  | S754_finite s m e =>
      let scaled := Zpos m * 10 ^ Z.of_nat d in
      let n := if 0 <=? e then scaled * 2 ^ e
               else round_half_even scaled (2 ^ (- e)) in
      sign_str s ++ fixed_digits d n
  end.

End Py.

Import Py.

(* ================================================================== *)
(** * The world outside the program *)
(* ================================================================== *)

(** ** Local file system

    What [os.scandir], [os.stat], [os.path.islink] and [os.path.getsize]
    can tell about a path: a directory (readable or not) with its
    entries, a symbolic link with what it leads to ([None] when it leads
    nowhere), or any other file, whose size is known when [os.stat]
    succeeds. *)
#[warnings="-register-all"]
Inductive node : Type :=
| File (st_size : option N)
| Link (target : option node)
| Dir (readable : bool) (entries : list (string * node)).

(** ** Processes *)

(** The [CompletedProcess] returned by [subprocess.run]. *)
Record completed : Type := {
  returncode : Z;
  stdout : string;
  stderr : string
}.

(** One turn of the loop of [read_stderr]: what [process.stderr.readline()]
    returns, and what [process.poll()] returns at that moment.  The
    stream is a text stream ([text=True]) decoded strictly: a read that
    meets bytes that are not text raises [UnicodeDecodeError]. *)
Record read_step : Type := {
  line : result string;
  poll : option Z
}.

(** The answers of the environment to the requests of the program. *)
Record world : Type := {
  (** [subprocess.run(argv, ...)]; [Raise] when the program cannot be
      started. *)
  run_process : list string -> result completed;
  (** What a local path resolves to; [None] when it does not exist. *)
  local_fs : string -> option node;
  (** Whether [os.makedirs(path, exist_ok=True)] succeeds. *)
  makedirs_ok : string -> bool;
  (** The successive reads of the diagnostic stream of the shell command
      started by [subprocess.Popen(cmd, shell=True, ...)]. *)
  popen : string -> list read_step
}.

(** ** Work deferred to the main loop

    [GLib.idle_add(f, args...)] queues a call for the main loop.  The
    three callables the program queues are the bound methods
    [update_ui_progress] and [on_transfer_finished] and the closures
    [lambda: self.status_label.set_text(text)]. *)
Inductive task : Type :=
| Update_ui_progress (fraction : float)
| On_transfer_finished (success : bool) (error_msg : string)
| Status_label_set_text (text : string).

(** ** Observable actions of a background thread, in program order

    [Store_total_bytes] is the assignment [self.total_bytes = size_bytes]
    the background thread makes to the application object. *)
Inductive event : Type :=
| Subprocess_run (argv : list string)
| Os_path_exists (path : string)
| Os_makedirs (path : string)
| Os_walk (path : string)
| Popen_shell (cmd : string)
| Store_total_bytes (size_bytes : Z)
| Idle_add (t : task).

(** How a thread stands at the end of the observation. *)
Inductive status (A : Type) : Type :=
| Returned (a : A)
| Raised (e : exn)
| Pending.
Arguments Returned {A} a.
Arguments Raised {A} e.
Arguments Pending {A}.

(** A computation of a background thread: the actions it performed and
    how it ended. *)
Definition Bg (A : Type) : Type := list event * status A.

Module BgMonad.

Definition ret {A : Type} (a : A) : Bg A := ([], Returned a).

Definition bind {A B : Type} (m : Bg A) (k : A -> Bg B) : Bg B :=
  match m with
  | (evs, Returned a) => let '(evs', st) := k a in ((evs ++ evs')%list, st)
  | (evs, Raised e) => (evs, Raised e)
  | (evs, Pending) => (evs, Pending)
  end.

Definition emit (e : event) : Bg unit := ([e], Returned tt).

Definition raise {A : Type} (e : exn) : Bg A := ([], Raised e).

Definition lift {A : Type} (r : result A) : Bg A :=
  match r with
  | Ok a => ret a
  | Raise e => raise e
  end.

End BgMonad.

Declare Scope bg_scope.
Delimit Scope bg_scope with bg.
Notation "x <- m ;; k" := (BgMonad.bind m (fun x => k))
  (at level 61, m at next level, right associativity) : bg_scope.
Notation "m ;; k" := (BgMonad.bind m (fun _ => k))
  (at level 61, right associativity) : bg_scope.

(** The two components of a computation. *)
Definition events {A : Type} (m : Bg A) : list event := fst m.
Definition outcome {A : Type} (m : Bg A) : status A := snd m.

(** The calls queued for the main loop, in order. *)
Fixpoint idle_tasks (evs : list event) : list task :=
  match evs with
  | [] => []
  | Idle_add t :: rest => t :: idle_tasks rest
  | _ :: rest => idle_tasks rest
  end.

(* ================================================================== *)
(** * Functional helpers *)
(* ================================================================== *)

Definition DEVICE_DIR : string := "/sdcard/Transfer".
Definition REMOTE_BASE_DIR : string := "/sdcard".
Definition REMOTE_TARGET_DIR_NAME : string := "Transfer".

(** [format_speed(bytes_per_sec)].  The divisors are the constants
    [1024] and [1024**2], which are exact as floats and not zero. *)
Definition format_speed (bytes_per_sec : float) : string :=
  if (bytes_per_sec <? 1024)%float then
    format_f 0 bytes_per_sec ++ " B/s"
  else if (bytes_per_sec <? 1048576)%float then
    format_f 1 (bytes_per_sec / 1024)%float ++ " KB/s"
  else
    format_f 1 (bytes_per_sec / 1048576)%float ++ " MB/s".

(** [check_adb_device()] *)
Definition check_adb_device (w : world) : Bg bool :=
  (BgMonad.emit (Subprocess_run ["adb"; "get-state"]) ;;
   BgMonad.ret
     match run_process w ["adb"; "get-state"] with
     | Ok res => if negb (returncode res =? 0) then false else true
     | Raise _ => false
     end)%bg.

(** [get_remote_size(remote_path)] *)
Definition get_remote_size (w : world) (remote_path : string) : Bg Z :=
  let cmd := ["adb"; "shell"; "du"; "-s"; "-b"; remote_path] in
  (BgMonad.emit (Subprocess_run cmd) ;;
   BgMonad.ret
     match run_process w cmd with
     | Ok result =>
         if returncode result =? 0 then
           let output := strip (stdout result) in
           if truthy output then
             match Py.bind (first (split output)) int_of_str with
             | Ok size_bytes => size_bytes
             | Raise _ => 0
             end
           else 0
         else 0
     | Raise _ => 0
     end)%bg.

(** ** [get_local_size] *)

(** [entry.is_dir()] of [os.scandir], which follows links. *)
Fixpoint is_dir (n : node) : bool :=
  match n with
  | Dir _ _ => true
  | Link (Some target) => is_dir target
  | Link None => false
  | File _ => false
  end.

(** [os.path.islink] *)
Definition islink (n : node) : bool :=
  match n with
  | Link _ => true
  | _ => false
  end.

(** [os.path.getsize]: asked for entries that are neither directories
    nor links. *)
Definition getsize (n : node) : result Z :=
  match n with
  | File (Some size) => Ok (Z.of_N size)
  | _ => Raise OSError
  end.

(** Whether [os.stat(path)] succeeds, and on what: links are followed
    to what they lead to; a link that leads nowhere and a file that
    cannot be examined have no status. *)
Fixpoint os_stat (n : node) : option node :=
  match n with
  | Link (Some target) => os_stat target
  | Link None => None
  | File None => None
  | _ => Some n
  end.

(** One item of [os.walk]: [(dirpath, dirnames, filenames)].  Each file
    name comes with the file it names in [dirpath]. *)
Definition walk_item : Type :=
  (string * list string * list (string * node))%type.

(** [os.walk(top)], top-down, without [onerror] and without
    [followlinks]: [os.scandir(top)] lists the directory [top] leads
    to, so a link given as [top] is followed; what cannot be listed
    yields nothing; the sub-directories that are not links are visited
    in order after the directory itself, and those that are links are
    named in [dirnames] and not visited. *)
Fixpoint walk (top : string) (n : node) : list walk_item :=
  match n with
  | Link (Some target) => walk top target
  | Dir true entries =>
      (top,
       map fst (filter (fun e => is_dir (snd e)) entries),
       filter (fun e => negb (is_dir (snd e))) entries)
      :: (fix sub (es : list (string * node)) : list walk_item :=
            match es with
            | [] => []
            | (name, child) :: es' =>
                ((if is_dir child && negb (islink child)
                  then walk (path_join top name) child
                  else [])
                 ++ sub es')%list
            end) entries
  | _ => []
  end.

(** [os.walk(path)] in the file system [fs]. *)
Definition os_walk (fs : string -> option node) (path : string)
  : list walk_item :=
  match fs path with
  | Some n => walk path n
  | None => []
  end.

(** The inner loop, [for f in filenames], from the current value of
    [total_size]: the new value, and the exception that stopped the loop
    if any. *)
Fixpoint add_files (filenames : list (string * node)) (total_size : Z)
  : Z * result unit :=
  match filenames with
  | [] => (total_size, Ok tt)
  | (f, fp) :: rest =>
      if negb (islink fp) then
        match getsize fp with
        | Ok size => add_files rest (total_size + size)
        | Raise e => (total_size, Raise e)
        end
      else add_files rest total_size
  end.

(** The outer loop, [for dirpath, _, filenames in os.walk(path)]. *)
Fixpoint add_dirs (items : list walk_item) (total_size : Z)
  : Z * result unit :=
  match items with
  | [] => (total_size, Ok tt)
  | (dirpath, _, filenames) :: rest =>
      match add_files filenames total_size with
      | (total_size', Ok _) => add_dirs rest total_size'
      | (total_size', Raise e) => (total_size', Raise e)
      end
  end.

(** [get_local_size(path)]: whatever stops the loops is caught, and the
    value [total_size] has at that point is returned. *)
Definition get_local_size (fs : string -> option node) (path : string) : Z :=
  let total_size := 0 in
  fst (add_dirs (os_walk fs path) total_size).

(** ** [run_adb_command_with_progress] *)

(** The line feed. *)
Definition newline : string := String "010"%char "".

(** [o is not None] *)
Definition is_some {A : Type} (o : option A) : bool :=
  match o with
  | Some _ => true
  | None => false
  end.

Section RunAdbCommandWithProgress.

Variable update_callback : float -> task.
Variable finished_callback : bool -> string -> task.

(** The [while True] loop of [read_stderr] over the successive reads
    of the stream, from the current value of [captured_errors].  It
    returns that list and what [process.poll()] returns once the loop
    is left: the exit code seen by the last test of the loop, which
    [poll] keeps returning.  A read that raises ends the thread with
    its exception: [readline] is called outside the [try].  The
    [except ValueError] clause around [float] also catches
    [UnicodeDecodeError], which is a [ValueError].  The loop is
    [Pending] when the reads observed so far do not leave it. *)
Fixpoint read_loop (steps : list read_step) (captured_errors : list string)
  : Bg (list string * option Z) :=
  match steps with
  | [] => ([], Pending)
  | step :: rest =>
      match line step with
      | Raise e => BgMonad.raise e
      | Ok line =>
          if negb (truthy line) && is_some (poll step) then
            BgMonad.ret (captured_errors, poll step)
          else if truthy line then
            let line_str := strip line in
            match float_of_str line_str with
            | Ok percent =>
                (BgMonad.emit (Idle_add (update_callback (percent / 100)%float)) ;;
                 read_loop rest captured_errors)%bg
            | Raise ValueError | Raise UnicodeDecodeError =>
                if truthy line_str
                then read_loop rest (captured_errors ++ [line_str])%list
                else read_loop rest captured_errors
            | Raise e => BgMonad.raise e
            end
          else read_loop rest captured_errors
      end
  end.

(** [rc == 0] for the value of [process.poll()]. *)
Definition rc_is_zero (rc : option Z) : bool :=
  match rc with
  | Some n => n =? 0
  | None => false
  end.

(** [read_stderr()]: the loop, then the outcome. *)
Definition read_stderr (steps : list read_step) : Bg unit :=
  (r <- read_loop steps [] ;;
   let '(captured_errors, rc) := r in
   let success := rc_is_zero rc in
   let error_msg := if negb success then join newline captured_errors else "" in
   BgMonad.emit (Idle_add (finished_callback success error_msg)))%bg.

(** The thread [t] runs [read_stderr] and nothing follows [t.start()],
    so the actions of the thread are those of the call. *)
Definition run_adb_command_with_progress (w : world) (cmd_list : string)
  : Bg unit :=
  (BgMonad.emit (Popen_shell cmd_list) ;;
   read_stderr (popen w cmd_list))%bg.

End RunAdbCommandWithProgress.

(* ================================================================== *)
(** * The application *)
(* ================================================================== *)

(** Calls to GTK widgets that change what is displayed. *)
Inductive gtk_call : Type :=
| Status_set_text (text : string)
| Progress_set_fraction (fraction : float)
| Progress_set_text (text : string)
| Progress_set_opacity (opacity : float)
| Speed_set_text (text : string)
| Speed_set_opacity (opacity : float)
| Start_set_sensitive (sensitive : bool)
| Add_toast (message : string).

(** The attributes of [ADBTransferApp] and the properties of its
    widgets the program reads or writes.  [gtk_log] lists the calls made
    to the widgets, oldest first. *)
Record ADBTransferApp : Type := {
  total_bytes : Z;
  last_fraction : float;
  last_time : float;
  path_entry_text : string;
  mode_pull_active : bool;
  status_label_text : string;
  progress_bar_fraction : float;
  progress_bar_text : string;
  progress_bar_opacity : float;
  speed_label_text : string;
  speed_label_opacity : float;
  start_btn_sensitive : bool;
  gtk_log : list gtk_call
}.

(** A method running on the main loop: it may change the application
    and may raise; what was changed before an exception stays changed. *)
Definition Ui (A : Type) : Type := ADBTransferApp -> result A * ADBTransferApp.

Module UiMonad.

Definition ret {A : Type} (a : A) : Ui A := fun self => (Ok a, self).

Definition bind {A B : Type} (m : Ui A) (k : A -> Ui B) : Ui B :=
  fun self =>
    match m self with
    | (Ok a, self') => k a self'
    | (Raise e, self') => (Raise e, self')
    end.

Definition lift {A : Type} (r : result A) : Ui A := fun self => (r, self).

Definition get : Ui ADBTransferApp := fun self => (Ok self, self).

Definition modify (f : ADBTransferApp -> ADBTransferApp) : Ui unit :=
  fun self => (Ok tt, f self).

End UiMonad.

Declare Scope ui_scope.
Delimit Scope ui_scope with ui.
Notation "x <- m ;; k" := (UiMonad.bind m (fun x => k))
  (at level 61, m at next level, right associativity) : ui_scope.
Notation "m ;; k" := (UiMonad.bind m (fun _ => k))
  (at level 61, right associativity) : ui_scope.

(** ** Attribute and widget setters *)

Definition logged (c : gtk_call) (a : ADBTransferApp) : list gtk_call :=
  (gtk_log a ++ [c])%list.

Definition set_total_bytes (v : Z) : Ui unit :=
  UiMonad.modify (fun a =>
    {| total_bytes := v; last_fraction := last_fraction a;
       last_time := last_time a; path_entry_text := path_entry_text a;
       mode_pull_active := mode_pull_active a;
       status_label_text := status_label_text a;
       progress_bar_fraction := progress_bar_fraction a;
       progress_bar_text := progress_bar_text a;
       progress_bar_opacity := progress_bar_opacity a;
       speed_label_text := speed_label_text a;
       speed_label_opacity := speed_label_opacity a;
       start_btn_sensitive := start_btn_sensitive a;
       gtk_log := gtk_log a |}).

Definition set_last_fraction (v : float) : Ui unit :=
  UiMonad.modify (fun a =>
    {| total_bytes := total_bytes a; last_fraction := v;
       last_time := last_time a; path_entry_text := path_entry_text a;
       mode_pull_active := mode_pull_active a;
       status_label_text := status_label_text a;
       progress_bar_fraction := progress_bar_fraction a;
       progress_bar_text := progress_bar_text a;
       progress_bar_opacity := progress_bar_opacity a;
       speed_label_text := speed_label_text a;
       speed_label_opacity := speed_label_opacity a;
       start_btn_sensitive := start_btn_sensitive a;
       gtk_log := gtk_log a |}).

Definition set_last_time (v : float) : Ui unit :=
  UiMonad.modify (fun a =>
    {| total_bytes := total_bytes a; last_fraction := last_fraction a;
       last_time := v; path_entry_text := path_entry_text a;
       mode_pull_active := mode_pull_active a;
       status_label_text := status_label_text a;
       progress_bar_fraction := progress_bar_fraction a;
       progress_bar_text := progress_bar_text a;
       progress_bar_opacity := progress_bar_opacity a;
       speed_label_text := speed_label_text a;
       speed_label_opacity := speed_label_opacity a;
       start_btn_sensitive := start_btn_sensitive a;
       gtk_log := gtk_log a |}).

Definition status_label_set_text (text : string) : Ui unit :=
  UiMonad.modify (fun a =>
    {| total_bytes := total_bytes a; last_fraction := last_fraction a;
       last_time := last_time a; path_entry_text := path_entry_text a;
       mode_pull_active := mode_pull_active a;
       status_label_text := text;
       progress_bar_fraction := progress_bar_fraction a;
       progress_bar_text := progress_bar_text a;
       progress_bar_opacity := progress_bar_opacity a;
       speed_label_text := speed_label_text a;
       speed_label_opacity := speed_label_opacity a;
       start_btn_sensitive := start_btn_sensitive a;
       gtk_log := logged (Status_set_text text) a |}).

Definition progress_bar_set_fraction (fraction : float) : Ui unit :=
  UiMonad.modify (fun a =>
    {| total_bytes := total_bytes a; last_fraction := last_fraction a;
       last_time := last_time a; path_entry_text := path_entry_text a;
       mode_pull_active := mode_pull_active a;
       status_label_text := status_label_text a;
       progress_bar_fraction := fraction;
       progress_bar_text := progress_bar_text a;
       progress_bar_opacity := progress_bar_opacity a;
       speed_label_text := speed_label_text a;
       speed_label_opacity := speed_label_opacity a;
       start_btn_sensitive := start_btn_sensitive a;
       gtk_log := logged (Progress_set_fraction fraction) a |}).

Definition progress_bar_set_text (text : string) : Ui unit :=
  UiMonad.modify (fun a =>
    {| total_bytes := total_bytes a; last_fraction := last_fraction a;
       last_time := last_time a; path_entry_text := path_entry_text a;
       mode_pull_active := mode_pull_active a;
       status_label_text := status_label_text a;
       progress_bar_fraction := progress_bar_fraction a;
       progress_bar_text := text;
       progress_bar_opacity := progress_bar_opacity a;
       speed_label_text := speed_label_text a;
       speed_label_opacity := speed_label_opacity a;
       start_btn_sensitive := start_btn_sensitive a;
       gtk_log := logged (Progress_set_text text) a |}).

Definition progress_bar_set_opacity (opacity : float) : Ui unit :=
  UiMonad.modify (fun a =>
    {| total_bytes := total_bytes a; last_fraction := last_fraction a;
       last_time := last_time a; path_entry_text := path_entry_text a;
       mode_pull_active := mode_pull_active a;
       status_label_text := status_label_text a;
       progress_bar_fraction := progress_bar_fraction a;
       progress_bar_text := progress_bar_text a;
       progress_bar_opacity := opacity;
       speed_label_text := speed_label_text a;
       speed_label_opacity := speed_label_opacity a;
       start_btn_sensitive := start_btn_sensitive a;
       gtk_log := logged (Progress_set_opacity opacity) a |}).

Definition speed_label_set_text (text : string) : Ui unit :=
  UiMonad.modify (fun a =>
    {| total_bytes := total_bytes a; last_fraction := last_fraction a;
       last_time := last_time a; path_entry_text := path_entry_text a;
       mode_pull_active := mode_pull_active a;
       status_label_text := status_label_text a;
       progress_bar_fraction := progress_bar_fraction a;
       progress_bar_text := progress_bar_text a;
       progress_bar_opacity := progress_bar_opacity a;
       speed_label_text := text;
       speed_label_opacity := speed_label_opacity a;
       start_btn_sensitive := start_btn_sensitive a;
       gtk_log := logged (Speed_set_text text) a |}).

Definition speed_label_set_opacity (opacity : float) : Ui unit :=
  UiMonad.modify (fun a =>
    {| total_bytes := total_bytes a; last_fraction := last_fraction a;
       last_time := last_time a; path_entry_text := path_entry_text a;
       mode_pull_active := mode_pull_active a;
       status_label_text := status_label_text a;
       progress_bar_fraction := progress_bar_fraction a;
       progress_bar_text := progress_bar_text a;
       progress_bar_opacity := progress_bar_opacity a;
       speed_label_text := speed_label_text a;
       speed_label_opacity := opacity;
       start_btn_sensitive := start_btn_sensitive a;
       gtk_log := logged (Speed_set_opacity opacity) a |}).

Definition start_btn_set_sensitive (sensitive : bool) : Ui unit :=
  UiMonad.modify (fun a =>
    {| total_bytes := total_bytes a; last_fraction := last_fraction a;
       last_time := last_time a; path_entry_text := path_entry_text a;
       mode_pull_active := mode_pull_active a;
       status_label_text := status_label_text a;
       progress_bar_fraction := progress_bar_fraction a;
       progress_bar_text := progress_bar_text a;
       progress_bar_opacity := progress_bar_opacity a;
       speed_label_text := speed_label_text a;
       speed_label_opacity := speed_label_opacity a;
       start_btn_sensitive := sensitive;
       gtk_log := logged (Start_set_sensitive sensitive) a |}).

(** [self._show_toast(message)] *)
Definition _show_toast (message : string) : Ui unit :=
  UiMonad.modify (fun a =>
    {| total_bytes := total_bytes a; last_fraction := last_fraction a;
       last_time := last_time a; path_entry_text := path_entry_text a;
       mode_pull_active := mode_pull_active a;
       status_label_text := status_label_text a;
       progress_bar_fraction := progress_bar_fraction a;
       progress_bar_text := progress_bar_text a;
       progress_bar_opacity := progress_bar_opacity a;
       speed_label_text := speed_label_text a;
       speed_label_opacity := speed_label_opacity a;
       start_btn_sensitive := start_btn_sensitive a;
       gtk_log := logged (Add_toast message) a |}).

(** ** Methods running on the main loop *)

(** [update_ui_progress(self, fraction)]; [current_time] is the value
    [time.time()] returns. *)
Definition update_ui_progress (current_time fraction : float) : Ui unit :=
  (self <- UiMonad.get ;;
   (if (0 <? total_bytes self)%Z && (0 <? last_time self)%float then
      let time_delta := (current_time - last_time self)%float in
      if (0.5 <? time_delta)%float then
        let fraction_delta := (fraction - last_fraction self)%float in
        (if (0 <=? fraction_delta)%float then
           bytes_delta <- UiMonad.lift (mul_int fraction_delta (total_bytes self)) ;;
           speed <- UiMonad.lift (truediv bytes_delta time_delta) ;;
           speed_label_set_text (format_speed speed)
         else UiMonad.ret tt) ;;
        set_last_time current_time ;;
        set_last_fraction fraction
      else UiMonad.ret tt
    else UiMonad.ret tt) ;;
   progress_bar_set_fraction fraction ;;
   percent <- UiMonad.lift (int_of_float (fraction * 100)%float) ;;
   progress_bar_set_text (str_of_int percent ++ "%"))%ui.

(** [on_transfer_finished(self, success, error_msg)] *)
Definition on_transfer_finished (success : bool) (error_msg : string)
  : Ui unit :=
  (start_btn_set_sensitive true ;;
   progress_bar_set_opacity 0%float ;;
   progress_bar_set_fraction 0%float ;;
   speed_label_set_opacity 0%float ;;
   if success then
     status_label_set_text "Transfer Complete!" ;;
     _show_toast "Success!"
   else
     status_label_set_text "Transfer Failed" ;;
     let short_err :=
       if (40 <? String.length error_msg)%nat
       then substring 0 40 error_msg ++ "..."
       else error_msg in
     let short_err :=
       if negb (truthy short_err) then "Check terminal for details."
       else short_err in
     _show_toast ("Error: " ++ short_err))%ui.

(** [on_start(self, button)]; [now] is the value [time.time()] returns.
    The result tells which thread was started: [Some (is_pull,
    local_path)] stands for
    [threading.Thread(target=self._prepare_and_run, args=(is_pull,
    local_path)).start()], [None] for no thread. *)
Definition on_start (now : float) : Ui (option (bool * string)) :=
  (self <- UiMonad.get ;;
   let local_path := strip (path_entry_text self) in
   if negb (truthy local_path) then
     _show_toast "Please select a local path." ;;
     UiMonad.ret None
   else
     let is_pull := mode_pull_active self in
     start_btn_set_sensitive false ;;
     status_label_set_text "Initializing..." ;;
     progress_bar_set_opacity 1%float ;;
     speed_label_set_opacity 1%float ;;
     speed_label_set_text "Calculating..." ;;
     set_last_fraction 0%float ;;
     set_last_time now ;;
     UiMonad.ret (Some (is_pull, local_path)))%ui.

(** A call queued with [GLib.idle_add], run by the main loop at time
    [now]. *)
Definition run_task (now : float) (t : task) : Ui unit :=
  match t with
  | Update_ui_progress fraction => update_ui_progress now fraction
  | On_transfer_finished success error_msg => on_transfer_finished success error_msg
  | Status_label_set_text text => status_label_set_text text
  end.

(** The main loop runs the queued calls in order; an exception raised
    by one of them is reported and the loop goes on. *)
Fixpoint main_loop (queue : list (float * task)) (self : ADBTransferApp)
  : ADBTransferApp :=
  match queue with
  | [] => self
  | (now, t) :: rest => main_loop rest (snd (run_task now t self))
  end.

(** ** The background thread of a transfer *)

(** The double quote. *)
Definition quote : string := String "034"%char "".

(** The two pipelines of [_prepare_and_run]. *)
Definition pull_cmd (local_path : string) (size_bytes : Z) : string :=
  ("adb exec-out " ++ quote ++ "cd " ++ REMOTE_BASE_DIR
     ++ " && tar -c -f - " ++ REMOTE_TARGET_DIR_NAME ++ quote ++ " | ")
  ++ ("pv -n -s " ++ str_of_int size_bytes ++ " | ")
  ++ ("tar -xf - -C " ++ quote ++ local_path ++ quote).

Definition push_cmd (local_path : string) (size_bytes : Z) : string :=
  ("tar -cf - -C " ++ quote ++ local_path ++ quote ++ " . | ")
  ++ ("pv -n -s " ++ str_of_int size_bytes ++ " | ")
  ++ ("adb shell " ++ quote ++ "tar -xf - -C " ++ DEVICE_DIR ++ quote).

(** [os.path.exists(path)]: whether [os.stat(path)], which follows
    links, succeeds. *)
Definition os_path_exists (w : world) (path : string) : Bg bool :=
  (BgMonad.emit (Os_path_exists path) ;;
   BgMonad.ret
     match local_fs w path with
     | Some n => is_some (os_stat n)
     | None => false
     end)%bg.

(** [os.makedirs(path, exist_ok=True)] *)
Definition os_makedirs (w : world) (path : string) : Bg unit :=
  (BgMonad.emit (Os_makedirs path) ;;
   if makedirs_ok w path then BgMonad.ret tt else BgMonad.raise OSError)%bg.

(** [subprocess.run(argv)] *)
Definition subprocess_run (w : world) (argv : list string) : Bg completed :=
  (BgMonad.emit (Subprocess_run argv) ;;
   BgMonad.lift (run_process w argv))%bg.

(** [_prepare_and_run(self, is_pull, local_path)].  The two branches
    yield [Some (size_bytes, cmd)], or [None] where the source returns
    early. *)
Definition _prepare_and_run (w : world) (is_pull : bool) (local_path : string)
  : Bg unit :=
  (device <- check_adb_device w ;;
   if negb device then
     BgMonad.emit (Idle_add (Status_label_set_text "Device Error")) ;;
     BgMonad.emit (Idle_add (On_transfer_finished false
                               "ADB Device not connected or unauthorized"))
   else
     prepared <-
       (if is_pull then
          let remote_full_path := path_join REMOTE_BASE_DIR REMOTE_TARGET_DIR_NAME in
          size_bytes <- get_remote_size w remote_full_path ;;
          os_makedirs w local_path ;;
          BgMonad.ret (Some (size_bytes, pull_cmd local_path size_bytes))
        else
          found <- os_path_exists w local_path ;;
          if negb found then
            BgMonad.emit (Idle_add (On_transfer_finished false
                                      "Local path does not exist")) ;;
            BgMonad.ret None
          else
            subprocess_run w ["adb"; "shell"; "mkdir"; "-p"; DEVICE_DIR] ;;
            BgMonad.emit (Os_walk local_path) ;;
            let size_bytes := get_local_size (local_fs w) local_path in
            BgMonad.ret (Some (size_bytes, push_cmd local_path size_bytes))) ;;
     match prepared with
     | None => BgMonad.ret tt
     | Some (size_bytes, cmd) =>
         BgMonad.emit (Store_total_bytes size_bytes) ;;
         BgMonad.emit (Idle_add (Status_label_set_text "Transferring...")) ;;
         run_adb_command_with_progress Update_ui_progress On_transfer_finished
           w cmd
     end)%bg.

(* ================================================================== *)
(** * Vocabulary of the properties

    The notions the properties below are stated with, sample states and
    environments, and the tactics the proofs share. *)
(* ================================================================== *)

(** ** Floats *)

(** The sign of a float, when it has one. *)
Definition signed_as (s : bool) (f : spec_float) : Prop :=
  match f with
  | S754_nan => True
  | S754_zero s' | S754_infinity s' | S754_finite s' _ _ => s' = s
  end.

(** Finite and not zero, or infinite, with sign [s]. *)
Definition nonzero_as (s : bool) (f : spec_float) : Prop :=
  match f with
  | S754_infinity s' | S754_finite s' _ _ => s' = s
  | _ => False
  end.

(** The signed mantissa of a finite number brought to the exponent
    [ez]. *)
Definition aligned (s : bool) (m : positive) (e ez : Z) : Z :=
  cond_Zopp s (Zpos (fst (shl_align m e ez))).

(** The float [0.0]. *)
Definition SFzero : spec_float := S754_zero false.

(** Zero or finite: neither an infinity nor a NaN. *)
Definition SFfinite (x : spec_float) : bool :=
  match x with
  | S754_zero _ | S754_finite _ _ _ => true
  | _ => false
  end.

(** ** Proof automation *)

(** Unfolding of the two monads. *)
Ltac ui_unfold :=
  unfold UiMonad.bind, UiMonad.ret, UiMonad.get, UiMonad.modify,
    UiMonad.lift.

Ltac bg_unfold :=
  unfold BgMonad.bind, BgMonad.emit, BgMonad.ret, BgMonad.lift,
    BgMonad.raise.

(** Subtraction with an operand that is zero, infinite or a NaN: by
    computation on the signs. *)
Ltac special_cases sx sy :=
  lazymatch goal with
  | |- context [SFsub _ _ (S754_finite _ _ _) (S754_finite _ _ _)] => fail
  | _ => try destruct sx; try destruct sy; cbv; congruence
  end.

(** ** Start requests and pipelines *)

(** The actions of the thread a start request starts in the world [w];
    none when no thread is started. *)
Definition started_thread (w : world) (now : float) (self : ADBTransferApp)
  : list event :=
  match fst (on_start now self) with
  | Ok (Some (is_pull, local_path)) =>
      events (_prepare_and_run w is_pull local_path)
  | _ => []
  end.

(** The application after a toast has been shown. *)
Definition toasted (message : string) (self : ADBTransferApp) : ADBTransferApp :=
  snd (_show_toast message self).

(** The command [_prepare_and_run] builds for a direction. *)
Definition pipeline_cmd (is_pull : bool) (local_path : string) (size_bytes : Z)
  : string :=
  if is_pull then pull_cmd local_path size_bytes
  else push_cmd local_path size_bytes.

(** The archive stage, as the shell sees it. *)
Definition archive_stage (is_pull : bool) (local_path : string) : string :=
  if is_pull
  then "adb exec-out " ++ quote ++ "cd /sdcard && tar -c -f - Transfer" ++ quote
  else "tar -cf - -C " ++ quote ++ local_path ++ quote ++ " .".

(** The metering stage, with the size hint it is given. *)
Definition metering_stage (size_hint : string) : string :=
  "pv -n -s " ++ size_hint.

(** The extraction stage. *)
Definition extract_stage (is_pull : bool) (local_path : string) : string :=
  if is_pull
  then "tar -xf - -C " ++ quote ++ local_path ++ quote
  else "adb shell " ++ quote ++ "tar -xf - -C /sdcard/Transfer" ++ quote.

(** ** Progress updates and rates *)

(** The application after [__init__] and [on_activate]. *)
Definition new_app : ADBTransferApp :=
  {| total_bytes := 0; last_fraction := 0%float; last_time := 0%float;
     path_entry_text := ""; mode_pull_active := true;
     status_label_text := "Ready";
     progress_bar_fraction := 0%float; progress_bar_text := "0%";
     progress_bar_opacity := 0%float;
     speed_label_text := ""; speed_label_opacity := 0%float;
     start_btn_sensitive := true; gtk_log := [] |}.

(** The last two statements of [update_ui_progress]. *)
Definition show_progress (fraction : float) : Ui unit :=
  (progress_bar_set_fraction fraction ;;
   percent <- UiMonad.lift (int_of_float (fraction * 100)%float) ;;
   progress_bar_set_text (str_of_int percent ++ "%"))%ui.

(** Everything but the progress bar's fraction and text and the log of
    widget calls is the same in [a] and [a']. *)
Definition only_progress_bar_differs (a a' : ADBTransferApp) : Prop :=
  total_bytes a' = total_bytes a
  /\ last_fraction a' = last_fraction a
  /\ last_time a' = last_time a
  /\ path_entry_text a' = path_entry_text a
  /\ mode_pull_active a' = mode_pull_active a
  /\ status_label_text a' = status_label_text a
  /\ progress_bar_opacity a' = progress_bar_opacity a
  /\ speed_label_text a' = speed_label_text a
  /\ speed_label_opacity a' = speed_label_opacity a
  /\ start_btn_sensitive a' = start_btn_sensitive a.

(** What [show_progress] does to the progress bar: the fraction is set,
    then the text when [int(fraction * 100)] does not raise. *)
Definition progress_bar_shows (fraction : float) (r : result unit)
    (a a' : ADBTransferApp) : Prop :=
  progress_bar_fraction a' = fraction
  /\ match int_of_float (fraction * 100)%float with
     | Ok percent =>
         r = Ok tt
         /\ progress_bar_text a' = str_of_int percent ++ "%"
         /\ gtk_log a'
            = (gtk_log a ++ [Progress_set_fraction fraction;
                             Progress_set_text (str_of_int percent ++ "%")])%list
     | Raise e =>
         r = Raise e
         /\ progress_bar_text a' = progress_bar_text a
         /\ gtk_log a' = (gtk_log a ++ [Progress_set_fraction fraction])%list
     end.

(** The guard of the rate computation in [update_ui_progress]. *)
Definition estimator_armed (self : ADBTransferApp) : bool :=
  (0 <? total_bytes self) && (0 <? last_time self)%float.

(** The baseline of the estimator. *)
Definition baseline (self : ADBTransferApp) : float * float :=
  (last_fraction self, last_time self).

(** Whether a sample taken at [current_time] is far enough from the
    baseline for a new rate: the estimator is armed and more than half a
    second has passed. *)
Definition sampled (current_time : float) (self : ADBTransferApp) : bool :=
  estimator_armed self && (0.5 <? current_time - last_time self)%float.

(** Everything but the baseline, the speed text, the progress bar's
    fraction and text and the log of widget calls is the same. *)
Definition only_estimator_and_bar_differ (a a' : ADBTransferApp) : Prop :=
  total_bytes a' = total_bytes a
  /\ path_entry_text a' = path_entry_text a
  /\ mode_pull_active a' = mode_pull_active a
  /\ status_label_text a' = status_label_text a
  /\ progress_bar_opacity a' = progress_bar_opacity a
  /\ speed_label_opacity a' = speed_label_opacity a
  /\ start_btn_sensitive a' = start_btn_sensitive a.

(** A transfer of 1000 bytes, half done at time 100. *)
Definition half_way : ADBTransferApp :=
  {| total_bytes := 1000; last_fraction := 0.5%float; last_time := 100%float;
     path_entry_text := "/home/u/out"; mode_pull_active := true;
     status_label_text := "Transferring...";
     progress_bar_fraction := 0.5%float; progress_bar_text := "50%";
     progress_bar_opacity := 1%float;
     speed_label_text := "Calculating..."; speed_label_opacity := 1%float;
     start_btn_sensitive := false; gtk_log := [] |}.

(** The rate [update_ui_progress] computes from a sample. *)
Definition sample_speed (current_time fraction : float) (self : ADBTransferApp)
    (total : float) : float :=
  ((fraction - last_fraction self) * total / (current_time - last_time self))%float.

(** The widget calls of one progress update: those of the progress bar,
    after the speed text when a rate was computed. *)
Definition bar_calls (calls : list gtk_call) : Prop :=
  forall text, ~ In (Speed_set_text text) calls.

(** A transfer whose size is not known (zero), half done at time 100. *)
Definition half_way_unsized : ADBTransferApp :=
  {| total_bytes := 0; last_fraction := 0.5%float; last_time := 100%float;
     path_entry_text := "/home/u/out"; mode_pull_active := true;
     status_label_text := "Transferring...";
     progress_bar_fraction := 0.5%float; progress_bar_text := "50%";
     progress_bar_opacity := 1%float;
     speed_label_text := "Calculating..."; speed_label_opacity := 1%float;
     start_btn_sensitive := false; gtk_log := [] |}.

(** The same transfer after the stray line [inf] was read: the baseline
    fraction is infinite. *)
Definition half_way_infinite : ADBTransferApp :=
  {| total_bytes := 1000; last_fraction := infinity; last_time := 100%float;
     path_entry_text := "/home/u/out"; mode_pull_active := true;
     status_label_text := "Transferring...";
     progress_bar_fraction := infinity; progress_bar_text := "50%";
     progress_bar_opacity := 1%float;
     speed_label_text := "Calculating..."; speed_label_opacity := 1%float;
     start_btn_sensitive := false; gtk_log := [] |}.

(** A transfer whose size, [2 ** 1024], is beyond the floats. *)
Definition half_way_huge : ADBTransferApp :=
  {| total_bytes := 2 ^ 1024; last_fraction := 0.5%float;
     last_time := 100%float;
     path_entry_text := "/home/u/out"; mode_pull_active := true;
     status_label_text := "Transferring...";
     progress_bar_fraction := 0.5%float; progress_bar_text := "50%";
     progress_bar_opacity := 1%float;
     speed_label_text := "Calculating..."; speed_label_opacity := 1%float;
     start_btn_sensitive := false; gtk_log := [] |}.

(** The application with blanks typed in the path entry. *)
Definition blank_path_app : ADBTransferApp :=
  {| total_bytes := 0; last_fraction := 0%float; last_time := 0%float;
     path_entry_text := "   "; mode_pull_active := false;
     status_label_text := "Ready";
     progress_bar_fraction := 0%float; progress_bar_text := "0%";
     progress_bar_opacity := 0%float;
     speed_label_text := ""; speed_label_opacity := 0%float;
     start_btn_sensitive := true; gtk_log := [] |}.

(** ** The diagnostic stream *)

(** No data and the process has terminated: the read that ends the
    stream. *)
Definition stream_ended (step : read_step) : bool :=
  match line step with
  | Ok data => is_empty data && is_some (poll step)
  | Raise _ => false
  end.

(** The exception of a read that fails. *)
Definition failed_read (step : read_step) : option exn :=
  match line step with
  | Ok _ => None
  | Raise e => Some e
  end.

(** The lines read before the stream ends or a read fails (reads
    without data are not lines). *)
Fixpoint lines_read (steps : list read_step) : list string :=
  match steps with
  | [] => []
  | step :: rest =>
      match line step with
      | Raise _ => []
      | Ok data =>
          if stream_ended step then []
          else if is_empty data then lines_read rest
          else data :: lines_read rest
      end
  end.

(** The exit code seen by the read that ends the stream, every read
    before it having succeeded; [None] while the stream has not ended,
    and when a read failed before its end. *)
Fixpoint exit_status (steps : list read_step) : option Z :=
  match steps with
  | [] => None
  | step :: rest =>
      if stream_ended step then poll step
      else if is_some (failed_read step) then None
      else exit_status rest
  end.

(** The exception of the first read that fails before the stream
    ends; [None] when there is none. *)
Fixpoint read_error (steps : list read_step) : option exn :=
  match steps with
  | [] => None
  | step :: rest =>
      match failed_read step with
      | Some e => Some e
      | None => if stream_ended step then None else read_error rest
      end
  end.

(** A line whose trimmed text is a number is a progress sample, the
    number over 100. *)
Definition progress_sample (l : string) : list float :=
  match float_of_str (strip l) with
  | Ok percent => [(percent / 100)%float]
  | Raise _ => []
  end.

(** Any other line is diagnostic text, kept when not empty once
    trimmed. *)
Definition diagnostic (l : string) : list string :=
  match float_of_str (strip l) with
  | Ok _ => []
  | Raise _ => if truthy (strip l) then [strip l] else []
  end.

(** The samples and the log of a sequence of lines. *)
Definition progress_samples (lines : list string) : list float :=
  flat_map progress_sample lines.

Definition diagnostic_log (lines : list string) : list string :=
  flat_map diagnostic lines.

(** The outcome of a transfer whose pipeline exited with [rc]. *)
Definition transfer_outcome (rc : Z) (log : list string) : bool * string :=
  (rc =? 0, if rc =? 0 then "" else join newline log).

(** The calls of the progress callback queued for a list of samples. *)
Definition queued (update_callback : float -> task) (samples : list float)
  : list event :=
  map (fun fraction => Idle_add (update_callback fraction)) samples.

(** A read of [text] followed by a line feed, the process running. *)
Definition reads (text : string) : read_step :=
  {| line := Ok (text ++ newline); poll := None |}.

(** The read that finds the stream closed and the process ended. *)
Definition ends (rc : Z) : read_step := {| line := Ok ""; poll := Some rc |}.

(** A read that meets bytes that are not text, the process having
    ended or not. *)
Definition garbled (rc : option Z) : read_step :=
  {| line := Raise UnicodeDecodeError; poll := rc |}.

(** A pipeline that writes a sample and then a line that is not text,
    and exits with code 1. *)
Definition garbled_stream : world :=
  {| run_process := fun _ => Raise OSError;
     local_fs := fun _ => None;
     makedirs_ok := fun _ => true;
     popen := fun _ => [reads "50"; garbled (Some 1); ends 1] |}.

(** A call of the completion callback. *)
Definition is_finished (t : task) : bool :=
  match t with
  | On_transfer_finished _ _ => true
  | _ => false
  end.

(** The run of the specification: two diagnostic lines, exit code 1. *)
Definition denied : world :=
  {| run_process := fun _ => Raise OSError;
     local_fs := fun _ => None;
     makedirs_ok := fun _ => true;
     popen := fun _ => [reads "permission denied"; reads "abort"; ends 1] |}.

(** ** The workflow *)

(** What the probe [adb get-state] tells. *)
Definition device_present (w : world) : bool :=
  match run_process w ["adb"; "get-state"] with
  | Ok res => returncode res =? 0
  | Raise _ => false
  end.

(** Whether [os.path.exists] finds the path. *)
Definition path_found (w : world) (path : string) : bool :=
  match local_fs w path with
  | Some n => is_some (os_stat n)
  | None => false
  end.

(** The external commands of the workflow. *)
Definition probe : event := Subprocess_run ["adb"; "get-state"].
Definition remote_mkdir : list string :=
  ["adb"; "shell"; "mkdir"; "-p"; DEVICE_DIR].

(** A world with a device attached and an empty local file system. *)
Definition device_only : world :=
  {| run_process :=
       fun _ => Ok {| returncode := 0; stdout := "device"; stderr := "" |};
     local_fs := fun _ => None;
     makedirs_ok := fun _ => true;
     popen := fun _ => [ends 0] |}.

(** The application with a path typed in and the push mode chosen. *)
Definition push_missing_app : ADBTransferApp :=
  {| total_bytes := 0; last_fraction := 0%float; last_time := 0%float;
     path_entry_text := "/missing"; mode_pull_active := false;
     status_label_text := "Ready";
     progress_bar_fraction := 0%float; progress_bar_text := "0%";
     progress_bar_opacity := 0%float;
     speed_label_text := ""; speed_label_opacity := 0%float;
     start_btn_sensitive := true; gtk_log := [] |}.

(** The size query of a pull. *)
Definition remote_du : list string :=
  ["adb"; "shell"; "du"; "-s"; "-b"; path_join REMOTE_BASE_DIR REMOTE_TARGET_DIR_NAME].

(** ** The local size *)

(** Size of an entry the walk does not enter. *)
Definition file_bytes (n : node) : Z :=
  match n with
  | File (Some size) => Z.of_N size
  | _ => 0
  end.

(** The bytes under a directory: the sizes of its files and, through
    its sub-directories, of theirs; the symbolic links among the
    entries count for nothing and are not followed, whatever they lead
    to; a directory that cannot be listed holds nothing.  A link given
    as the directory itself stands for what it leads to. *)
Fixpoint dir_bytes (n : node) : Z :=
  match n with
  | Link (Some target) => dir_bytes target
  | Dir true entries =>
      (fix total (es : list (string * node)) : Z :=
         match es with
         | [] => 0
         | (_, child) :: es' =>
             (if islink child then 0
              else if is_dir child then dir_bytes child
              else file_bytes child)
             + total es'
         end) entries
  | _ => 0
  end.

(** Every file the walk asks the size of has one: the links among the
    entries are not asked, whatever they lead to. *)
Fixpoint stats_ok (n : node) : bool :=
  match n with
  | File None => false
  | File (Some _) => true
  | Link (Some target) => stats_ok target
  | Link None => true
  | Dir false _ => true
  | Dir true entries =>
      (fix all (es : list (string * node)) : bool :=
         match es with
         | [] => true
         | (_, child) :: es' => (islink child || stats_ok child) && all es'
         end) entries
  end.

(** The same for what a path resolves to. *)
Definition tree_bytes (root : option node) : Z :=
  match root with
  | Some n => dir_bytes n
  | None => 0
  end.

Definition tree_stats_ok (root : option node) : bool :=
  match root with
  | Some n => stats_ok n
  | None => true
  end.

(** The part of [os.walk] below the directory itself. *)
Definition walk_below (top : string) (entries : list (string * node))
  : list walk_item :=
  flat_map
    (fun e => if is_dir (snd e) && negb (islink (snd e))
              then walk (path_join top (fst e)) (snd e)
              else [])
    entries.

(** The bytes of the entries of a directory that are not directories. *)
Definition files_bytes (entries : list (string * node)) : Z :=
  fold_right (fun e acc => (if islink (snd e) then 0 else file_bytes (snd e)) + acc)
    0 (filter (fun e => negb (is_dir (snd e))) entries).

(** The bytes under the sub-directories the walk enters. *)
Definition subdirs_bytes (entries : list (string * node)) : Z :=
  fold_right
    (fun e acc => (if is_dir (snd e) && negb (islink (snd e))
                   then dir_bytes (snd e) else 0) + acc)
    0 entries.

(** What the two loops add over the walk of a tree. *)
Definition walk_adds (n : node) : Prop :=
  forall top total_size,
  exists added r,
    add_dirs (walk top n) total_size = (total_size + added, r)
    /\ 0 <= added <= dir_bytes n
    /\ (stats_ok n = true -> r = Ok tt /\ added = dir_bytes n).

(** The files [os.walk] lists, in the order of the walk. *)
Definition listed_files (items : list walk_item) : list (string * node) :=
  flat_map snd items.

(** The sizes of the files of a list added up in order, the links left
    out, as far as the first file whose size cannot be read. *)
Fixpoint accumulated (files : list (string * node)) : Z :=
  match files with
  | [] => 0
  | (_, fp) :: rest =>
      if islink fp then accumulated rest
      else match fp with
           | File (Some size) => Z.of_N size + accumulated rest
           | _ => 0
           end
  end.

(** A directory with two files, a sub-directory, a directory that
    cannot be listed, a link to a file of 50 bytes and a link to a
    directory of 5000 bytes. *)
Definition sample_tree : node :=
  Dir true
    [("a.txt", File (Some 3%N));
     ("shortcut", Link (Some (File (Some 50%N))));
     ("sub", Dir true [("b.bin", File (Some 4%N)); ("c.bin", File (Some 100%N))]);
     ("z.txt", File (Some 7%N));
     ("locked", Dir false [("q", File (Some 1000%N))]);
     ("elsewhere", Link (Some (Dir true [("far", File (Some 5000%N))])))].

(** A world with a device whose folder holds 1000 bytes, and a metering
    stage that reports 0, 50 and 100. *)
Definition pull_1000 : world :=
  {| run_process :=
       fun _ => Ok {| returncode := 0; stdout := "1000 /sdcard/Transfer";
                      stderr := "" |};
     local_fs := fun _ => None;
     makedirs_ok := fun _ => true;
     popen := fun _ => [reads "0"; reads "50"; reads "100"; ends 0] |}.

(** The pipeline of a pull of 1000 bytes into [/home/u/out]. *)
Definition pull_1000_cmd : string :=
  "adb exec-out " ++ quote ++ "cd /sdcard && tar -c -f - Transfer" ++ quote
  ++ " | pv -n -s 1000 | tar -xf - -C " ++ quote ++ "/home/u/out" ++ quote.

(** ** Further notions

    The notions of the properties X1 to X24. *)

(** *** Progress updates *)

(** The baseline is moved to a sample, then the sample is shown. *)
Definition rebase_and_show (current_time fraction : float) : Ui unit :=
  (set_last_time current_time ;; set_last_fraction fraction ;;
   show_progress fraction)%ui.

(** The line the metering stage writes for a percentage. *)
Definition pv_line (percent : Z) : string := str_of_int percent ++ newline.

(** The percentage the bar shows for the line of [percent]. *)
Definition shown_percent (percent : Z) : Z :=
  if (percent =? 29) || (percent =? 57) || (percent =? 58)
  then percent - 1 else percent.

(** Whether the line of [percent] is one sample that is shown as
    [shown_percent percent]. *)
Definition shown_as_expected (percent : Z) : bool :=
  match progress_samples [pv_line percent] with
  | [fraction] =>
      match int_of_float (fraction * 100) with
      | Ok shown => shown =? shown_percent percent
      | Raise _ => false
      end
  | _ => false
  end.

(** *** Start and completion *)

(** The widget calls [on_transfer_finished] makes before the status
    text and the toast. *)
Definition release_calls : list gtk_call :=
  [Start_set_sensitive true; Progress_set_opacity 0; Progress_set_fraction 0;
   Speed_set_opacity 0].

(** The widget calls of an accepted start request. *)
Definition start_calls : list gtk_call :=
  [Start_set_sensitive false; Status_set_text "Initializing...";
   Progress_set_opacity 1; Speed_set_opacity 1;
   Speed_set_text "Calculating..."].

(** The transfer request and its size: what only [on_start], the path
    entry, the mode buttons and the background thread decide. *)
Definition request (self : ADBTransferApp) : Z * string * bool :=
  (total_bytes self, path_entry_text self, mode_pull_active self).

(** The application with a path typed in, as a transfer ends. *)
Definition idle_app : ADBTransferApp :=
  {| total_bytes := 1000; last_fraction := 1%float; last_time := 100%float;
     path_entry_text := "  /home/u/out "; mode_pull_active := true;
     status_label_text := "Transfer Complete!";
     progress_bar_fraction := 0%float; progress_bar_text := "100%";
     progress_bar_opacity := 0%float;
     speed_label_text := "250 B/s"; speed_label_opacity := 0%float;
     start_btn_sensitive := true; gtk_log := [] |}.

(** The application once the thread of a transfer started at [now] has
    stored its byte count. *)
Definition sized (now : float) (size_bytes : Z) (self : ADBTransferApp)
  : ADBTransferApp :=
  snd (set_total_bytes size_bytes (snd (on_start now self))).

(** *** The transfer thread *)

(** What a transfer does before it stores the byte count. *)
Definition preparation (is_pull : bool) (local_path : string) : list event :=
  if is_pull
  then [probe; Subprocess_run remote_du; Os_makedirs local_path]
  else [probe; Os_path_exists local_path; Subprocess_run remote_mkdir;
        Os_walk local_path].

(** The launch of a pipeline: the byte count is stored, the status is
    queued, the shell is started. *)
Definition launch (size_bytes : Z) (cmd : string) : list event :=
  [Store_total_bytes size_bytes;
   Idle_add (Status_label_set_text "Transferring...");
   Popen_shell cmd].

(** The reader thread of a pipeline. *)
Definition reader (w : world) (cmd : string) : Bg unit :=
  read_stderr Update_ui_progress On_transfer_finished (popen w cmd).

(** The report of a device that is not there. *)
Definition device_error : list event :=
  [probe;
   Idle_add (Status_label_set_text "Device Error");
   Idle_add (On_transfer_finished false
               "ADB Device not connected or unauthorized")].

(** The value [get_remote_size] returns. *)
Definition du_size (w : world) (remote_path : string) : Z :=
  match outcome (get_remote_size w remote_path) with
  | Returned size_bytes => size_bytes
  | _ => 0
  end.

(** The byte count of a transfer. *)
Definition transfer_size (w : world) (is_pull : bool) (local_path : string)
  : Z :=
  if is_pull
  then du_size w (path_join REMOTE_BASE_DIR REMOTE_TARGET_DIR_NAME)
  else get_local_size (local_fs w) local_path.

(** The pipeline of a transfer. *)
Definition transfer_cmd (w : world) (is_pull : bool) (local_path : string)
  : string :=
  pipeline_cmd is_pull local_path (transfer_size w is_pull local_path).

(** Whether the preparation of a transfer gets to the launch. *)
Definition prepared (w : world) (is_pull : bool) (local_path : string)
  : Prop :=
  device_present w = true
  /\ if is_pull then makedirs_ok w local_path = true
     else path_found w local_path = true
          /\ exists res, run_process w remote_mkdir = Ok res.

(** What stops the thread of a transfer with the exception [e]. *)
Definition dies_of (w : world) (is_pull : bool) (local_path : string)
    (e : exn) : Prop :=
  device_present w = true
  /\ if is_pull then makedirs_ok w local_path = false /\ e = OSError
     else path_found w local_path = true
          /\ run_process w remote_mkdir = Raise e.

(** A world with a device attached where the destination directory
    cannot be made. *)
Definition read_only_disk : world :=
  {| run_process :=
       fun _ => Ok {| returncode := 0; stdout := "device"; stderr := "" |};
     local_fs := fun _ => None;
     makedirs_ok := fun _ => false;
     popen := fun _ => [ends 0] |}.

(** A world without a device. *)
Definition no_device : world :=
  {| run_process :=
       fun _ => Ok {| returncode := 1; stdout := "";
                      stderr := "error: no devices/emulators found" |};
     local_fs := fun _ => Some (Dir true []);
     makedirs_ok := fun _ => true;
     popen := fun _ => [ends 0] |}.

(** A world with a device attached and the sample tree at every local
    path. *)
Definition push_world : world :=
  {| run_process :=
       fun _ => Ok {| returncode := 0; stdout := ""; stderr := "" |};
     local_fs := fun _ => Some sample_tree;
     makedirs_ok := fun _ => true;
     popen := fun _ => [reads "100"; ends 0] |}.

(** A world whose pipeline fails without a word. *)
Definition silent_failure : world :=
  {| run_process :=
       fun _ => Ok {| returncode := 0; stdout := ""; stderr := "" |};
     local_fs := fun _ => None;
     makedirs_ok := fun _ => true;
     popen := fun _ => [reads "50"; reads ""; ends 2] |}.

(** *** The local size *)

(** A file whose size cannot be read. *)
Definition stat_fails (n : node) : bool :=
  match n with
  | File None => true
  | _ => false
  end.

(** A directory with a file that cannot be examined between two others,
    after a sub-directory. *)
Definition damaged_tree : node :=
  Dir true
    [("sub", Dir true [("b.bin", File (Some 4%N))]);
     ("a.txt", File (Some 3%N));
     ("gone", File None);
     ("z.txt", File (Some 7%N))].

(** *** Numerals and words *)

(** Every character of a string satisfies [p]. *)
Fixpoint all_chars (p : ascii -> bool) (s : string) : bool :=
  match s with
  | EmptyString => true
  | String c s' => p c && all_chars p s'
  end.

(** The characters of a decimal numeral. *)
Definition numeral_char (c : ascii) : bool := is_digit c || Ascii.eqb c "-".

(** A world whose device answers [du] with a count and the path. *)
Definition du_world (count : string) : world :=
  {| run_process :=
       fun _ => Ok {| returncode := 0;
                      stdout := count ++ String "009"%char "/sdcard/Transfer"
                                  ++ newline;
                      stderr := "" |};
     local_fs := fun _ => None;
     makedirs_ok := fun _ => true;
     popen := fun _ => [ends 0] |}.

(* ================================================================== *)
(** * Facts of binary64 arithmetic

    Derived from the specification of the primitive floats
    ([SpecFloat], [FloatAxioms]). *)
(* ================================================================== *)

Module IEEE.

(** Number of binary digits. *)
Lemma digits2_bounds (p : positive) :
  2 ^ (Zpos (digits2_pos p) - 1) <= Zpos p < 2 ^ Zpos (digits2_pos p).
Proof.
  induction p as [p IH | p IH |]; simpl digits2_pos.
  - rewrite Pos2Z.inj_succ, Pos2Z.inj_xI.
    replace (Z.succ (Zpos (digits2_pos p)) - 1) with (Z.succ (Zpos (digits2_pos p) - 1)) by lia.
    rewrite !Z.pow_succ_r by lia. lia.
  - rewrite Pos2Z.inj_succ, (Pos2Z.inj_xO p).
    replace (Z.succ (Zpos (digits2_pos p)) - 1) with (Z.succ (Zpos (digits2_pos p) - 1)) by lia.
    rewrite !Z.pow_succ_r by lia. lia.
  - simpl. lia.
Qed.

Lemma iter_xO (m d : positive) : Zpos (Pos.iter xO m d) = Zpos m * 2 ^ Zpos d.
Proof.
  induction d as [| d IH] using Pos.peano_ind.
  - simpl. lia.
  - rewrite Pos.iter_succ, (Pos2Z.inj_xO (Pos.iter xO m d)), IH, Pos2Z.inj_succ, Z.pow_succ_r by lia. lia.
Qed.

(** Right shifts. *)
Lemma shr_1_m (mrs : shr_record) :
  0 <= shr_m mrs -> shr_m (shr_1 mrs) = shr_m mrs / 2.
Proof.
  intros H. rewrite <- Z.div2_div.
  destruct mrs as [m r s]. simpl in H.
  destruct m as [| [p | p |] | p]; try reflexivity. lia.
Qed.

Lemma iter_shr_m (p : positive) :
  forall mrs, 0 <= shr_m mrs ->
    shr_m (iter_pos shr_1 p mrs) = shr_m mrs / 2 ^ Zpos p.
Proof.
  induction p as [p IH | p IH |]; intros mrs H; simpl iter_pos.
  - assert (H1 : 0 <= shr_m (shr_1 mrs)).
    { rewrite shr_1_m by assumption. apply Z.div_pos; lia. }
    assert (H2 : 0 <= shr_m (iter_pos shr_1 p (shr_1 mrs))).
    { rewrite IH by assumption. apply Z.div_pos; [assumption | lia]. }
    rewrite IH, IH, shr_1_m by assumption.
    rewrite !Z.div_div by lia.
    f_equal. rewrite (Pos2Z.inj_xI p), Z.pow_add_r, Z.pow_twice_r by lia.
    change (2 ^ 1) with 2. ring.
  - assert (H2 : 0 <= shr_m (iter_pos shr_1 p mrs)).
    { rewrite IH by assumption. apply Z.div_pos; [assumption | lia]. }
    rewrite IH, IH by assumption.
    rewrite !Z.div_div by lia.
    f_equal. rewrite (Pos2Z.inj_xO p), Z.pow_twice_r by lia. ring.
  - rewrite shr_1_m by assumption. reflexivity.
Qed.

Lemma shr_record_of_loc_m (m : Z) (l : location) :
  shr_m (shr_record_of_loc m l) = m.
Proof. destruct l as [| []]; reflexivity. Qed.

Lemma binary_round_aux_signed (s : bool) (m e : Z) (l : location) :
  signed_as s (binary_round_aux prec emax s m e l).
Proof.
  unfold binary_round_aux.
  destruct (shr_fexp prec emax m e l) as [mrs' e'].
  destruct (shr_fexp prec emax _ e' loc_Exact) as [mrs'' e''].
  destruct (shr_m mrs'') as [| p | p]; try exact I; try reflexivity.
  destruct (e'' <=? _); reflexivity.
Qed.

Lemma binary_round_signed (s : bool) (m : positive) (e : Z) :
  signed_as s (binary_round prec emax s m e).
Proof.
  unfold binary_round.
  destruct (shl_align m e _) as [mz ez].
  apply binary_round_aux_signed.
Qed.

Lemma shr_fexp_pos (m e : Z) (l : location) :
  0 < m -> emin <= e ->
  0 < shr_m (fst (shr_fexp prec emax m e l))
  /\ emin <= snd (shr_fexp prec emax m e l).
Proof.
  intros Hm He. unfold shr_fexp, shr.
  destruct m as [| p | p]; try lia.
  pose proof (digits2_bounds p) as [Hlo Hhi].
  simpl Zdigits2.
  destruct (fexp prec emax (Zpos (digits2_pos p) + e) - e) as [| n | n] eqn:En;
    simpl fst; simpl snd; rewrite ?shr_record_of_loc_m; try (split; lia).
  unfold fexp, SpecFloat.emin, prec, emax in *.
  rewrite iter_shr_m by (rewrite shr_record_of_loc_m; lia).
  rewrite shr_record_of_loc_m.
  split; [| lia].
  apply Z.div_str_pos. split; [apply Z.pow_pos_nonneg; lia |].
  apply Z.le_trans with (2 := Hlo).
  apply Z.pow_le_mono_r; lia.
Qed.

Lemma round_nearest_even_pos (m : Z) (l : location) :
  0 < m -> 0 < round_nearest_even m l.
Proof.
  intros H. unfold round_nearest_even.
  destruct l as [| []]; try lia. destruct (Z.even m); lia.
Qed.

Lemma binary_round_aux_nonzero (s : bool) (m e : Z) (l : location) :
  0 < m -> emin <= e -> nonzero_as s (binary_round_aux prec emax s m e l).
Proof.
  intros Hm He. unfold binary_round_aux.
  destruct (shr_fexp_pos m e l Hm He) as [H1 H2].
  destruct (shr_fexp prec emax m e l) as [mrs' e']. simpl in H1, H2.
  pose proof (round_nearest_even_pos (shr_m mrs') (loc_of_shr_record mrs') H1) as H3.
  destruct (shr_fexp_pos _ e' loc_Exact H3 H2) as [H4 H5].
  destruct (shr_fexp prec emax _ e' loc_Exact) as [mrs'' e'']. simpl in H4, H5.
  destruct (shr_m mrs'') as [| p | p]; try lia.
  destruct (e'' <=? _); reflexivity.
Qed.

Lemma binary_round_nonzero (s : bool) (m : positive) (e : Z) :
  emin <= e -> nonzero_as s (binary_round prec emax s m e).
Proof.
  intros He. unfold binary_round.
  destruct (shl_align m e _) as [mz ez] eqn:E.
  apply binary_round_aux_nonzero; [lia |].
  unfold shl_align in E.
  destruct (_ - e) as [| d | d] eqn:Ed; inversion E; subst; try assumption.
  unfold fexp, SpecFloat.emin, prec, emax in *. lia.
Qed.

(** ** Comparison and subtraction of finite numbers *)

(** What [bounded] says of a mantissa and its exponent. *)
Lemma bounded_inv (m : positive) (e : Z) :
  bounded prec emax m e = true ->
  emin <= e
  /\ Zpos (digits2_pos m) <= prec
  /\ (emin < e -> Zpos (digits2_pos m) = prec).
Proof.
  unfold bounded, canonical_mantissa, fexp, SpecFloat.emin, prec, emax.
  intros H. apply andb_prop in H. destruct H as [H _].
  apply Z.eqb_eq in H. lia.
Qed.

(** The mantissa of a number brought to the exponent [ez]. *)
Lemma shl_align_value (m : positive) (e ez : Z) :
  ez <= e -> Zpos (fst (shl_align m e ez)) = Zpos m * 2 ^ (e - ez).
Proof.
  intros H. unfold shl_align.
  destruct (ez - e) as [| d | d] eqn:Ed; simpl fst.
  - replace (e - ez) with 0 by lia. simpl. lia.
  - lia.
  - rewrite iter_xO. f_equal. f_equal. lia.
Qed.

Lemma mantissa_lt_shifted (mx my : positive) (ex ey : Z) :
  bounded prec emax mx ex = true -> bounded prec emax my ey = true ->
  ex < ey ->
  Zpos mx * 2 ^ (ex - ex) < Zpos my * 2 ^ (ey - ex).
Proof.
  intros Bx By Hlt.
  apply bounded_inv in Bx. apply bounded_inv in By.
  destruct Bx as (Hex & Hdx & _). destruct By as (_ & _ & Hdy).
  pose proof (digits2_bounds mx) as [_ Hx].
  pose proof (digits2_bounds my) as [Hy _].
  rewrite Hdy in Hy by lia.
  replace (ex - ex) with 0 by lia. rewrite Z.pow_0_r, Z.mul_1_r.
  assert (H53 : 2 ^ Zpos (digits2_pos mx) <= 2 ^ prec)
    by (apply Z.pow_le_mono_r; lia).
  assert (H2 : 2 ^ 1 <= 2 ^ (ey - ex)) by (apply Z.pow_le_mono_r; lia).
  change (2 ^ 1) with 2 in H2.
  assert (Hp : 2 ^ prec = 2 * 2 ^ (prec - 1)) by reflexivity.
  nia.
Qed.

Lemma SFcompare_aligned (sx sy : bool) (mx my : positive) (ex ey : Z) :
  bounded prec emax mx ex = true -> bounded prec emax my ey = true ->
  SFcompare (S754_finite sx mx ex) (S754_finite sy my ey)
  = Some (aligned sx mx ex (Z.min ex ey) ?= aligned sy my ey (Z.min ex ey)).
Proof.
  intros Bx By. unfold aligned.
  rewrite !shl_align_value by lia.
  assert (Px : 0 < Zpos mx * 2 ^ (ex - Z.min ex ey))
    by (apply Z.mul_pos_pos; [lia | apply Z.pow_pos_nonneg; lia]).
  assert (Py : 0 < Zpos my * 2 ^ (ey - Z.min ex ey))
    by (apply Z.mul_pos_pos; [lia | apply Z.pow_pos_nonneg; lia]).
  assert (Hcmp : (ex ?= ey) = Lt /\ Zpos mx * 2 ^ (ex - Z.min ex ey) < Zpos my * 2 ^ (ey - Z.min ex ey)
               \/ (ex ?= ey) = Gt /\ Zpos my * 2 ^ (ey - Z.min ex ey) < Zpos mx * 2 ^ (ex - Z.min ex ey)
               \/ (ex ?= ey) = Eq /\ ex = ey).
  { destruct (Z.compare_spec ex ey) as [Heq | Hlt | Hgt].
    - right; right. split; [reflexivity | assumption].
    - left. split; [reflexivity |].
      replace (Z.min ex ey) with ex by lia.
      now apply mantissa_lt_shifted.
    - right; left. split; [reflexivity |].
      replace (Z.min ex ey) with ey by lia.
      now apply mantissa_lt_shifted. }
  simpl SFcompare. f_equal.
  destruct Hcmp as [[Hc Hlt] | [[Hc Hgt] | [Hc Heq]]]; rewrite Hc.
  - destruct sx, sy; unfold cond_Zopp; symmetry.
    + apply Z.compare_gt_iff. lia.
    + apply Z.compare_lt_iff. lia.
    + apply Z.compare_gt_iff. lia.
    + apply Z.compare_lt_iff. lia.
  - destruct sx, sy; unfold cond_Zopp; symmetry.
    + apply Z.compare_lt_iff. lia.
    + apply Z.compare_lt_iff. lia.
    + apply Z.compare_gt_iff. lia.
    + apply Z.compare_gt_iff. lia.
  - subst ey. replace (ex - Z.min ex ex) with 0 by lia.
    rewrite Z.pow_0_r, !Z.mul_1_r.
    fold (Pos.compare mx my).
    destruct sx, sy; unfold cond_Zopp; symmetry.
    + rewrite Z.compare_opp. simpl. apply Pos.compare_antisym.
    + apply Z.compare_lt_iff. lia.
    + apply Z.compare_gt_iff. lia.
    + reflexivity.
Qed.

Lemma SFsub_finite (sx sy : bool) (mx my : positive) (ex ey : Z) :
  SFsub prec emax (S754_finite sx mx ex) (S754_finite sy my ey)
  = binary_normalize prec emax
      (aligned sx mx ex (Z.min ex ey) - aligned sy my ey (Z.min ex ey))
      (Z.min ex ey) false.
Proof. reflexivity. Qed.

Lemma binary_normalize_sign (d e : Z) :
  emin <= e ->
  match d ?= 0 with
  | Lt => nonzero_as true (binary_normalize prec emax d e false)
  | Eq => binary_normalize prec emax d e false = S754_zero false
  | Gt => nonzero_as false (binary_normalize prec emax d e false)
  end.
Proof.
  intros He. destruct d as [| p | p]; simpl.
  - reflexivity.
  - now apply binary_round_nonzero.
  - now apply binary_round_nonzero.
Qed.

Lemma nonzero_true_not_ge (f : spec_float) :
  nonzero_as true f -> SFleb SFzero f = false.
Proof. destruct f as [s | s | | s m e]; simpl; intros H; try contradiction; now subst. Qed.

Lemma nonzero_false_ge (f : spec_float) :
  nonzero_as false f -> SFleb SFzero f = true.
Proof. destruct f as [s | s | | s m e]; simpl; intros H; try contradiction; now subst. Qed.

(** [x < y] makes [x - y] negative: the difference of two floats does
    not round to zero. *)
Lemma SFsub_lt (x y : spec_float) :
  valid_binary x = true -> valid_binary y = true ->
  SFltb x y = true -> SFleb SFzero (SFsub prec emax x y) = false.
Proof.
  intros Vx Vy. unfold SFltb.
  destruct x as [sx | sx | | sx mx ex], y as [sy | sy | | sy my ey];
    try special_cases sx sy.
  simpl in Vx, Vy.
  rewrite SFcompare_aligned, SFsub_finite by assumption.
  pose proof (bounded_inv _ _ Vx) as (Hex & _).
  pose proof (bounded_inv _ _ Vy) as (Hey & _).
  set (a := aligned sx mx ex _). set (b := aligned sy my ey _).
  pose proof (binary_normalize_sign (a - b) (Z.min ex ey) ltac:(lia)) as Hs.
  destruct (Z.compare_spec a b) as [Hab | Hab | Hab]; try discriminate.
  intros _. replace (a - b ?= 0) with Lt in Hs
    by (symmetry; apply Z.compare_lt_iff; lia).
  now apply nonzero_true_not_ge.
Qed.

(** [y <= x] makes [x - y] zero or positive, for finite numbers. *)
Lemma SFsub_ge (x y : spec_float) :
  valid_binary x = true -> valid_binary y = true ->
  SFfinite x = true -> SFfinite y = true ->
  SFleb y x = true -> SFleb SFzero (SFsub prec emax x y) = true.
Proof.
  intros Vx Vy Fx Fy. unfold SFleb at 1.
  destruct x as [sx | sx | | sx mx ex], y as [sy | sy | | sy my ey];
    try discriminate; try special_cases sx sy.
  simpl in Vx, Vy.
  rewrite SFcompare_aligned, SFsub_finite by assumption.
  pose proof (bounded_inv _ _ Vx) as (Hex & _).
  pose proof (bounded_inv _ _ Vy) as (Hey & _).
  rewrite (Z.min_comm ey ex).
  set (a := aligned sx mx ex _). set (b := aligned sy my ey _).
  pose proof (binary_normalize_sign (a - b) (Z.min ex ey) ltac:(lia)) as Hs.
  destruct (Z.compare_spec b a) as [Hab | Hab | Hab]; try discriminate; intros _.
  - replace (a - b ?= 0) with Eq in Hs
      by (symmetry; apply Z.compare_eq_iff; lia).
    rewrite Hs. reflexivity.
  - replace (a - b ?= 0) with Gt in Hs
      by (symmetry; apply Z.compare_gt_iff; lia).
    now apply nonzero_false_ge.
Qed.

Lemma Prim2SF_zero : Prim2SF 0 = SFzero.
Proof. reflexivity. Qed.

Theorem sub_lt (x y : float) :
  (x <? y)%float = true -> (0 <=? x - y)%float = false.
Proof.
  rewrite ltb_spec, leb_spec, sub_spec, Prim2SF_zero.
  apply SFsub_lt; apply Prim2SF_valid.
Qed.

Theorem sub_ge (x y : float) :
  SFfinite (Prim2SF x) = true -> SFfinite (Prim2SF y) = true ->
  (y <=? x)%float = true -> (0 <=? x - y)%float = true.
Proof.
  rewrite !leb_spec, sub_spec, Prim2SF_zero.
  apply SFsub_ge; apply Prim2SF_valid.
Qed.

(** ** Signs of products and quotients *)

Lemma signed_false_not_neg (f : spec_float) :
  signed_as false f -> SFltb f SFzero = false.
Proof. destruct f as [s | s | | s m e]; simpl; intros H; subst; reflexivity. Qed.

Lemma SFmul_not_neg (a b : spec_float) :
  SFleb SFzero a = true -> signed_as false b ->
  SFltb (SFmul prec emax a b) SFzero = false.
Proof.
  destruct a as [sa | sa | | sa ma ea], b as [sb | sb | | sb mb eb];
    simpl; intros Ha Hb; subst; try discriminate; try reflexivity;
    try (destruct sa; try discriminate; reflexivity).
  destruct sa; try discriminate.
  apply signed_false_not_neg, binary_round_aux_signed.
Qed.

Lemma SFdiv_not_neg (a b : spec_float) :
  SFltb a SFzero = false -> nonzero_as false b ->
  SFltb (SFdiv prec emax a b) SFzero = false.
Proof.
  destruct a as [sa | sa | | sa ma ea], b as [sb | sb | | sb mb eb];
    simpl; intros Ha Hb; subst; try contradiction; try reflexivity;
    try (destruct sa; try discriminate; reflexivity).
  destruct sa; try discriminate.
  destruct (SFdiv_core_binary prec emax (Zpos ma) ea (Zpos mb) eb) as [[q e] l].
  apply signed_false_not_neg, binary_round_aux_signed.
Qed.

Lemma SFldexp_signed (s : bool) (f : spec_float) (e : Z) :
  signed_as s f -> signed_as s (SFldexp prec emax f e).
Proof.
  destruct f as [s' | s' | | s' m' e']; simpl; intros H; subst; auto.
  apply binary_round_signed.
Qed.

Lemma binary_normalize_signed (n e : Z) :
  0 <= n -> signed_as false (binary_normalize prec emax n e false).
Proof.
  intros H. destruct n as [| p | p]; try lia.
  - exact eq_refl.
  - apply binary_round_signed.
Qed.

(** The float a positive mantissa and an exponent stand for has no
    minus sign. *)
Lemma SF2Prim_finite_signed (m : positive) (e : Z) :
  signed_as false (Prim2SF (SF2Prim (S754_finite false m e))).
Proof.
  unfold SF2Prim.
  rewrite Z_ldexp_spec, of_uint63_spec.
  apply SFldexp_signed, binary_normalize_signed.
  apply Uint63.to_Z_bounded.
Qed.

(** ** Order *)

Lemma SFleb_not_ltb (x y : spec_float) :
  SFleb x y = true -> SFltb y x = false.
Proof.
  unfold SFleb, SFltb.
  destruct x as [sx | sx | | sx mx ex], y as [sy | sy | | sy my ey]; simpl;
    try (try destruct sx; try destruct sy; simpl; congruence).
  change (Pos.compare_cont Eq my mx) with (Pos.compare my mx).
  change (Pos.compare_cont Eq mx my) with (Pos.compare mx my).
  rewrite (Z.compare_antisym ex ey), (Pos.compare_antisym mx my).
  destruct sx, sy; try congruence;
    destruct (ex ?= ey); simpl; try congruence;
    destruct (mx ?= my)%positive; simpl; congruence.
Qed.

Theorem leb_not_ltb (x y : float) :
  (x <=? y)%float = true -> (y <? x)%float = false.
Proof. rewrite leb_spec, ltb_spec. apply SFleb_not_ltb. Qed.

End IEEE.

(* ================================================================== *)
(** * Properties *)
(* ================================================================== *)

(** ** Start requests *)

Lemma toasted_frame (message : string) (self : ADBTransferApp) :
  toasted message self =
    {| total_bytes := total_bytes self; last_fraction := last_fraction self;
       last_time := last_time self; path_entry_text := path_entry_text self;
       mode_pull_active := mode_pull_active self;
       status_label_text := status_label_text self;
       progress_bar_fraction := progress_bar_fraction self;
       progress_bar_text := progress_bar_text self;
       progress_bar_opacity := progress_bar_opacity self;
       speed_label_text := speed_label_text self;
       speed_label_opacity := speed_label_opacity self;
       start_btn_sensitive := start_btn_sensitive self;
       gtk_log := (gtk_log self ++ [Add_toast message])%list |}.
Proof. reflexivity. Qed.

(** C6.  A start request whose local path is empty (after trimming) is
    rejected at once: [on_start] returns without raising and without
    starting the thread of [_prepare_and_run] -- so, in any world, no
    device check, no size query and no pipeline --, and the application
    is left as it was but for the toast that reports the failure. *)
Theorem on_start_empty_path_rejected
    (now : float) (self : ADBTransferApp)
    (Hempty : strip (path_entry_text self) = "") :
  on_start now self = (Ok None, toasted "Please select a local path." self)
  /\ (forall w, started_thread w now self = [])
  /\ total_bytes (snd (on_start now self)) = total_bytes self
  /\ last_fraction (snd (on_start now self)) = last_fraction self
  /\ last_time (snd (on_start now self)) = last_time self
  /\ status_label_text (snd (on_start now self)) = status_label_text self
  /\ start_btn_sensitive (snd (on_start now self)) = start_btn_sensitive self
  /\ gtk_log (snd (on_start now self))
     = (gtk_log self ++ [Add_toast "Please select a local path."])%list.
Proof.
  assert (E : on_start now self
              = (Ok None, toasted "Please select a local path." self)).
  { unfold on_start. ui_unfold. rewrite Hempty. reflexivity. }
  unfold started_thread. rewrite E. repeat split.
Qed.

(** C6 on a path entry that holds blanks only. *)
Lemma on_start_empty_path_rejected_witness :
  strip (path_entry_text blank_path_app) = ""
  /\ fst (on_start 5 blank_path_app) = Ok None
  /\ started_thread device_only 5 blank_path_app = []
  /\ gtk_log (snd (on_start 5 blank_path_app))
     = [Add_toast "Please select a local path."].
Proof.
  split; [reflexivity |].
  destruct (on_start_empty_path_rejected 5 blank_path_app eq_refl)
    as (Hret & Hnone & _ & _ & _ & _ & _ & Hlog).
  split; [now rewrite Hret |]. split; [exact (Hnone device_only) | exact Hlog].
Defined.

(** ** Pipeline construction *)

Lemma append_assoc (a b c : string) : (a ++ b) ++ c = a ++ (b ++ c).
Proof. induction a as [| ch a IH]; simpl; [reflexivity | now rewrite IH]. Qed.

Lemma pipeline_cmd_stages (is_pull : bool) (local_path : string) (size_bytes : Z) :
  pipeline_cmd is_pull local_path size_bytes
  = archive_stage is_pull local_path ++ " | "
    ++ metering_stage (str_of_int size_bytes) ++ " | "
    ++ extract_stage is_pull local_path.
Proof.
  unfold pipeline_cmd, pull_cmd, push_cmd, archive_stage, metering_stage,
    extract_stage, REMOTE_BASE_DIR, REMOTE_TARGET_DIR_NAME, DEVICE_DIR.
  destruct is_pull; repeat rewrite append_assoc; reflexivity.
Qed.

(** ** Progress updates *)

Lemma show_progress_spec (fraction : float) (a : ADBTransferApp) :
  only_progress_bar_differs a (snd (show_progress fraction a))
  /\ progress_bar_shows fraction (fst (show_progress fraction a)) a
       (snd (show_progress fraction a)).
Proof.
  unfold show_progress, progress_bar_shows, only_progress_bar_differs.
  ui_unfold. simpl.
  destruct (int_of_float (fraction * 100)%float) as [percent | e]; simpl;
    unfold logged; simpl; rewrite <- ?app_assoc; simpl; repeat split.
Qed.

Lemma update_ui_progress_unarmed
    (current_time fraction : float) (self : ADBTransferApp)
    (Hoff : estimator_armed self = false) :
  update_ui_progress current_time fraction self = show_progress fraction self.
Proof.
  unfold update_ui_progress, show_progress, estimator_armed in *.
  ui_unfold. simpl. rewrite Hoff. reflexivity.
Qed.

Lemma update_ui_progress_too_soon
    (current_time fraction : float) (self : ADBTransferApp)
    (Hsoon : (0.5 <? current_time - last_time self)%float = false) :
  update_ui_progress current_time fraction self = show_progress fraction self.
Proof.
  unfold update_ui_progress, show_progress.
  ui_unfold. simpl. rewrite Hsoon.
  destruct (_ && _); reflexivity.
Qed.

(** C10.  While [total_bytes] is zero (or negative), or while no
    baseline time is set ([last_time > 0] fails), a progress callback
    touches the progress bar only: [last_fraction], [last_time], the
    speed text and every other attribute keep their values; the bar
    receives the fraction, and the percent text when
    [int(fraction * 100)] is defined. *)
Theorem progress_only_while_unarmed
    (current_time fraction : float) (self : ADBTransferApp)
    (Hoff : total_bytes self <= 0 \/ (0 <? last_time self)%float = false) :
  let r := update_ui_progress current_time fraction self in
  only_progress_bar_differs self (snd r)
  /\ progress_bar_shows fraction (fst r) self (snd r).
Proof.
  intros r. subst r.
  rewrite update_ui_progress_unarmed.
  - apply show_progress_spec.
  - unfold estimator_armed. destruct Hoff as [Hz | Ht].
    + apply Z.ltb_ge in Hz. rewrite Hz. reflexivity.
    + rewrite Ht. apply andb_false_r.
Qed.

(** C10 on the application as it starts: the first sample of a transfer
    shows 50% and leaves the empty speed text. *)
Lemma progress_only_while_unarmed_witness :
  total_bytes new_app = 0
  /\ speed_label_text (snd (update_ui_progress 7 0.5 new_app)) = ""
  /\ progress_bar_text (snd (update_ui_progress 7 0.5 new_app)) = "50%".
Proof.
  split; [reflexivity |].
  pose proof (progress_only_while_unarmed 7 0.5 new_app
                (or_introl (Z.le_refl 0))) as [Hframe Hbar].
  split.
  - apply Hframe.
  - vm_compute. reflexivity.
Defined.

(** ** The rate estimator *)

Lemma update_ui_progress_not_sampled
    (current_time fraction : float) (self : ADBTransferApp)
    (Hoff : sampled current_time self = false) :
  update_ui_progress current_time fraction self = show_progress fraction self.
Proof.
  unfold sampled in Hoff. apply andb_false_iff in Hoff.
  destruct Hoff as [H | H].
  - now apply update_ui_progress_unarmed.
  - now apply update_ui_progress_too_soon.
Qed.

(** A sample far enough from the baseline that is not an advance: the
    baseline moves to the sample and no rate is computed. *)
Lemma update_ui_progress_no_advance
    (current_time fraction : float) (self : ADBTransferApp)
    (Hon : sampled current_time self = true)
    (Hback : (0 <=? fraction - last_fraction self)%float = false) :
  update_ui_progress current_time fraction self
  = (set_last_time current_time ;; set_last_fraction fraction ;;
     show_progress fraction)%ui self.
Proof.
  unfold sampled, estimator_armed in Hon. apply andb_prop in Hon.
  destruct Hon as [Harmed Hlate].
  unfold update_ui_progress, show_progress. ui_unfold. simpl.
  rewrite Harmed, Hlate, Hback. reflexivity.
Qed.

(** C1, as the code has it.  A sample whose fraction is below the last
    recorded one never produces a speed: the speed text is not written
    (the only widget calls are those of the progress bar), nothing but
    the baseline and the progress bar changes, and the call returns
    normally whenever [int(fraction * 100)] is defined.  The baseline is
    kept when the estimator is not armed or at most half a second has
    passed; otherwise it moves to [(fraction, current_time)]. *)
Theorem regression_sample_no_speed
    (current_time fraction : float) (self : ADBTransferApp)
    (Hback : (fraction <? last_fraction self)%float = true) :
  let r := update_ui_progress current_time fraction self in
  speed_label_text (snd r) = speed_label_text self
  /\ only_estimator_and_bar_differ self (snd r)
  /\ progress_bar_shows fraction (fst r) self (snd r)
  /\ baseline (snd r)
     = if sampled current_time self then (fraction, current_time)
       else baseline self.
Proof.
  intros r. subst r.
  apply IEEE.sub_lt in Hback.
  destruct (sampled current_time self) eqn:Hs.
  - rewrite update_ui_progress_no_advance by assumption.
    unfold show_progress, progress_bar_shows, only_estimator_and_bar_differ,
      baseline.
    ui_unfold. simpl.
    destruct (int_of_float (fraction * 100)%float) as [percent | e]; simpl;
      unfold logged; simpl; rewrite <- ?app_assoc; simpl; repeat split.
  - rewrite update_ui_progress_not_sampled by assumption.
    destruct (show_progress_spec fraction self) as [Hframe Hbar].
    unfold only_progress_bar_differs in Hframe.
    unfold only_estimator_and_bar_differ, baseline.
    repeat split; try apply Hframe; try apply Hbar.
    destruct Hframe as (_ & -> & -> & _). reflexivity.
Qed.

Lemma float_neq (x y : float) : Prim2SF x <> Prim2SF y -> x <> y.
Proof. intros H E. apply H. now rewrite E. Qed.

(** C1 on the sample [0.25] after the baseline [(0.5, 100)]. *)
Lemma regression_sample_no_speed_witness :
  (0.25 <? last_fraction half_way)%float = true
  /\ speed_label_text (snd (update_ui_progress 101 0.25 half_way))
     = "Calculating..."
  /\ baseline (snd (update_ui_progress 101 0.25 half_way))
     = (0.25%float, 101%float).
Proof.
  split; [reflexivity |].
  pose proof (regression_sample_no_speed 101 0.25 half_way eq_refl)
    as (Hspeed & _ & _ & Hbase).
  split; [exact Hspeed | exact Hbase].
Defined.

(** C1, as stated, fails: one second after the baseline
    [(0.5, 100)] of a 1000-byte transfer, the sample [0.25] is a
    regression, and the baseline becomes [(0.25, 101)].  The sample
    [-inf] (the line [-inf]) is a regression too, and there
    [int(fraction * 100)] raises. *)
Lemma regression_sample_moves_baseline :
  (0.25 <? last_fraction half_way)%float = true
  /\ baseline half_way = (0.5%float, 100%float)
  /\ baseline (snd (update_ui_progress 101 0.25 half_way))
     = (0.25%float, 101%float)
  /\ baseline (snd (update_ui_progress 101 0.25 half_way))
     <> baseline half_way
  /\ (neg_infinity <? last_fraction half_way)%float = true
  /\ fst (update_ui_progress 101 neg_infinity half_way) = Raise OverflowError.
Proof.
  repeat split.
  intros H. apply (f_equal fst) in H. revert H.
  apply float_neq. vm_compute. discriminate.
Qed.

(** *** Rates *)

Lemma update_ui_progress_advance
    (current_time fraction : float) (self : ADBTransferApp)
    (Hon : sampled current_time self = true)
    (Hfwd : (0 <=? fraction - last_fraction self)%float = true) :
  update_ui_progress current_time fraction self
  = ((bytes_delta <- UiMonad.lift
                       (mul_int (fraction - last_fraction self)%float
                                (total_bytes self)) ;;
      speed <- UiMonad.lift
                 (truediv bytes_delta (current_time - last_time self)%float) ;;
      speed_label_set_text (format_speed speed)) ;;
     set_last_time current_time ;; set_last_fraction fraction ;;
     show_progress fraction)%ui self.
Proof.
  unfold sampled, estimator_armed in Hon. apply andb_prop in Hon.
  destruct Hon as [Harmed Hlate].
  unfold update_ui_progress, show_progress. ui_unfold. simpl.
  rewrite Harmed, Hlate, Hfwd.
  destruct (mul_int _ _) as [bytes_delta | e]; [| reflexivity].
  destruct (truediv _ _) as [speed | e]; reflexivity.
Qed.

Lemma Prim2SF_half :
  Prim2SF 0.5 = S754_finite false 4503599627370496 (-53).
Proof. reflexivity. Qed.

(** More than half a second: a positive number or [+inf], never zero. *)
Lemma late_nonzero (time_delta : float) :
  (0.5 <? time_delta)%float = true ->
  nonzero_as false (Prim2SF time_delta).
Proof.
  rewrite ltb_spec, Prim2SF_half. unfold SFltb.
  destruct (Prim2SF time_delta) as [s | s | | s m e]; simpl;
    try discriminate; destruct s; try discriminate; reflexivity.
Qed.

Lemma truediv_late (bytes_delta time_delta : float) :
  (0.5 <? time_delta)%float = true ->
  truediv bytes_delta time_delta = Ok (bytes_delta / time_delta)%float.
Proof.
  intros H. apply late_nonzero in H. unfold truediv.
  rewrite eqb_spec, IEEE.Prim2SF_zero.
  destruct (Prim2SF time_delta) as [s | s | | s m e]; simpl in *;
    try contradiction; subst; reflexivity.
Qed.

Lemma float_of_int_signed (n : Z) (total : float) :
  0 < n -> float_of_int n = Ok total ->
  signed_as false (Prim2SF total).
Proof.
  intros Hn. unfold float_of_int.
  pose proof (IEEE.binary_normalize_sign n 0 ltac:(cbv; discriminate)) as Hs.
  replace (n ?= 0) with Gt in Hs by (symmetry; apply Z.compare_gt_iff; lia).
  destruct (binary_normalize prec emax n 0 false) as [s | s | | s m e];
    simpl in Hs; try contradiction; try discriminate.
  subst s. intros H. injection H as <-.
  apply IEEE.SF2Prim_finite_signed.
Qed.

(** The rate of an advance is never below zero. *)
Lemma sample_speed_not_negative
    (current_time fraction : float) (self : ADBTransferApp) (total : float) :
  (0 <=? fraction - last_fraction self)%float = true ->
  0 < total_bytes self ->
  float_of_int (total_bytes self) = Ok total ->
  (0.5 <? current_time - last_time self)%float = true ->
  (sample_speed current_time fraction self total <? 0)%float = false.
Proof.
  intros Hfwd Hpos Htotal Hlate. unfold sample_speed.
  rewrite ltb_spec, div_spec, mul_spec, IEEE.Prim2SF_zero.
  apply IEEE.SFdiv_not_neg; [| now apply late_nonzero].
  apply IEEE.SFmul_not_neg.
  - now rewrite leb_spec, IEEE.Prim2SF_zero in Hfwd.
  - now apply float_of_int_signed with (n := total_bytes self).
Qed.

Lemma show_progress_calls (fraction : float) (a : ADBTransferApp) :
  exists calls,
    gtk_log (snd (show_progress fraction a)) = (gtk_log a ++ calls)%list
    /\ bar_calls calls
    /\ (fst (show_progress fraction a) = Ok tt
        \/ fst (show_progress fraction a) = Raise ValueError
        \/ fst (show_progress fraction a) = Raise OverflowError).
Proof.
  destruct (show_progress_spec fraction a) as [_ [_ H]].
  unfold int_of_float in H.
  destruct (Prim2SF (fraction * 100)%float) as [s | s | | s m e];
    destruct H as (-> & _ & ->); eexists; (split; [reflexivity |]);
    (split; [intros text [H | H]; try discriminate; simpl in H;
             try contradiction; destruct H as [H | H];
             try discriminate; contradiction
            | auto]).
Qed.

(** Every progress update either writes no speed, or writes the rate of
    an advance sampled by an armed estimator; it never raises
    [ZeroDivisionError]. *)
Lemma update_ui_progress_cases
    (current_time fraction : float) (self : ADBTransferApp) :
  let r := update_ui_progress current_time fraction self in
  fst r <> Raise ZeroDivisionError
  /\ ((exists calls,
          gtk_log (snd r) = (gtk_log self ++ calls)%list /\ bar_calls calls)
      \/ (exists total calls,
            sampled current_time self = true
            /\ (0 <=? fraction - last_fraction self)%float = true
            /\ float_of_int (total_bytes self) = Ok total
            /\ gtk_log (snd r)
               = (gtk_log self
                    ++ Speed_set_text
                         (format_speed
                            (sample_speed current_time fraction self total))
                    :: calls)%list
            /\ bar_calls calls)).
Proof.
  intros r. subst r.
  destruct (sampled current_time self) eqn:Hs.
  2:{ rewrite update_ui_progress_not_sampled by assumption.
      destruct (show_progress_calls fraction self) as (calls & Hlog & Hbar & Hr).
      split.
      - destruct Hr as [-> | [-> | ->]]; discriminate.
      - left. now exists calls. }
  destruct (0 <=? fraction - last_fraction self)%float eqn:Hfwd.
  2:{ rewrite update_ui_progress_no_advance by assumption.
      ui_unfold. simpl.
      match goal with
      | |- context [show_progress fraction ?a] =>
          destruct (show_progress_calls fraction a) as (calls & Hlog & Hbar & Hr)
      end.
      simpl in Hlog. split.
      - destruct Hr as [-> | [-> | ->]]; discriminate.
      - left. now exists calls. }
  rewrite update_ui_progress_advance by assumption.
  assert (Hlate : (0.5 <? current_time - last_time self)%float = true).
  { unfold sampled in Hs. now apply andb_prop in Hs. }
  unfold mul_int. ui_unfold.
  destruct (float_of_int (total_bytes self)) as [total | e] eqn:Htotal.
  - simpl Py.bind. cbv beta iota. rewrite truediv_late by assumption.
    cbv beta iota. simpl.
    match goal with
    | |- context [show_progress fraction ?a] =>
        destruct (show_progress_calls fraction a) as (calls & Hlog & Hbar & Hr)
    end.
    simpl in Hlog. unfold logged in Hlog. rewrite <- app_assoc in Hlog. split.
    + destruct Hr as [-> | [-> | ->]]; discriminate.
    + right. exists total, calls. repeat split; try assumption.
  - simpl. split.
    + unfold float_of_int in Htotal.
      destruct (binary_normalize prec emax (total_bytes self) 0 false);
        try discriminate.
      injection Htotal as <-. discriminate.
    + left. exists []. split.
      * now rewrite app_nil_r.
      * intros text [].
Qed.

(** *** Units of [format_speed] *)

Lemma mega_not_below_kilo (v : float) :
  (1048576 <=? v)%float = true -> (v <? 1024)%float = false.
Proof.
  rewrite leb_spec, ltb_spec.
  change (Prim2SF 1048576) with (S754_finite false 4503599627370496 (-32)).
  change (Prim2SF 1024) with (S754_finite false 4503599627370496 (-42)).
  generalize 4503599627370496%positive. intros k.
  unfold SFleb, SFltb.
  destruct (Prim2SF v) as [s | s | | s m e]; unfold SFcompare;
    try congruence; try (destruct s; congruence).
  destruct s; [congruence |].
  destruct (Z.compare_spec (-32) e); destruct (Z.compare_spec e (-42));
    try lia; congruence.
Qed.

(** The three ranges of [format_speed]: below 1024 bytes per second
    with no decimal, from 1024 up to 1024² in KB with one decimal, from
    1024² on in MB with one decimal. *)
Lemma format_speed_units (v : float) :
  ((v <? 1024)%float = true -> format_speed v = format_f 0 v ++ " B/s")
  /\ ((1024 <=? v)%float = true -> (v <? 1048576)%float = true ->
      format_speed v = format_f 1 (v / 1024)%float ++ " KB/s")
  /\ ((1048576 <=? v)%float = true ->
      format_speed v = format_f 1 (v / 1048576)%float ++ " MB/s").
Proof.
  unfold format_speed. repeat split.
  - intros ->. reflexivity.
  - intros H1 H2. apply IEEE.leb_not_ltb in H1. now rewrite H1, H2.
  - intros H. rewrite (mega_not_below_kilo v H).
    apply IEEE.leb_not_ltb in H. now rewrite H.
Qed.

Lemma sampled_armed (current_time : float) (self : ADBTransferApp) :
  sampled current_time self = true ->
  0 < total_bytes self
  /\ (0 <? last_time self)%float = true
  /\ (0.5 <? current_time - last_time self)%float = true.
Proof.
  unfold sampled, estimator_armed. intros H.
  apply andb_prop in H. destruct H as [H1 H2].
  apply andb_prop in H1. destruct H1 as [H0 H1].
  apply Z.ltb_lt in H0. auto.
Qed.

(** C7, as the code has it.  When the estimator is armed
    ([total_bytes > 0], [last_time > 0]), more than half a second has
    passed and the fraction is not below the last one (both finite), the
    speed is [(fraction - last_fraction) * total_bytes / elapsed] in
    float arithmetic -- [total_bytes] being small enough to be a float
    --, it is not negative, it is written to the speed label through
    [format_speed], and the baseline becomes [(fraction, current_time)].
    [format_speed] prints bytes per second with no decimal below 1024,
    KB with one decimal from 1024 up to 1024², MB with one decimal from
    1024² on. *)
Theorem advance_sample_speed
    (current_time fraction : float) (self : ADBTransferApp) (total : float)
    (Hpos : 0 < total_bytes self)
    (Hbase : (0 <? last_time self)%float = true)
    (Hlate : (0.5 <? current_time - last_time self)%float = true)
    (Hmono : (last_fraction self <=? fraction)%float = true)
    (Hfin : isfinite fraction = true)
    (Hlast : isfinite (last_fraction self) = true)
    (Htotal : float_of_int (total_bytes self) = Ok total) :
  let speed := sample_speed current_time fraction self total in
  let r := update_ui_progress current_time fraction self in
  (speed <? 0)%float = false
  /\ speed_label_text (snd r) = format_speed speed
  /\ baseline (snd r) = (fraction, current_time)
  /\ (exists calls,
        gtk_log (snd r)
        = (gtk_log self ++ Speed_set_text (format_speed speed) :: calls)%list
        /\ bar_calls calls)
  /\ ((speed <? 1024)%float = true ->
      format_speed speed = format_f 0 speed ++ " B/s")
  /\ ((1024 <=? speed)%float = true -> (speed <? 1048576)%float = true ->
      format_speed speed = format_f 1 (speed / 1024)%float ++ " KB/s")
  /\ ((1048576 <=? speed)%float = true ->
      format_speed speed = format_f 1 (speed / 1048576)%float ++ " MB/s").
Proof.
  intros speed r.
  assert (Hfwd : (0 <=? fraction - last_fraction self)%float = true)
    by (apply IEEE.sub_ge; assumption).
  assert (Hon : sampled current_time self = true).
  { unfold sampled, estimator_armed.
    apply Z.ltb_lt in Hpos. now rewrite Hpos, Hbase, Hlate. }
  split; [now apply sample_speed_not_negative |].
  assert (Hr : r = (set_last_time current_time ;; set_last_fraction fraction ;;
                    show_progress fraction)%ui
                 (snd (speed_label_set_text (format_speed speed) self))).
  { subst r. rewrite update_ui_progress_advance by assumption.
    unfold mul_int. ui_unfold. rewrite Htotal. simpl Py.bind. cbv beta iota.
    rewrite truediv_late by assumption. reflexivity. }
  rewrite Hr. ui_unfold. simpl.
  match goal with
  | |- context [show_progress fraction ?a] =>
      destruct (show_progress_calls fraction a) as (calls & Hlog & Hbar & _);
      destruct (show_progress_spec fraction a) as [Hframe _]
  end.
  destruct Hframe as (_ & Hlf & Hlt & _ & _ & _ & _ & Hsp & _).
  simpl in Hlf, Hlt, Hsp, Hlog. unfold logged in Hlog.
  rewrite <- app_assoc in Hlog.
  split; [exact Hsp |].
  split; [unfold baseline; now rewrite Hlf, Hlt |].
  split; [now exists calls |].
  apply format_speed_units.
Qed.

(** C7 on the sample [0.75] one second after the baseline [(0.5, 100)]
    of 1000 bytes: 250 bytes per second. *)
Lemma advance_sample_speed_witness :
  speed_label_text (snd (update_ui_progress 101 0.75 half_way)) = "250 B/s"
  /\ baseline (snd (update_ui_progress 101 0.75 half_way))
     = (0.75%float, 101%float).
Proof.
  pose proof (advance_sample_speed 101 0.75 half_way 1000
                eq_refl eq_refl eq_refl eq_refl eq_refl eq_refl eq_refl)
    as (_ & Hspeed & Hbase & _).
  split; [exact Hspeed | exact Hbase].
Defined.

(** C7, as stated, fails: with [total_bytes = 0] the sample [0.75]
    taken one second after the baseline [(0.5, 100)] is monotonic and
    time-spaced, yet no speed is written and the baseline stays.  It
    also fails outside the finite numbers: the sample [inf] after the
    baseline fraction [inf] is not below it, and no speed is written
    ([inf - inf] is not a number); and with [total_bytes = 2 ** 1024]
    the product raises before anything is written. *)
Lemma advance_without_total_keeps_baseline :
  (last_fraction half_way_unsized <=? 0.75)%float = true
  /\ (0.5 <? 101 - last_time half_way_unsized)%float = true
  /\ speed_label_text (snd (update_ui_progress 101 0.75 half_way_unsized))
     = "Calculating..."
  /\ gtk_log (snd (update_ui_progress 101 0.75 half_way_unsized))
     = [Progress_set_fraction 0.75; Progress_set_text "75%"]
  /\ baseline (snd (update_ui_progress 101 0.75 half_way_unsized))
     = (0.5%float, 100%float)
  /\ baseline (snd (update_ui_progress 101 0.75 half_way_unsized))
     <> (0.75%float, 101%float)
  /\ (last_fraction half_way_infinite <=? infinity)%float = true
  /\ speed_label_text (snd (update_ui_progress 101 infinity half_way_infinite))
     = "Calculating..."
  /\ (last_fraction half_way_huge <=? 0.75)%float = true
  /\ update_ui_progress 101 0.75 half_way_huge
     = (Raise OverflowError, half_way_huge).
Proof.
  repeat split.
  intros H. apply (f_equal fst) in H. revert H.
  apply float_neq. vm_compute. discriminate.
Qed.

(** *** Transfers of unknown size *)

Lemma run_task_keeps_total (now : float) (t : task) (self : ADBTransferApp) :
  total_bytes (snd (run_task now t self)) = total_bytes self.
Proof.
  destruct t as [fraction | success error_msg | text]; simpl.
  - destruct (update_ui_progress_cases now fraction self) as [_ _].
    destruct (sampled now self) eqn:Hs.
    + destruct (0 <=? fraction - last_fraction self)%float eqn:Hfwd.
      * rewrite update_ui_progress_advance by assumption.
        unfold mul_int. ui_unfold.
        destruct (float_of_int (total_bytes self)) as [total | e];
          [| reflexivity].
        simpl Py.bind. cbv beta iota.
        destruct (truediv _ _) as [speed | e]; [| reflexivity].
        simpl.
        match goal with
        | |- context [show_progress fraction ?a] =>
            destruct (show_progress_spec fraction a) as [Hframe _]
        end.
        destruct Hframe as (-> & _). reflexivity.
      * rewrite update_ui_progress_no_advance by assumption.
        ui_unfold. simpl.
        match goal with
        | |- context [show_progress fraction ?a] =>
            destruct (show_progress_spec fraction a) as [Hframe _]
        end.
        destruct Hframe as (-> & _). reflexivity.
    + rewrite update_ui_progress_not_sampled by assumption.
      destruct (show_progress_spec fraction self) as [Hframe _].
      destruct Hframe as (-> & _). reflexivity.
  - unfold on_transfer_finished. ui_unfold. destruct success; reflexivity.
  - reflexivity.
Qed.

Lemma run_task_unsized_keeps_speed
    (now : float) (t : task) (self : ADBTransferApp) :
  total_bytes self = 0 ->
  speed_label_text (snd (run_task now t self)) = speed_label_text self.
Proof.
  intros Hz. destruct t as [fraction | success error_msg | text]; simpl.
  - rewrite update_ui_progress_unarmed
      by (unfold estimator_armed; now rewrite Hz).
    destruct (show_progress_spec fraction self) as [Hframe _].
    apply Hframe.
  - unfold on_transfer_finished. ui_unfold. destruct success; reflexivity.
  - reflexivity.
Qed.

Lemma main_loop_unsized_keeps_speed
    (queue : list (float * task)) :
  forall self, total_bytes self = 0 ->
    speed_label_text (main_loop queue self) = speed_label_text self.
Proof.
  induction queue as [| [now t] rest IH]; intros self Hz; simpl.
  - reflexivity.
  - rewrite IH by (now rewrite run_task_keeps_total).
    now apply run_task_unsized_keeps_speed.
Qed.

Lemma on_start_speed_text (now : float) (self : ADBTransferApp) :
  strip (path_entry_text self) <> "" ->
  speed_label_text (snd (on_start now self)) = "Calculating...".
Proof.
  intros H. unfold on_start. ui_unfold.
  destruct (strip (path_entry_text self)); [contradiction | reflexivity].
Qed.

(** C4.  With [total_bytes = 0] a progress update computes no rate: it
    does not divide (no [ZeroDivisionError]), writes no speed -- the
    only widget calls are those of the progress bar -- and leaves the
    speed text as it was, through any sequence of queued calls; that
    text is the ["Calculating..."] a start request wrote.  Whatever the
    state and the sample, an update never raises [ZeroDivisionError],
    and a speed it writes is [format_speed] of a rate that is not below
    zero. *)
Theorem unsized_rate_indeterminate :
  (forall current_time fraction self,
      total_bytes self = 0 ->
      let r := update_ui_progress current_time fraction self in
      fst r <> Raise ZeroDivisionError
      /\ speed_label_text (snd r) = speed_label_text self
      /\ exists calls,
           gtk_log (snd r) = (gtk_log self ++ calls)%list /\ bar_calls calls)
  /\ (forall queue self,
        total_bytes self = 0 ->
        speed_label_text (main_loop queue self) = speed_label_text self)
  /\ (forall now self,
        strip (path_entry_text self) <> "" ->
        speed_label_text (snd (on_start now self)) = "Calculating...")
  /\ (forall current_time fraction self,
        let r := update_ui_progress current_time fraction self in
        fst r <> Raise ZeroDivisionError
        /\ forall calls text,
             gtk_log (snd r) = (gtk_log self ++ calls)%list ->
             In (Speed_set_text text) calls ->
             exists speed,
               text = format_speed speed /\ (speed <? 0)%float = false).
Proof.
  split; [| split; [| split]].
  - intros current_time fraction self Hz r. subst r.
    rewrite update_ui_progress_unarmed
      by (unfold estimator_armed; now rewrite Hz).
    destruct (show_progress_calls fraction self) as (calls & Hlog & Hbar & Hr).
    destruct (show_progress_spec fraction self) as [Hframe _].
    split; [destruct Hr as [-> | [-> | ->]]; discriminate |].
    split; [apply Hframe | now exists calls].
  - intros queue self. apply main_loop_unsized_keeps_speed.
  - apply on_start_speed_text.
  - intros current_time fraction self r.
    destruct (update_ui_progress_cases current_time fraction self)
      as [Hdiv Hcases].
    fold r in Hdiv, Hcases. split; [exact Hdiv |].
    intros calls text Hlog Hin.
    destruct Hcases as [(calls0 & Hlog0 & Hbar)
                       | (total & calls0 & Hon & Hfwd & Htotal & Hlog0 & Hbar)];
      rewrite Hlog in Hlog0; apply app_inv_head in Hlog0; subst calls.
    + now apply Hbar in Hin.
    + destruct Hin as [Heq | Hin]; [| now apply Hbar in Hin].
      injection Heq as <-.
      destruct (sampled_armed _ _ Hon) as (Hpos & _ & Hlate).
      eexists. split; [reflexivity |].
      now apply sample_speed_not_negative.
Qed.

(** C4 on a transfer of unknown size. *)
Lemma unsized_rate_indeterminate_witness :
  total_bytes half_way_unsized = 0
  /\ fst (update_ui_progress 101 0.75 half_way_unsized)
     <> Raise ZeroDivisionError
  /\ speed_label_text (snd (update_ui_progress 101 0.75 half_way_unsized))
     = "Calculating...".
Proof.
  split; [reflexivity |].
  destruct unsized_rate_indeterminate as (Hzero & _).
  destruct (Hzero 101%float 0.75%float half_way_unsized eq_refl)
    as (Hdiv & Hspeed & _).
  split; [exact Hdiv | exact Hspeed].
Defined.

(** ** The diagnostic stream *)

Lemma float_of_str_raises (s : string) (e : exn) :
  float_of_str s = Raise e -> e = ValueError.
Proof.
  unfold float_of_str, parse_floatnumber.
  destruct (opt_sign (strip_num s)) as [neg body].
  destruct (_ || _); [discriminate |].
  destruct (String.eqb _ "nan"); [discriminate |].
  destruct (opt_digitpart body 0 0) as [[ip ni] s1].
  destruct (match s1 with String "." s1' => _ | _ => _ end) as [[m nd] s2].
  destruct (opt_exponent s2) as [ex rest].
  destruct (_ && _); [discriminate |].
  intros H. now injection H as <-.
Qed.

Section Reader.

Variable update_callback : float -> task.
Variable finished_callback : bool -> string -> task.

Lemma read_loop_spec (steps : list read_step) :
  forall captured_errors,
    read_loop update_callback steps captured_errors
    = (queued update_callback (progress_samples (lines_read steps)),
       match exit_status steps with
       | Some rc =>
           Returned ((captured_errors ++ diagnostic_log (lines_read steps))%list,
                     Some rc)
       | None =>
           match read_error steps with
           | Some e => Raised e
           | None => Pending
           end
       end).
Proof.
  induction steps as [| step rest IH]; intros captured_errors.
  - reflexivity.
  - simpl read_loop. simpl lines_read. simpl exit_status. simpl read_error.
    unfold stream_ended, failed_read, truthy.
    destruct (line step) as [data | e]; [| reflexivity].
    rewrite negb_involutive. simpl is_some at 2.
    destruct (is_empty data) eqn:Hline; simpl negb; cbv iota.
    + destruct (poll step) as [rc |] eqn:Hpoll; simpl.
      * rewrite app_nil_r. reflexivity.
      * apply IH.
    + simpl andb. cbv iota.
      unfold progress_samples, diagnostic_log. simpl flat_map.
      unfold progress_sample at 1, diagnostic at 1.
      destruct (float_of_str (strip data)) as [percent | e] eqn:Hf.
      * unfold BgMonad.bind, BgMonad.emit. rewrite IH. simpl.
        fold (progress_samples (lines_read rest)).
        fold (diagnostic_log (lines_read rest)).
        destruct (exit_status rest); [reflexivity |].
        destruct (read_error rest); reflexivity.
      * rewrite (float_of_str_raises _ _ Hf).
        fold (progress_samples (lines_read rest)).
        fold (diagnostic_log (lines_read rest)).
        unfold truthy.
        destruct (is_empty (strip data)); simpl negb; cbv iota;
          rewrite IH; simpl app at 1.
        -- reflexivity.
        -- rewrite <- app_assoc. reflexivity.
Qed.

Lemma read_stderr_spec (steps : list read_step) :
  read_stderr update_callback finished_callback steps
  = match exit_status steps with
    | Some rc =>
        let '(success, error_msg) :=
          transfer_outcome rc (diagnostic_log (lines_read steps)) in
        ((queued update_callback (progress_samples (lines_read steps))
            ++ [Idle_add (finished_callback success error_msg)])%list,
         Returned tt)
    | None =>
        (queued update_callback (progress_samples (lines_read steps)),
         match read_error steps with
         | Some e => Raised e
         | None => Pending
         end)
    end.
Proof.
  unfold read_stderr. rewrite read_loop_spec.
  destruct (exit_status steps) as [rc |]; simpl.
  - destruct (rc =? 0); reflexivity.
  - destruct (read_error steps); reflexivity.
Qed.

End Reader.

Lemma flat_map_app_distr {A B : Type} (f : A -> list B) (a b : list A) :
  flat_map f (a ++ b) = (flat_map f a ++ flat_map f b)%list.
Proof.
  induction a as [| x a IH]; simpl; [reflexivity |].
  now rewrite IH, app_assoc.
Qed.

(** C2, as the code has it.  Every line read from the diagnostic stream
    is trimmed; when the trimmed text is a number -- any number: there
    is no range check -- the number over 100 is queued for the progress
    callback, in stream order; otherwise the trimmed text is appended
    to the log unless it is empty.  Nothing else is queued or logged by
    the loop. *)
Theorem stream_lines_classified :
  (forall update_callback steps captured_errors,
      events (read_loop update_callback steps captured_errors)
      = queued update_callback (progress_samples (lines_read steps))
      /\ forall log rc,
           outcome (read_loop update_callback steps captured_errors)
           = Returned (log, rc) ->
           log = (captured_errors ++ diagnostic_log (lines_read steps))%list)
  /\ (forall l percent,
        float_of_str (strip l) = Ok percent ->
        progress_samples [l] = [(percent / 100)%float]
        /\ diagnostic_log [l] = [])
  /\ (forall l e,
        float_of_str (strip l) = Raise e ->
        progress_samples [l] = []
        /\ diagnostic_log [l] = if truthy (strip l) then [strip l] else [])
  /\ (forall a b,
        progress_samples (a ++ b)
        = (progress_samples a ++ progress_samples b)%list
        /\ diagnostic_log (a ++ b)
           = (diagnostic_log a ++ diagnostic_log b)%list).
Proof.
  split; [| split; [| split]].
  - intros update_callback steps captured_errors.
    rewrite read_loop_spec. unfold events, outcome. simpl. split.
    + reflexivity.
    + intros log rc H.
      destruct (exit_status steps);
        [| destruct (read_error steps); discriminate].
      now injection H as <- _.
  - intros l percent H. unfold progress_samples, diagnostic_log. simpl.
    unfold progress_sample, diagnostic. now rewrite H.
  - intros l e H. unfold progress_samples, diagnostic_log. simpl.
    unfold progress_sample, diagnostic. rewrite H.
    destruct (truthy (strip l)); now rewrite ?app_nil_r.
  - intros a b. unfold progress_samples, diagnostic_log.
    now rewrite !flat_map_app_distr.
Qed.

(** C2, as stated, fails: the line [150] is a number outside [0, 100];
    it is forwarded as the sample [1.5], above 1, and is not logged (the
    failure message of the run is empty). *)
Lemma out_of_range_percentage_forwarded :
  read_stderr Update_ui_progress On_transfer_finished [reads "150"; ends 1]
  = ([Idle_add (Update_ui_progress 1.5);
      Idle_add (On_transfer_finished false "")],
     Returned tt)
  /\ float_of_str "150" = Ok 150%float
  /\ (100 <? 150)%float = true
  /\ (1 <? 1.5)%float = true.
Proof. repeat split. Qed.

(** C2 on the stream of the specification: three samples, one logged
    line. *)
Lemma stream_lines_classified_witness :
  events (read_loop Update_ui_progress
            [reads "0.0"; reads "12.5"; reads "some error text";
             reads "100.0"; ends 1] [])
  = [Idle_add (Update_ui_progress 0); Idle_add (Update_ui_progress 0.125);
     Idle_add (Update_ui_progress 1)]
  /\ diagnostic_log ["some error text" ++ newline] = ["some error text"].
Proof.
  destruct stream_lines_classified as (Hloop & _ & Htext & _).
  split.
  - destruct (Hloop Update_ui_progress
                [reads "0.0"; reads "12.5"; reads "some error text";
                 reads "100.0"; ends 1] []) as [Hevents _].
    exact Hevents.
  - destruct (Htext ("some error text" ++ newline) ValueError eq_refl)
      as [_ Hlog].
    exact Hlog.
Defined.

(** *** The outcome of a run *)

Lemma idle_tasks_app (a b : list event) :
  idle_tasks (a ++ b) = (idle_tasks a ++ idle_tasks b)%list.
Proof.
  induction a as [| e a IH]; simpl; [reflexivity |].
  destruct e; simpl; now rewrite ?IH.
Qed.

Lemma idle_tasks_queued (update_callback : float -> task) (samples : list float) :
  idle_tasks (queued update_callback samples) = map update_callback samples.
Proof.
  induction samples as [| x samples IH]; simpl; [reflexivity |].
  now rewrite IH.
Qed.

Lemma no_outcome_among_progress (samples : list float) :
  filter is_finished (map Update_ui_progress samples) = [].
Proof. induction samples as [| x samples IH]; simpl; auto. Qed.

(** X24.  A run of the pipeline is read to its end when a read finds
    the stream closed and the process ended with some exit code [rc],
    every read before it having returned.  The reader thread then
    returns, and it has queued, after the progress samples, exactly one
    call of the completion callback: [success] is [rc == 0], and the
    text is the log joined by line feeds when [success] is false, the
    empty string when it is true.  Otherwise -- the stream has not
    ended, or a read has failed -- no completion is queued, and the
    thread is still reading or has ended with the exception of the
    read. *)
Theorem exactly_one_outcome (w : world) (cmd_list : string) :
  let run := run_adb_command_with_progress
               Update_ui_progress On_transfer_finished w cmd_list in
  let lines := lines_read (popen w cmd_list) in
  (outcome run = Returned tt
   <-> exists rc, exit_status (popen w cmd_list) = Some rc)
  /\ (forall rc,
        exit_status (popen w cmd_list) = Some rc ->
        idle_tasks (events run)
        = (map Update_ui_progress (progress_samples lines)
             ++ [On_transfer_finished
                   (rc =? 0)
                   (if rc =? 0 then "" else join newline (diagnostic_log lines))])%list
        /\ List.length (filter is_finished (idle_tasks (events run))) = 1%nat)
  /\ (exit_status (popen w cmd_list) = None ->
      filter is_finished (idle_tasks (events run)) = []
      /\ outcome run
         = match read_error (popen w cmd_list) with
           | Some e => Raised e
           | None => Pending
           end).
Proof.
  intros run lines. subst run lines.
  unfold run_adb_command_with_progress, BgMonad.bind, BgMonad.emit.
  rewrite read_stderr_spec. unfold transfer_outcome.
  destruct (exit_status (popen w cmd_list)) as [rc |]; unfold events, outcome;
    simpl.
  - split; [split; [intros _; now exists rc | reflexivity] |].
    split; [| discriminate].
    intros rc' H. injection H as <-.
    rewrite idle_tasks_app, idle_tasks_queued. simpl. split; [reflexivity |].
    rewrite filter_app, no_outcome_among_progress. reflexivity.
  - split.
    { split; [destruct (read_error (popen w cmd_list)); discriminate
             | intros [rc H]; discriminate]. }
    split; [discriminate |].
    intros _. split; [| reflexivity].
    rewrite idle_tasks_queued. apply no_outcome_among_progress.
Qed.

(** X24 on the failing run of the specification. *)
Lemma exactly_one_outcome_witness :
  exit_status (popen denied "cmd") = Some 1
  /\ idle_tasks
       (events (run_adb_command_with_progress
                  Update_ui_progress On_transfer_finished denied "cmd"))
     = [On_transfer_finished false
          ("permission denied" ++ newline ++ "abort")].
Proof.
  split; [reflexivity |].
  destruct (exactly_one_outcome denied "cmd") as (_ & Hdone & _).
  destruct (Hdone 1 eq_refl) as [Htasks _].
  exact Htasks.
Defined.

(** C3, on a pipeline whose diagnostic stream is not text.  The
    pipeline writes the sample [50] and then a line with a byte that
    cannot be decoded, and exits with code 1.  The read of that line
    raises [UnicodeDecodeError] outside the [try] of the loop: the
    reader thread ends with the exception after the one sample, and no
    call of the completion callback is queued for the run, though the
    process has ended. *)
Theorem garbled_stream_no_outcome :
  let run := run_adb_command_with_progress
               Update_ui_progress On_transfer_finished garbled_stream "cmd" in
  map poll (popen garbled_stream "cmd") = [None; Some 1; Some 1]
  /\ run = ([Popen_shell "cmd"; Idle_add (Update_ui_progress 0.5)],
            Raised UnicodeDecodeError)
  /\ filter is_finished (idle_tasks (events run)) = [].
Proof. repeat split. Qed.

(** ** The workflow *)

Lemma check_adb_device_spec (w : world) :
  check_adb_device w = ([probe], Returned (device_present w)).
Proof.
  unfold check_adb_device, device_present, probe. bg_unfold. simpl.
  destruct (run_process w ["adb"; "get-state"]) as [res | e];
    [| reflexivity].
  destruct (returncode res =? 0); reflexivity.
Qed.

(** A push, step by step. *)
Lemma prepare_and_run_push (w : world) (local_path : string) :
  _prepare_and_run w false local_path
  = if negb (device_present w) then
      ([probe;
        Idle_add (Status_label_set_text "Device Error");
        Idle_add (On_transfer_finished false
                    "ADB Device not connected or unauthorized")],
       Returned tt)
    else if negb (path_found w local_path) then
      ([probe; Os_path_exists local_path;
        Idle_add (On_transfer_finished false "Local path does not exist")],
       Returned tt)
    else
      match run_process w remote_mkdir with
      | Raise e =>
          ([probe; Os_path_exists local_path; Subprocess_run remote_mkdir],
           Raised e)
      | Ok _ =>
          let size_bytes := get_local_size (local_fs w) local_path in
          let cmd := push_cmd local_path size_bytes in
          let reader :=
            read_stderr Update_ui_progress On_transfer_finished (popen w cmd) in
          (([probe; Os_path_exists local_path; Subprocess_run remote_mkdir;
             Os_walk local_path; Store_total_bytes size_bytes;
             Idle_add (Status_label_set_text "Transferring...");
             Popen_shell cmd] ++ events reader)%list,
           outcome reader)
      end.
Proof.
  unfold _prepare_and_run. rewrite check_adb_device_spec.
  unfold os_path_exists, subprocess_run, run_adb_command_with_progress,
    path_found, remote_mkdir.
  bg_unfold.
  destruct (device_present w); simpl; [| reflexivity].
  destruct (match local_fs w local_path with
            | Some n => is_some (os_stat n)
            | None => false
            end); simpl; [| reflexivity].
  destruct (run_process w _) as [res | e]; simpl; try reflexivity;
    destruct (read_stderr _ _ _) as [evs st]; reflexivity.
Qed.

(** C5, as the code has it.  An empty local path is rejected by
    [on_start] itself: no thread is started, so no process is launched,
    and only a toast is added.  A push from a path that does not exist
    is found out later, on the background thread and after the device
    probe [adb get-state] has run: if the device is there, the thread
    checks the path and queues [on_transfer_finished(False, "Local path
    does not exist")]; nothing else is launched or computed -- no remote
    [mkdir], no size walk, no pipeline -- and [total_bytes] is not
    assigned.  In every push the size walk comes after the existence
    check. *)
Theorem push_validation_after_probe :
  (forall now self,
      strip (path_entry_text self) = "" ->
      on_start now self = (Ok None, toasted "Please select a local path." self))
  /\ (forall w local_path,
        path_found w local_path = false ->
        let run := _prepare_and_run w false local_path in
        outcome run = Returned tt
        /\ (device_present w = true ->
            events run
            = [probe; Os_path_exists local_path;
               Idle_add (On_transfer_finished false "Local path does not exist")])
        /\ (device_present w = false ->
            events run
            = [probe;
               Idle_add (Status_label_set_text "Device Error");
               Idle_add (On_transfer_finished false
                           "ADB Device not connected or unauthorized")]))
  /\ (forall w local_path path,
        In (Os_walk path) (events (_prepare_and_run w false local_path)) ->
        exists rest,
          events (_prepare_and_run w false local_path)
          = ([probe; Os_path_exists local_path; Subprocess_run remote_mkdir;
              Os_walk local_path] ++ rest)%list).
Proof.
  split; [| split].
  - intros now self Hempty. unfold on_start. ui_unfold.
    rewrite Hempty. reflexivity.
  - intros w local_path Hmissing run. subst run.
    rewrite prepare_and_run_push, Hmissing.
    destruct (device_present w); simpl; repeat split; discriminate.
  - intros w local_path path. rewrite prepare_and_run_push.
    destruct (device_present w); simpl negb; cbv iota.
    2:{ unfold events. simpl.
        intros [H | [H | [H | []]]]; discriminate. }
    destruct (path_found w local_path); simpl negb; cbv iota.
    2:{ unfold events. simpl.
        intros [H | [H | [H | []]]]; discriminate. }
    destruct (run_process w remote_mkdir) as [res | e].
    2:{ unfold events. simpl.
        intros [H | [H | [H | []]]]; discriminate. }
    intros _. eexists. unfold events at 1. simpl. reflexivity.
Qed.

(** C5 on a push from a path that does not exist, device attached. *)
Lemma push_validation_after_probe_witness :
  path_found device_only "/missing" = false
  /\ events (_prepare_and_run device_only false "/missing")
     = [probe; Os_path_exists "/missing";
        Idle_add (On_transfer_finished false "Local path does not exist")].
Proof.
  split; [reflexivity |].
  destruct push_validation_after_probe as (_ & Hpush & _).
  destruct (Hpush device_only "/missing" eq_refl) as (_ & Hevents & _).
  exact (Hevents eq_refl).
Defined.

(** C5, as stated, fails for a push from a missing path: the start
    request is accepted (the button is disabled and a thread is
    started), and the thread launches [adb get-state] before it checks
    the path; the failure is reported by a call queued for the main
    loop. *)
Lemma push_missing_path_probes_device :
  fst (on_start 5 push_missing_app) = Ok (Some (false, "/missing"))
  /\ start_btn_sensitive (snd (on_start 5 push_missing_app)) = false
  /\ status_label_text (snd (on_start 5 push_missing_app)) = "Initializing..."
  /\ path_found device_only "/missing" = false
  /\ started_thread device_only 5 push_missing_app
     = [Subprocess_run ["adb"; "get-state"];
        Os_path_exists "/missing";
        Idle_add (On_transfer_finished false "Local path does not exist")].
Proof. repeat split. Qed.

(** *** The pipeline launched *)

Lemma get_remote_size_spec (w : world) (remote_path : string) :
  exists size_bytes,
    get_remote_size w remote_path
    = ([Subprocess_run ["adb"; "shell"; "du"; "-s"; "-b"; remote_path]],
       Returned size_bytes).
Proof. unfold get_remote_size. bg_unfold. simpl. eexists. reflexivity. Qed.

(** A pull, step by step. *)
Lemma prepare_and_run_pull (w : world) (local_path : string) :
  exists size_bytes,
    _prepare_and_run w true local_path
    = if negb (device_present w) then
        ([probe;
          Idle_add (Status_label_set_text "Device Error");
          Idle_add (On_transfer_finished false
                      "ADB Device not connected or unauthorized")],
         Returned tt)
      else if negb (makedirs_ok w local_path) then
        ([probe; Subprocess_run remote_du; Os_makedirs local_path],
         Raised OSError)
      else
        let cmd := pull_cmd local_path size_bytes in
        let reader :=
          read_stderr Update_ui_progress On_transfer_finished (popen w cmd) in
        (([probe; Subprocess_run remote_du; Os_makedirs local_path;
           Store_total_bytes size_bytes;
           Idle_add (Status_label_set_text "Transferring...");
           Popen_shell cmd] ++ events reader)%list,
         outcome reader).
Proof.
  destruct (get_remote_size_spec w (path_join REMOTE_BASE_DIR REMOTE_TARGET_DIR_NAME))
    as [size_bytes Hsize].
  exists size_bytes.
  unfold _prepare_and_run. rewrite check_adb_device_spec, Hsize.
  unfold os_makedirs, run_adb_command_with_progress, remote_du.
  bg_unfold.
  destruct (device_present w); simpl; [| reflexivity].
  destruct (makedirs_ok w local_path); simpl; [| reflexivity].
  destruct (read_stderr _ _ _) as [evs st]; reflexivity.
Qed.

Lemma reader_events_are_idle
    (steps : list read_step) (e : event) :
  In e (events (read_stderr Update_ui_progress On_transfer_finished steps)) ->
  exists t, e = Idle_add t.
Proof.
  rewrite read_stderr_spec.
  assert (Hq : forall samples,
             In e (queued Update_ui_progress samples) -> exists t, e = Idle_add t).
  { induction samples as [| x samples IH]; simpl; [contradiction |].
    intros [<- | H]; [eexists; reflexivity | now apply IH]. }
  destruct (exit_status steps) as [rc |]; unfold events; simpl.
  - destruct (rc =? 0); simpl; intros H; apply in_app_or in H;
      (destruct H as [H | [<- | []]];
       [now apply Hq in H | eexists; reflexivity]).
  - apply Hq.
Qed.

(** Whatever the environment answers, a pipeline [_prepare_and_run]
    launches is [pipeline_cmd] of its arguments and of the byte count it
    stored in [total_bytes]. *)
Lemma launched_pipeline
    (w : world) (is_pull : bool) (local_path cmd : string) :
  In (Popen_shell cmd) (events (_prepare_and_run w is_pull local_path)) ->
  exists size_bytes,
    cmd = pipeline_cmd is_pull local_path size_bytes
    /\ In (Store_total_bytes size_bytes)
          (events (_prepare_and_run w is_pull local_path)).
Proof.
  assert (Hno : forall steps,
             ~ In (Popen_shell cmd)
                 (events (read_stderr Update_ui_progress On_transfer_finished steps))).
  { intros steps H. apply reader_events_are_idle in H.
    destruct H as [t H]. discriminate. }
  destruct is_pull.
  - destruct (prepare_and_run_pull w local_path) as [size_bytes ->].
    destruct (device_present w); simpl negb; cbv iota.
    2:{ unfold events. simpl. intros [H | [H | [H | []]]]; discriminate. }
    destruct (makedirs_ok w local_path); simpl negb; cbv iota.
    2:{ unfold events. simpl. intros [H | [H | [H | []]]]; discriminate. }
    unfold events at 1 3. simpl.
    intros [H | [H | [H | [H | [H | [H | H]]]]]]; try discriminate.
    + injection H as <-. exists size_bytes. split; [reflexivity | auto 6].
    + now apply Hno in H.
  - rewrite prepare_and_run_push.
    destruct (device_present w); simpl negb; cbv iota.
    2:{ unfold events. simpl. intros [H | [H | [H | []]]]; discriminate. }
    destruct (path_found w local_path); simpl negb; cbv iota.
    2:{ unfold events. simpl. intros [H | [H | [H | []]]]; discriminate. }
    destruct (run_process w remote_mkdir) as [res | e].
    2:{ unfold events. simpl. intros [H | [H | [H | []]]]; discriminate. }
    unfold events at 1 3. simpl.
    intros [H | [H | [H | [H | [H | [H | [H | H]]]]]]]; try discriminate.
    + injection H as <-. eexists. split; [reflexivity | auto 7].
    + now apply Hno in H.
Qed.

(** A run assigns [total_bytes] at most once. *)
Lemma stored_once
    (w : world) (is_pull : bool) (local_path : string) (n n' : Z) :
  In (Store_total_bytes n) (events (_prepare_and_run w is_pull local_path)) ->
  In (Store_total_bytes n') (events (_prepare_and_run w is_pull local_path)) ->
  n = n'.
Proof.
  assert (Hno : forall m steps,
             ~ In (Store_total_bytes m)
                 (events (read_stderr Update_ui_progress On_transfer_finished steps))).
  { intros m steps H. apply reader_events_are_idle in H.
    destruct H as [t H]. discriminate. }
  destruct is_pull.
  - destruct (prepare_and_run_pull w local_path) as [size_bytes ->].
    destruct (device_present w); simpl negb; cbv iota.
    2:{ unfold events. simpl. intros [H | [H | [H | []]]]; discriminate. }
    destruct (makedirs_ok w local_path); simpl negb; cbv iota.
    2:{ unfold events. simpl. intros [H | [H | [H | []]]]; discriminate. }
    unfold events at 1 3. simpl.
    intros [H | [H | [H | [H | [H | [H | H]]]]]]; try discriminate;
      try (now apply Hno in H).
    intros [H' | [H' | [H' | [H' | [H' | [H' | H']]]]]]; try discriminate;
      try (now apply Hno in H').
    congruence.
  - rewrite prepare_and_run_push.
    destruct (device_present w); simpl negb; cbv iota.
    2:{ unfold events. simpl. intros [H | [H | [H | []]]]; discriminate. }
    destruct (path_found w local_path); simpl negb; cbv iota.
    2:{ unfold events. simpl. intros [H | [H | [H | []]]]; discriminate. }
    destruct (run_process w remote_mkdir) as [res | e].
    2:{ unfold events. simpl. intros [H | [H | [H | []]]]; discriminate. }
    unfold events at 1 3. simpl.
    intros [H | [H | [H | [H | [H | [H | [H | H]]]]]]]; try discriminate;
      try (now apply Hno in H).
    intros [H' | [H' | [H' | [H' | [H' | [H' | [H' | H']]]]]]];
      try discriminate; try (now apply Hno in H').
    congruence.
Qed.

(** C8.  The pipeline is a function of the direction, the local path and
    the byte count: whatever the environment, two runs with the same
    direction and path that stored the same byte count launched the
    same command, byte for byte; and the byte count appears only as the
    size hint of the metering stage, between an archive stage and an
    extraction stage that do not depend on it and keep their places. *)
Theorem pipeline_cmd_deterministic :
  (forall w w' is_pull local_path size_bytes cmd cmd',
      In (Popen_shell cmd) (events (_prepare_and_run w is_pull local_path)) ->
      In (Store_total_bytes size_bytes)
         (events (_prepare_and_run w is_pull local_path)) ->
      In (Popen_shell cmd') (events (_prepare_and_run w' is_pull local_path)) ->
      In (Store_total_bytes size_bytes)
         (events (_prepare_and_run w' is_pull local_path)) ->
      cmd = pipeline_cmd is_pull local_path size_bytes /\ cmd' = cmd)
  /\ (forall is_pull local_path,
        exists before after : string,
          before = archive_stage is_pull local_path ++ " | pv -n -s "
          /\ after = " | " ++ extract_stage is_pull local_path
          /\ forall size_bytes,
               pipeline_cmd is_pull local_path size_bytes
               = before ++ str_of_int size_bytes ++ after).
Proof.
  split.
  - intros w w' is_pull local_path size_bytes cmd cmd' Hc Hs Hc' Hs'.
    apply launched_pipeline in Hc, Hc'.
    destruct Hc as (n & -> & Hn). destruct Hc' as (n' & -> & Hn').
    rewrite (stored_once _ _ _ _ _ Hn Hs), (stored_once _ _ _ _ _ Hn' Hs').
    split; reflexivity.
  - intros is_pull local_path.
    exists (archive_stage is_pull local_path ++ " | pv -n -s "),
      (" | " ++ extract_stage is_pull local_path).
    repeat split. intros size_bytes.
    rewrite pipeline_cmd_stages. unfold metering_stage.
    repeat rewrite append_assoc. reflexivity.
Qed.

(** C8 on the pull of the specification. *)
Lemma pipeline_cmd_deterministic_witness :
  In (Popen_shell pull_1000_cmd)
     (events (_prepare_and_run pull_1000 true "/home/u/out"))
  /\ In (Store_total_bytes 1000)
        (events (_prepare_and_run pull_1000 true "/home/u/out"))
  /\ pull_1000_cmd = pipeline_cmd true "/home/u/out" 1000.
Proof.
  assert (Hc : In (Popen_shell pull_1000_cmd)
                 (events (_prepare_and_run pull_1000 true "/home/u/out")))
    by (vm_compute; auto 10).
  assert (Hs : In (Store_total_bytes 1000)
                 (events (_prepare_and_run pull_1000 true "/home/u/out")))
    by (vm_compute; auto 10).
  split; [exact Hc |]. split; [exact Hs |].
  destruct pipeline_cmd_deterministic as [Hdet _].
  exact (proj1 (Hdet pull_1000 pull_1000 true "/home/u/out" 1000
                  pull_1000_cmd pull_1000_cmd Hc Hs Hc Hs)).
Defined.

(** ** The local size *)

(** Induction on a tree, with the entries of a directory and what a
    link leads to. *)
Lemma node_tree_ind (P : node -> Prop)
    (HFile : forall st_size, P (File st_size))
    (HNowhere : P (Link None))
    (HLink : forall target, P target -> P (Link (Some target)))
    (HDir : forall readable entries,
        Forall (fun e => P (snd e)) entries -> P (Dir readable entries)) :
  forall n, P n.
Proof.
  fix IH 1. intros [st_size | [target |] | readable entries].
  - apply HFile.
  - apply HLink, IH.
  - apply HNowhere.
  - apply HDir. induction entries as [| [name child] entries IHe].
    + constructor.
    + constructor; [apply IH | exact IHe].
Qed.

Lemma walk_dir (top : string) (entries : list (string * node)) :
  walk top (Dir true entries)
  = (top,
     map fst (filter (fun e => is_dir (snd e)) entries),
     filter (fun e => negb (is_dir (snd e))) entries)
    :: walk_below top entries.
Proof.
  cbn [walk]. f_equal. unfold walk_below.
  induction entries as [| [name child] entries IH]; [reflexivity |].
  cbn [flat_map fst snd]. now rewrite IH.
Qed.

Lemma dir_bytes_dir (entries : list (string * node)) :
  dir_bytes (Dir true entries)
  = fold_right
      (fun e acc =>
         (if islink (snd e) then 0
          else if is_dir (snd e) then dir_bytes (snd e)
          else file_bytes (snd e)) + acc)
      0 entries.
Proof.
  cbn [dir_bytes].
  induction entries as [| [name child] entries IH]; [reflexivity |].
  cbn [fold_right snd]. now rewrite IH.
Qed.

Lemma dir_bytes_split (entries : list (string * node)) :
  dir_bytes (Dir true entries) = files_bytes entries + subdirs_bytes entries.
Proof.
  rewrite dir_bytes_dir. unfold files_bytes, subdirs_bytes.
  induction entries as [| [name child] entries IH]; [reflexivity |].
  cbn [fold_right filter snd]. rewrite IH.
  destruct (is_dir child); cbn [negb andb fold_right snd];
    destruct (islink child); cbn [negb andb]; ring.
Qed.

Lemma file_bytes_nonneg (n : node) : 0 <= file_bytes n.
Proof. destruct n as [[size |] | |]; simpl; lia. Qed.

Lemma files_bytes_nonneg (entries : list (string * node)) :
  0 <= files_bytes entries.
Proof.
  unfold files_bytes.
  induction (filter _ entries) as [| e es IH]; simpl; [lia |].
  pose proof (file_bytes_nonneg (snd e)). destruct (islink (snd e)); lia.
Qed.

Lemma dir_bytes_nonneg : forall n, 0 <= dir_bytes n.
Proof.
  apply node_tree_ind.
  - intros st_size. simpl. lia.
  - simpl. lia.
  - intros target IH. exact IH.
  - intros [|] entries Hall; [| simpl; lia].
    rewrite dir_bytes_split.
    assert (0 <= subdirs_bytes entries).
    { unfold subdirs_bytes.
      induction Hall as [| e es He Hes IH]; simpl; [lia |].
      destruct (_ && _); lia. }
    pose proof (files_bytes_nonneg entries). lia.
Qed.

(** The inner loop adds the sizes it is given; a failing [os.stat]
    stops it with what was added so far. *)
Lemma add_files_spec (filenames : list (string * node)) :
  forall total_size,
  exists added r,
    add_files filenames total_size = (total_size + added, r)
    /\ 0 <= added
       <= fold_right (fun e acc => (if islink (snd e) then 0
                                    else file_bytes (snd e)) + acc)
            0 filenames
    /\ (forallb (fun e => islink (snd e) || stats_ok (snd e)) filenames = true ->
        Forall (fun e => is_dir (snd e) = false) filenames ->
        r = Ok tt
        /\ added = fold_right (fun e acc => (if islink (snd e) then 0
                                             else file_bytes (snd e)) + acc)
                     0 filenames).
Proof.
  induction filenames as [| [f fp] rest IH]; intros total_size; simpl.
  - exists 0, (Ok tt). rewrite Z.add_0_r. repeat split; lia.
  - set (tail := fold_right _ 0 rest) in *.
    assert (Htail : 0 <= tail).
    { subst tail. clear IH. induction rest as [| e es IHe]; simpl; [lia |].
      pose proof (file_bytes_nonneg (snd e)).
      destruct (islink (snd e)); lia. }
    destruct fp as [[size |] | target | readable es]; simpl.
    + destruct (IH (total_size + Z.of_N size)) as (added & r & -> & Hb & Hok).
      exists (Z.of_N size + added), r. rewrite Z.add_assoc.
      split; [reflexivity |]. split; [lia |].
      intros Hs Hd. inversion Hd; subst.
      destruct (Hok Hs) as [-> ->]; [assumption |]. split; reflexivity.
    + exists 0, (Raise OSError). rewrite Z.add_0_r.
      split; [reflexivity |]. split; [lia |]. discriminate.
    + destruct (IH total_size) as (added & r & -> & Hb & Hok).
      exists added, r. split; [reflexivity |]. split; [lia |].
      intros Hs Hd. inversion Hd; subst.
      destruct (Hok Hs) as [-> ->]; [assumption |]. split; reflexivity.
    + exists 0, (Raise OSError). rewrite Z.add_0_r.
      split; [reflexivity |]. split; [lia |].
      intros _ Hd. inversion Hd; subst. discriminate.
Qed.

Lemma add_dirs_app (a b : list walk_item) (total_size : Z) :
  add_dirs (a ++ b) total_size
  = match add_dirs a total_size with
    | (total_size', Ok _) => add_dirs b total_size'
    | (total_size', Raise e) => (total_size', Raise e)
    end.
Proof.
  revert total_size.
  induction a as [| [[dirpath dirnames] filenames] a IH]; intros total_size;
    simpl; [reflexivity |].
  destruct (add_files filenames total_size) as [t [[] | e]]; [apply IH | reflexivity].
Qed.

Lemma stats_ok_dir (entries : list (string * node)) :
  stats_ok (Dir true entries)
  = forallb (fun e => islink (snd e) || stats_ok (snd e)) entries.
Proof.
  cbn [stats_ok].
  induction entries as [| [name child] entries IH]; [reflexivity |].
  cbn [forallb snd]. now rewrite IH.
Qed.

Lemma walk_below_adds (top : string) (entries : list (string * node)) :
  Forall (fun e => walk_adds (snd e)) entries ->
  forall total_size,
  exists added r,
    add_dirs (walk_below top entries) total_size = (total_size + added, r)
    /\ 0 <= added <= subdirs_bytes entries
    /\ (forallb (fun e => islink (snd e) || stats_ok (snd e)) entries = true ->
        r = Ok tt /\ added = subdirs_bytes entries).
Proof.
  unfold walk_below, subdirs_bytes.
  induction 1 as [| [name child] es He Hes IH]; intros total_size;
    cbn [flat_map fold_right forallb fst snd].
  - exists 0, (Ok tt). rewrite Z.add_0_r. repeat split; simpl; lia.
  - set (tail := fold_right _ 0 es) in *.
    assert (Htail : 0 <= tail).
    { destruct (IH 0) as (a & r & _ & Hb & _). lia. }
    rewrite add_dirs_app. cbn [snd] in He.
    destruct (is_dir child && negb (islink child)) eqn:Hd.
    + apply andb_prop in Hd. destruct Hd as [_ Hl].
      apply negb_true_iff in Hl.
      destruct (He (path_join top name) total_size)
        as (a1 & r1 & -> & Hb1 & Hok1).
      destruct r1 as [[] | e].
      * destruct (IH (total_size + a1)) as (a2 & r2 & -> & Hb2 & Hok2).
        exists (a1 + a2), r2. rewrite Z.add_assoc.
        split; [reflexivity |]. split; [lia |].
        intros Hs. apply andb_prop in Hs. destruct Hs as [Hs1 Hs2].
        rewrite Hl in Hs1. simpl in Hs1.
        destruct (Hok1 Hs1) as [_ ->]. destruct (Hok2 Hs2) as [-> ->].
        split; reflexivity.
      * exists a1, (Raise e). split; [reflexivity |]. split; [lia |].
        intros Hs. apply andb_prop in Hs. destruct Hs as [Hs1 _].
        rewrite Hl in Hs1. simpl in Hs1.
        destruct (Hok1 Hs1) as [Habs _]. discriminate.
    + cbn [add_dirs].
      destruct (IH total_size) as (a2 & r2 & -> & Hb2 & Hok2).
      exists a2, r2. split; [reflexivity |]. split; [lia |].
      intros Hs. apply andb_prop in Hs. destruct Hs as [_ Hs2].
      destruct (Hok2 Hs2) as [-> ->]. split; reflexivity.
Qed.

Lemma forallb_filter {A : Type} (p q : A -> bool) (l : list A) :
  forallb p l = true -> forallb p (filter q l) = true.
Proof.
  induction l as [| x l IH]; simpl; [reflexivity |].
  intros H. apply andb_prop in H. destruct H as [Hx Hl].
  destruct (q x); simpl; [rewrite Hx |]; auto.
Qed.

Lemma walk_adds_all : forall n, walk_adds n.
Proof.
  apply node_tree_ind.
  - intros st_size top total_size. exists 0, (Ok tt). simpl.
    rewrite Z.add_0_r. repeat split; lia.
  - intros top total_size. exists 0, (Ok tt). simpl.
    rewrite Z.add_0_r. repeat split; lia.
  - intros target IH top total_size. exact (IH top total_size).
  - intros [|] entries Hall top total_size.
    2:{ exists 0, (Ok tt). simpl. rewrite Z.add_0_r. repeat split; lia. }
    rewrite walk_dir, dir_bytes_split, stats_ok_dir. cbn [add_dirs].
    pose proof (files_bytes_nonneg entries) as Hfiles.
    destruct (add_files_spec
                (filter (fun e => negb (is_dir (snd e))) entries) total_size)
      as (a1 & r1 & -> & Hb1 & Hok1).
    fold (files_bytes entries) in Hb1, Hok1.
    assert (Hsub : 0 <= subdirs_bytes entries).
    { destruct (walk_below_adds top entries Hall 0) as (a & r & _ & Hb & _). lia. }
    assert (Hnondir : Forall (fun e => is_dir (snd e) = false)
                        (filter (fun e => negb (is_dir (snd e))) entries)).
    { apply Forall_forall. intros e He. apply filter_In in He.
      destruct He as [_ He]. now apply negb_true_iff in He. }
    destruct r1 as [[] | e].
    + destruct (walk_below_adds top entries Hall (total_size + a1))
        as (a2 & r2 & -> & Hb2 & Hok2).
      exists (a1 + a2), r2. rewrite Z.add_assoc.
      split; [reflexivity |]. split; [lia |].
      intros Hs.
      destruct (Hok1 (forallb_filter _ _ _ Hs) Hnondir) as [_ ->].
      destruct (Hok2 Hs) as [-> ->]. split; reflexivity.
    + exists a1, (Raise e). split; [reflexivity |]. split; [lia |].
      intros Hs.
      destruct (Hok1 (forallb_filter _ _ _ Hs) Hnondir) as [Habs _].
      discriminate.
Qed.

Lemma get_local_size_adds (fs : string -> option node) (path : string) :
  0 <= get_local_size fs path <= tree_bytes (fs path)
  /\ (tree_stats_ok (fs path) = true ->
      get_local_size fs path = tree_bytes (fs path)).
Proof.
  unfold get_local_size, os_walk, tree_bytes, tree_stats_ok.
  destruct (fs path) as [n |]; [| simpl; split; [lia | reflexivity]].
  destruct (walk_adds_all n path 0) as (added & r & -> & Hb & Hok).
  simpl. split; [lia |].
  intros Hs. now destruct (Hok Hs) as [_ ->].
Qed.

(** The two loops add up the files of the walk in order, and an
    exception leaves the sum where it was. *)
Lemma add_files_accumulated (filenames : list (string * node)) :
  forall total_size more,
    match add_files filenames total_size with
    | (total_size', Ok _) =>
        total_size' + accumulated more
        = total_size + accumulated (filenames ++ more)
    | (total_size', Raise _) =>
        total_size' = total_size + accumulated (filenames ++ more)
    end.
Proof.
  induction filenames as [| [f fp] rest IH]; intros total_size more.
  - reflexivity.
  - cbn [add_files app accumulated].
    destruct fp as [[size |] | target | readable es];
      cbn [islink negb getsize].
    + specialize (IH (total_size + Z.of_N size) more).
      destruct (add_files rest (total_size + Z.of_N size)) as [t [[] | e]];
        rewrite IH; ring.
    + ring.
    + apply IH.
    + ring.
Qed.

Lemma add_dirs_accumulated (items : list walk_item) :
  forall total_size,
    fst (add_dirs items total_size)
    = total_size + accumulated (listed_files items).
Proof.
  unfold listed_files.
  induction items as [| [[dirpath dirnames] filenames] items IH];
    intros total_size.
  - simpl. ring.
  - cbn [add_dirs flat_map snd].
    pose proof (add_files_accumulated filenames total_size
                  (flat_map snd items)) as H.
    destruct (add_files filenames total_size) as [t [[] | e]].
    + rewrite IH. exact H.
    + exact H.
Qed.

Lemma get_local_size_accumulated (fs : string -> option node) (path : string) :
  get_local_size fs path = accumulated (listed_files (os_walk fs path)).
Proof. unfold get_local_size. now rewrite add_dirs_accumulated. Qed.

(** C9.  [get_local_size] always returns (a failure inside the walk is
    caught and ends it), and what it returns is the accumulated size:
    the sizes of the files the walk of the directory and of its
    sub-directories lists, added up in the order of the walk, symbolic
    links left out, as far as the first file whose size cannot be read.
    That sum is not negative; it is the sum of the sizes of all the
    files under the directory that are not links when every size can
    be read.  It is 0 for a path that does not exist, is not a
    directory, leads nowhere, cannot be listed, or is an empty
    directory.  A symbolic link among the entries changes nothing,
    whatever it leads to; a link given as the path itself is followed to
    the directory it leads to. *)
Theorem get_local_size_walks (fs : string -> option node) (path : string) :
  get_local_size fs path = accumulated (listed_files (os_walk fs path))
  /\ 0 <= get_local_size fs path <= tree_bytes (fs path)
  /\ (tree_stats_ok (fs path) = true ->
      get_local_size fs path = tree_bytes (fs path))
  /\ (fs path = None -> get_local_size fs path = 0)
  /\ (forall st_size, fs path = Some (File st_size) -> get_local_size fs path = 0)
  /\ (fs path = Some (Link None) -> get_local_size fs path = 0)
  /\ (forall entries,
        fs path = Some (Dir false entries) -> get_local_size fs path = 0)
  /\ (fs path = Some (Dir true []) -> get_local_size fs path = 0)
  /\ (forall fs' name target entries,
        fs path = Some (Dir true ((name, Link target) :: entries)) ->
        fs' path = Some (Dir true entries) ->
        get_local_size fs path = get_local_size fs' path)
  /\ (forall fs' target,
        fs path = Some (Link (Some target)) ->
        fs' path = Some target ->
        get_local_size fs path = get_local_size fs' path).
Proof.
  split; [apply get_local_size_accumulated |].
  destruct (get_local_size_adds fs path) as [Hbound Hall].
  split; [exact Hbound |]. split; [exact Hall |].
  unfold get_local_size, os_walk.
  repeat split; try (intros; match goal with H : fs path = _ |- _ => rewrite H end;
                     reflexivity).
  - intros fs' name target entries -> ->.
    rewrite !walk_dir. cbn [filter map snd fst walk_below flat_map islink].
    rewrite andb_false_r. cbn [app add_dirs].
    destruct (is_dir (Link target)); reflexivity.
  - intros fs' target -> ->. reflexivity.
Qed.

(** C9 on a sample tree: 3 + 7 bytes at the top and 4 + 100 below;
    the links, which lead to 50 and to 5000 bytes, and the directory
    that cannot be listed add nothing.  A link to the tree given as the
    path gives the same size. *)
Lemma get_local_size_walks_witness :
  tree_stats_ok (Some sample_tree) = true
  /\ get_local_size (fun _ => Some sample_tree) "/home/u/out" = 114
  /\ get_local_size (fun _ => Some (Link (Some sample_tree))) "/home/u/out"
     = 114.
Proof.
  split; [reflexivity |].
  destruct (get_local_size_walks (fun _ => Some sample_tree) "/home/u/out")
    as (_ & _ & Hall & _).
  destruct (get_local_size_walks (fun _ => Some (Link (Some sample_tree)))
              "/home/u/out") as (_ & _ & Hlink & _).
  split; [exact (Hall eq_refl) | exact (Hlink eq_refl)].
Defined.

(** ** A whole transfer *)

(** The pull of the specification, end to end: the device probe, the
    size query, the destination directory, the pipeline, three samples
    and a successful outcome. *)
Example pull_end_to_end :
  _prepare_and_run pull_1000 true "/home/u/out"
  = ([Subprocess_run ["adb"; "get-state"];
      Subprocess_run ["adb"; "shell"; "du"; "-s"; "-b"; "/sdcard/Transfer"];
      Os_makedirs "/home/u/out";
      Store_total_bytes 1000;
      Idle_add (Status_label_set_text "Transferring...");
      Popen_shell pull_1000_cmd;
      Idle_add (Update_ui_progress 0);
      Idle_add (Update_ui_progress 0.5);
      Idle_add (Update_ui_progress 1);
      Idle_add (On_transfer_finished true "")],
     Returned tt).
Proof. reflexivity. Qed.

(* ================================================================== *)
(** * Further properties *)
(* ================================================================== *)

(** ** Progress updates, whatever the sample *)

(** The three ways of a progress update. *)
Lemma update_ui_progress_eq
    (current_time fraction : float) (self : ADBTransferApp) :
  update_ui_progress current_time fraction self
  = if sampled current_time self then
      if (0 <=? fraction - last_fraction self)%float then
        match float_of_int (total_bytes self) with
        | Ok total =>
            rebase_and_show current_time fraction
              (snd (speed_label_set_text
                      (format_speed
                         (sample_speed current_time fraction self total))
                      self))
        | Raise e => (Raise e, self)
        end
      else rebase_and_show current_time fraction self
    else show_progress fraction self.
Proof.
  destruct (sampled current_time self) eqn:Hs.
  2:{ now apply update_ui_progress_not_sampled. }
  destruct (0 <=? fraction - last_fraction self)%float eqn:Hfwd.
  2:{ now apply update_ui_progress_no_advance. }
  rewrite update_ui_progress_advance by assumption.
  destruct (sampled_armed _ _ Hs) as (_ & _ & Hlate).
  unfold mul_int, rebase_and_show. ui_unfold.
  destruct (float_of_int (total_bytes self)) as [total | e]; [| reflexivity].
  simpl Py.bind. cbv beta iota. rewrite truediv_late by assumption.
  reflexivity.
Qed.

Lemma rebase_and_show_spec
    (current_time fraction : float) (a : ADBTransferApp) :
  let r := rebase_and_show current_time fraction a in
  only_estimator_and_bar_differ a (snd r)
  /\ baseline (snd r) = (fraction, current_time)
  /\ speed_label_text (snd r) = speed_label_text a
  /\ progress_bar_shows fraction (fst r) a (snd r).
Proof.
  unfold rebase_and_show. ui_unfold. simpl.
  match goal with
  | |- context [show_progress fraction ?b] =>
      destruct (show_progress_spec fraction b) as [Hframe Hbar]
  end.
  destruct Hframe as (Htb & Hlf & Hlt & Hpe & Hmp & Hst & Hpo & Hsp & Hso & Hsb).
  simpl in *.
  repeat split; try assumption.
  - unfold baseline. now rewrite Hlf, Hlt.
  - apply Hbar.
  - apply Hbar.
Qed.

Lemma int_of_float_finite (x : float) :
  isfinite x = true -> exists n, int_of_float x = Ok n.
Proof.
  unfold isfinite, int_of_float.
  destruct (Prim2SF x) as [s | s | | s m e]; try discriminate;
    intros _; eexists; reflexivity.
Qed.

Lemma int_of_float_raises (x : float) (e : exn) :
  int_of_float x = Raise e ->
  isfinite x = false /\ (e = ValueError \/ e = OverflowError).
Proof.
  unfold isfinite, int_of_float.
  destruct (Prim2SF x) as [s | s | | s m ex]; try discriminate;
    intros H; injection H as <-; auto.
Qed.

Lemma float_of_int_raises (n : Z) (e : exn) :
  float_of_int n = Raise e -> e = OverflowError.
Proof.
  unfold float_of_int.
  destruct (binary_normalize prec emax n 0 false); try discriminate.
  intros H. now injection H as <-.
Qed.

Lemma bar_frame_weaken (a a' : ADBTransferApp) :
  only_progress_bar_differs a a' -> only_estimator_and_bar_differ a a'.
Proof.
  intros (H1 & H2 & H3 & H4 & H5 & H6 & H7 & H8 & H9 & H10).
  repeat split; assumption.
Qed.

Lemma update_ui_progress_keeps
    (current_time fraction : float) (self : ADBTransferApp) :
  only_estimator_and_bar_differ self
    (snd (update_ui_progress current_time fraction self)).
Proof.
  rewrite update_ui_progress_eq.
  destruct (sampled current_time self).
  - destruct (0 <=? fraction - last_fraction self)%float.
    + destruct (float_of_int (total_bytes self)) as [total | e].
      * match goal with
        | |- context [rebase_and_show _ _ ?a] =>
            destruct (rebase_and_show_spec current_time fraction a) as [H _]
        end.
        exact H.
      * repeat split.
    + now destruct (rebase_and_show_spec current_time fraction self) as [H _].
  - apply bar_frame_weaken.
    now destruct (show_progress_spec fraction self) as [H _].
Qed.

(** X1.  Damping.  A progress update that comes at most half a second
    after the baseline time -- or at a time that cannot be compared with
    it -- changes the progress bar only, whether the estimator is armed
    or not: the baseline, the speed text and every other attribute keep
    their values. *)
Theorem update_ui_progress_damped
    (current_time fraction : float) (self : ADBTransferApp)
    (Hsoon : (0.5 <? current_time - last_time self)%float = false) :
  let r := update_ui_progress current_time fraction self in
  only_progress_bar_differs self (snd r)
  /\ progress_bar_shows fraction (fst r) self (snd r).
Proof.
  intros r. subst r. rewrite update_ui_progress_too_soon by assumption.
  apply show_progress_spec.
Qed.

(** X1 on a sample a quarter of a second after the baseline. *)
Lemma update_ui_progress_damped_witness :
  (0.5 <? 100.25 - last_time half_way)%float = false
  /\ baseline (snd (update_ui_progress 100.25 0.75 half_way))
     = (0.5%float, 100%float)
  /\ speed_label_text (snd (update_ui_progress 100.25 0.75 half_way))
     = "Calculating..."
  /\ progress_bar_fraction (snd (update_ui_progress 100.25 0.75 half_way))
     = 0.75%float.
Proof.
  split; [reflexivity |].
  destruct (update_ui_progress_damped 100.25 0.75 half_way eq_refl)
    as [Hframe Hbar].
  destruct Hframe as (_ & Hlf & Hlt & _ & _ & _ & _ & Hsp & _).
  split; [unfold baseline; now rewrite Hlf, Hlt |].
  split; [exact Hsp | apply Hbar].
Defined.

(** X2.  Whatever the sample, the time and the state, and whether it
    returns or raises, a progress update changes nothing but the
    baseline, the speed text and the progress bar: the byte count, the
    path entry, the direction, the status text, the two opacities and
    the start button are left alone. *)
Theorem update_ui_progress_frame
    (current_time fraction : float) (self : ADBTransferApp) :
  only_estimator_and_bar_differ self
    (snd (update_ui_progress current_time fraction self)).
Proof. apply update_ui_progress_keeps. Qed.

Lemma update_ui_progress_shows
    (current_time fraction : float) (self : ADBTransferApp)
    (total : float) (percent : Z) :
  int_of_float (fraction * 100) = Ok percent ->
  float_of_int (total_bytes self) = Ok total ->
  let r := update_ui_progress current_time fraction self in
  fst r = Ok tt
  /\ progress_bar_fraction (snd r) = fraction
  /\ progress_bar_text (snd r) = str_of_int percent ++ "%".
Proof.
  intros Hp Htotal r. subst r.
  rewrite update_ui_progress_eq, Htotal.
  assert (Hshow : forall res a a',
             progress_bar_shows fraction res a a' ->
             res = Ok tt /\ progress_bar_fraction a' = fraction
             /\ progress_bar_text a' = str_of_int percent ++ "%").
  { intros res a a' [Hf H]. rewrite Hp in H.
    destruct H as (-> & Ht & _). auto. }
  destruct (sampled current_time self).
  - destruct (0 <=? fraction - last_fraction self)%float.
    + match goal with
      | |- context [rebase_and_show _ _ ?a] =>
          destruct (rebase_and_show_spec current_time fraction a)
            as (_ & _ & _ & H)
      end.
      exact (Hshow _ _ _ H).
    + destruct (rebase_and_show_spec current_time fraction self)
        as (_ & _ & _ & H).
      exact (Hshow _ _ _ H).
  - destruct (show_progress_spec fraction self) as [_ H].
    exact (Hshow _ _ _ H).
Qed.

(** X3.  A progress update returns normally whenever [fraction * 100]
    is finite and [total_bytes] is small enough to be a float; the bar
    then holds the fraction and the text [int(fraction * 100)] followed
    by a percent sign. *)
Theorem update_ui_progress_returns
    (current_time fraction : float) (self : ADBTransferApp) (total : float)
    (Hfin : isfinite (fraction * 100) = true)
    (Htotal : float_of_int (total_bytes self) = Ok total) :
  let r := update_ui_progress current_time fraction self in
  exists percent,
    int_of_float (fraction * 100) = Ok percent
    /\ fst r = Ok tt
    /\ progress_bar_fraction (snd r) = fraction
    /\ progress_bar_text (snd r) = str_of_int percent ++ "%".
Proof.
  intros r. subst r.
  destruct (int_of_float_finite _ Hfin) as [percent Hp].
  exists percent. split; [exact Hp |].
  now apply update_ui_progress_shows with (total := total).
Qed.

(** X3 on the sample [0.75] one second after the baseline. *)
Lemma update_ui_progress_returns_witness :
  isfinite (0.75 * 100) = true
  /\ float_of_int (total_bytes half_way) = Ok 1000%float
  /\ fst (update_ui_progress 101 0.75 half_way) = Ok tt
  /\ progress_bar_text (snd (update_ui_progress 101 0.75 half_way)) = "75%".
Proof.
  split; [reflexivity |]. split; [reflexivity |].
  destruct (update_ui_progress_returns 101 0.75 half_way 1000 eq_refl eq_refl)
    as (percent & Hp & Hret & _ & Htext).
  split; [exact Hret |].
  rewrite Htext. vm_compute in Hp. injection Hp as <-. reflexivity.
Defined.

(** X4.  A progress update raises nothing but [ValueError] and
    [OverflowError], and only when [fraction * 100] is not finite (a
    NaN or an infinity cannot be made an [int]: the fraction was shown,
    the text was not) or when the byte count is too large for the
    product of a sampled advance (nothing was changed). *)
Theorem update_ui_progress_raises
    (current_time fraction : float) (self : ADBTransferApp) (e : exn)
    (Hraise : fst (update_ui_progress current_time fraction self) = Raise e) :
  let r := update_ui_progress current_time fraction self in
  (e = ValueError \/ e = OverflowError)
  /\ ((isfinite (fraction * 100) = false
       /\ progress_bar_fraction (snd r) = fraction
       /\ progress_bar_text (snd r) = progress_bar_text self)
      \/ (sampled current_time self = true
          /\ float_of_int (total_bytes self) = Raise OverflowError
          /\ snd r = self)).
Proof.
  intros r. subst r. revert Hraise.
  rewrite update_ui_progress_eq.
  assert (Hshow : forall res a a',
             progress_bar_shows fraction res a a' ->
             progress_bar_text a = progress_bar_text self ->
             res = Raise e ->
             (e = ValueError \/ e = OverflowError)
             /\ ((isfinite (fraction * 100) = false
                  /\ progress_bar_fraction a' = fraction
                  /\ progress_bar_text a' = progress_bar_text self)
                 \/ (sampled current_time self = true
                     /\ float_of_int (total_bytes self) = Raise OverflowError
                     /\ a' = self))).
  { intros res a a' [Hf H] Ha Hres.
    destruct (int_of_float (fraction * 100)) as [percent | e'] eqn:Hp.
    - destruct H as (-> & _). discriminate.
    - destruct H as (-> & Ht & _). injection Hres as ->.
      destruct (int_of_float_raises _ _ Hp) as [Hnf He].
      split; [exact He |]. left. rewrite Ht, Ha. auto. }
  destruct (sampled current_time self) eqn:Hs.
  - destruct (0 <=? fraction - last_fraction self)%float.
    + destruct (float_of_int (total_bytes self)) as [total | e'] eqn:Htotal.
      * match goal with
        | |- context [rebase_and_show _ _ ?a] =>
            destruct (rebase_and_show_spec current_time fraction a)
              as (_ & _ & _ & H)
        end.
        apply (Hshow _ _ _ H). reflexivity.
      * simpl. intros H. injection H as ->.
        pose proof (float_of_int_raises _ _ Htotal) as ->.
        split; [now right |]. right. auto.
    + destruct (rebase_and_show_spec current_time fraction self)
        as (_ & _ & _ & H).
      apply (Hshow _ _ _ H). reflexivity.
  - destruct (show_progress_spec fraction self) as [_ H].
    apply (Hshow _ _ _ H). reflexivity.
Qed.

(** X4 on a byte count beyond the floats. *)
Lemma update_ui_progress_raises_witness :
  fst (update_ui_progress 101 0.75 half_way_huge) = Raise OverflowError
  /\ snd (update_ui_progress 101 0.75 half_way_huge) = half_way_huge.
Proof.
  assert (H : fst (update_ui_progress 101 0.75 half_way_huge)
              = Raise OverflowError) by reflexivity.
  split; [exact H |].
  destruct (update_ui_progress_raises 101 0.75 half_way_huge OverflowError H)
    as [_ [(Hfin & _) | (_ & _ & Hsame)]].
  - discriminate Hfin.
  - exact Hsame.
Defined.

(** *** Whole percentages *)

Lemma percentages_shown :
  forallb shown_as_expected (map Z.of_nat (seq 0 101)) = true.
Proof. vm_compute. reflexivity. Qed.

(** X23.  The percentage shown for a line of the metering stage.  For
    every whole percentage from 0 to 100, the line [pv -n] writes for
    it is one progress sample, and the text of the bar for that sample
    is the same percentage -- except for 29, 57 and 58, which are shown
    as 28, 56 and 57: dividing by 100 and multiplying by 100 again does
    not give the number back, and [int] truncates. *)
Theorem pv_percent_shown (percent : Z) (Hrange : 0 <= percent <= 100) :
  exists fraction,
    progress_samples [pv_line percent] = [fraction]
    /\ int_of_float (fraction * 100) = Ok (shown_percent percent)
    /\ forall current_time self total,
         float_of_int (total_bytes self) = Ok total ->
         progress_bar_text (snd (update_ui_progress current_time fraction self))
         = str_of_int (shown_percent percent) ++ "%".
Proof.
  pose proof percentages_shown as Hall.
  rewrite forallb_forall in Hall.
  assert (Hin : In percent (map Z.of_nat (seq 0 101))).
  { apply in_map_iff. exists (Z.to_nat percent).
    split; [lia |]. apply in_seq. lia. }
  apply Hall in Hin. unfold shown_as_expected in Hin.
  destruct (progress_samples [pv_line percent]) as [| fraction [| x l]];
    try discriminate.
  exists fraction. split; [reflexivity |].
  destruct (int_of_float (fraction * 100)) as [shown | e] eqn:Hp;
    [| discriminate].
  apply Z.eqb_eq in Hin. subst shown. split; [reflexivity |].
  intros current_time self total Htotal.
  now destruct (update_ui_progress_shows current_time fraction self total _
                  Hp Htotal) as (_ & _ & Htext).
Qed.

(** X23 on the line [57]: the bar reads 56%. *)
Lemma pv_percent_shown_witness :
  exists fraction,
    progress_samples [pv_line 57] = [fraction]
    /\ int_of_float (fraction * 100) = Ok 56
    /\ progress_bar_text (snd (update_ui_progress 101 fraction half_way))
       = "56%".
Proof.
  destruct (pv_percent_shown 57 ltac:(lia)) as (fraction & Hs & Hp & Htext).
  exists fraction. split; [exact Hs |]. split; [exact Hp |].
  exact (Htext 101%float half_way 1000%float eq_refl).
Defined.

(** ** The completion and the start request *)

Section StripFacts.

Variable space : ascii -> bool.

Lemma rstrip_by_idem (s : string) :
  rstrip_by space (rstrip_by space s) = rstrip_by space s.
Proof.
  induction s as [| c s IH]; simpl; [reflexivity |].
  destruct (space c && is_empty (rstrip_by space s)) eqn:E; simpl;
    [reflexivity |].
  now rewrite IH, E.
Qed.

Lemma lstrip_by_head (s : string) :
  lstrip_by space s = ""
  \/ exists c s', lstrip_by space s = String c s' /\ space c = false.
Proof.
  induction s as [| c s IH]; simpl; [now left |].
  destruct (space c) eqn:E; [exact IH |].
  right. now exists c, s.
Qed.

Lemma strip_by_idem (s : string) :
  strip_by space (strip_by space s) = strip_by space s.
Proof.
  unfold strip_by.
  destruct (lstrip_by_head s) as [-> | (c & s' & -> & Hc)]; [reflexivity |].
  simpl. repeat (rewrite Hc; simpl).
  now rewrite rstrip_by_idem.
Qed.

End StripFacts.

Lemma substring_head (m : nat) :
  forall s, (m <= String.length s)%nat ->
    exists tail,
      s = substring 0 m s ++ tail /\ String.length (substring 0 m s) = m.
Proof.
  induction m as [| m IH]; intros s Hm.
  - exists s. destruct s; split; reflexivity.
  - destruct s as [| c s]; simpl in Hm; [lia |].
    destruct (IH s ltac:(lia)) as (tail & Hs & Hlen).
    exists tail. simpl. split; [now rewrite <- Hs | now rewrite Hlen].
Qed.

Lemma length_append (a b : string) :
  String.length (a ++ b) = (String.length a + String.length b)%nat.
Proof. induction a as [| c a IH]; simpl; [reflexivity | now rewrite IH]. Qed.

Lemma on_transfer_finished_effect
    (success : bool) (error_msg : string) (self : ADBTransferApp) :
  let r := on_transfer_finished success error_msg self in
  fst r = Ok tt
  /\ start_btn_sensitive (snd r) = true
  /\ progress_bar_opacity (snd r) = 0%float
  /\ progress_bar_fraction (snd r) = 0%float
  /\ speed_label_opacity (snd r) = 0%float
  /\ status_label_text (snd r)
     = (if success then "Transfer Complete!" else "Transfer Failed")
  /\ request (snd r) = request self
  /\ baseline (snd r) = baseline self
  /\ speed_label_text (snd r) = speed_label_text self
  /\ progress_bar_text (snd r) = progress_bar_text self.
Proof.
  unfold on_transfer_finished. ui_unfold. destruct success; repeat split.
Qed.

(** X5.  The toast of a failed transfer.  [on_transfer_finished] with
    [success] false makes six widget calls, the last of which shows the
    toast [Error: ] followed by a reason that is never empty and never
    longer than 43 characters: the message itself when it has between 1
    and 40 characters, its first 40 characters followed by three dots
    when it is longer, and [Check terminal for details.] when it is
    empty. *)
Theorem transfer_failed_toast (error_msg : string) (self : ADBTransferApp) :
  exists reason,
    gtk_log (snd (on_transfer_finished false error_msg self))
    = (gtk_log self ++ release_calls
         ++ [Status_set_text "Transfer Failed";
             Add_toast ("Error: " ++ reason)])%list
    /\ (1 <= String.length reason <= 43)%nat
    /\ (error_msg = "" -> reason = "Check terminal for details.")
    /\ ((1 <= String.length error_msg <= 40)%nat -> reason = error_msg)
    /\ ((40 < String.length error_msg)%nat ->
        exists head tail,
          error_msg = head ++ tail
          /\ String.length head = 40%nat
          /\ reason = head ++ "...").
Proof.
  unfold on_transfer_finished, release_calls. ui_unfold. simpl.
  unfold logged. simpl. repeat rewrite <- app_assoc. simpl.
  destruct (40 <? String.length error_msg)%nat eqn:Hlong.
  - apply Nat.ltb_lt in Hlong.
    destruct (substring_head 40 error_msg ltac:(lia)) as (tail & Hs & Hlen).
    destruct (substring 0 40 error_msg) as [| c head] eqn:Hsub;
      [simpl in Hlen; discriminate |].
    simpl truthy. simpl negb. cbv iota.
    exists (String c head ++ "..."). split; [reflexivity |].
    split; [rewrite length_append, Hlen; simpl; lia |].
    split; [intros ->; simpl in Hlong; lia |].
    split; [lia |].
    intros _. exists (String c head), tail. auto.
  - apply Nat.ltb_ge in Hlong.
    destruct error_msg as [| c rest].
    + exists "Check terminal for details.". split; [reflexivity |].
      split; [simpl; lia |]. split; [reflexivity |].
      split; simpl; lia.
    + exists (String c rest). split; [reflexivity |].
      split; [simpl in *; lia |]. split; [discriminate |].
      split; [reflexivity | lia].
Qed.

(** X6.  An accepted start request.  When the trimmed text of the path
    entry is not empty, [on_start] returns after starting the thread of
    [_prepare_and_run] with the direction chosen and the trimmed path --
    which trimming leaves as it is --; it has disabled the start button,
    written the status [Initializing...] and the speed text
    [Calculating...], made the bar and the speed label visible, and set
    the baseline to fraction 0 at the current time.  It does not touch
    the byte count, nor the fraction and the text of the bar. *)
Theorem on_start_accepted
    (now : float) (self : ADBTransferApp)
    (Hpath : strip (path_entry_text self) <> "") :
  let r := on_start now self in
  let local_path := strip (path_entry_text self) in
  fst r = Ok (Some (mode_pull_active self, local_path))
  /\ strip local_path = local_path
  /\ (forall w,
        started_thread w now self
        = events (_prepare_and_run w (mode_pull_active self) local_path))
  /\ baseline (snd r) = (0%float, now)
  /\ start_btn_sensitive (snd r) = false
  /\ status_label_text (snd r) = "Initializing..."
  /\ speed_label_text (snd r) = "Calculating..."
  /\ progress_bar_opacity (snd r) = 1%float
  /\ speed_label_opacity (snd r) = 1%float
  /\ request (snd r) = request self
  /\ progress_bar_fraction (snd r) = progress_bar_fraction self
  /\ progress_bar_text (snd r) = progress_bar_text self
  /\ gtk_log (snd r) = (gtk_log self ++ start_calls)%list.
Proof.
  intros r local_path. subst r local_path.
  split; [| split; [apply strip_by_idem |]].
  - unfold on_start. ui_unfold.
    destruct (strip (path_entry_text self)); [contradiction | reflexivity].
  - unfold started_thread, on_start. ui_unfold.
    destruct (strip (path_entry_text self)) eqn:E; [contradiction |].
    simpl. unfold logged. simpl. repeat rewrite <- app_assoc.
    repeat split.
Qed.

(** X6 on a path typed with blanks around it, after a first transfer. *)
Lemma on_start_accepted_witness :
  fst (on_start 200 idle_app) = Ok (Some (true, "/home/u/out"))
  /\ baseline (snd (on_start 200 idle_app)) = (0%float, 200%float)
  /\ start_btn_sensitive (snd (on_start 200 idle_app)) = false
  /\ total_bytes (snd (on_start 200 idle_app)) = 1000
  /\ progress_bar_text (snd (on_start 200 idle_app)) = "100%".
Proof.
  assert (Hpath : strip (path_entry_text idle_app) <> "")
    by (vm_compute; discriminate).
  destruct (on_start_accepted 200 idle_app Hpath)
    as (Hret & _ & _ & Hbase & Hbtn & _ & _ & _ & _ & Hreq & _ & Htext & _).
  split; [exact Hret |]. split; [exact Hbase |]. split; [exact Hbtn |].
  split; [exact (f_equal (fun q => fst (fst q)) Hreq) | exact Htext].
Defined.

Lemma run_task_keeps_request
    (now : float) (t : task) (self : ADBTransferApp) :
  request (snd (run_task now t self)) = request self.
Proof.
  unfold request.
  destruct t as [fraction | success error_msg | text]; simpl.
  - destruct (update_ui_progress_keeps now fraction self)
      as (-> & -> & -> & _).
    reflexivity.
  - unfold on_transfer_finished. ui_unfold. destruct success; reflexivity.
  - reflexivity.
Qed.

Lemma main_loop_app (q1 q2 : list (float * task)) :
  forall self, main_loop (q1 ++ q2) self = main_loop q2 (main_loop q1 self).
Proof.
  induction q1 as [| [now t] q1 IH]; intros self; simpl; [reflexivity |].
  apply IH.
Qed.

(** X7.  Whatever calls are queued for the main loop, at whatever
    times and whether they return or raise, running them leaves the
    transfer request as it was: the byte count, the text of the path
    entry and the direction chosen are never written by a queued
    call. *)
Theorem main_loop_keeps_request (queue : list (float * task)) :
  forall self, request (main_loop queue self) = request self.
Proof.
  induction queue as [| [now t] rest IH]; intros self; simpl.
  - reflexivity.
  - now rewrite IH, run_task_keeps_request.
Qed.

(** *** The first rate of a transfer *)

Lemma sized_fields (now : float) (size_bytes : Z) (self : ADBTransferApp) :
  strip (path_entry_text self) <> "" ->
  total_bytes (sized now size_bytes self) = size_bytes
  /\ last_fraction (sized now size_bytes self) = 0%float
  /\ last_time (sized now size_bytes self) = now.
Proof.
  intros Hpath. unfold sized, on_start. ui_unfold.
  destruct (strip (path_entry_text self)); [contradiction |].
  repeat split.
Qed.

(** X21.  The first rate of a transfer is counted from the start
    request.  After [on_start] at time [now] and the assignment of a
    positive byte count by the thread, the first progress update that
    comes more than half a second after [now] with a fraction that is
    finite and not negative writes the speed
    [(fraction - 0) * total_bytes / (current_time - now)]: the time the
    thread spent on the device check and on the size is part of the
    interval.  The baseline then moves to the sample. *)
Theorem first_rate_since_start
    (now current_time fraction : float) (size_bytes : Z) (total : float)
    (self : ADBTransferApp)
    (Hpath : strip (path_entry_text self) <> "")
    (Hclock : (0 <? now)%float = true)
    (Hsize : 0 < size_bytes)
    (Htotal : float_of_int size_bytes = Ok total)
    (Hlate : (0.5 <? current_time - now)%float = true)
    (Hfin : isfinite fraction = true)
    (Hfwd : (0 <=? fraction)%float = true) :
  let r := update_ui_progress current_time fraction (sized now size_bytes self) in
  speed_label_text (snd r)
  = format_speed ((fraction - 0) * total / (current_time - now))%float
  /\ baseline (snd r) = (fraction, current_time).
Proof.
  intros r. subst r.
  destruct (sized_fields now size_bytes self Hpath) as (Htb & Hlf & Hlt).
  rewrite update_ui_progress_eq.
  unfold sampled, estimator_armed, sample_speed.
  rewrite Htb, Hlf, Hlt, Hclock, Hlate, Htotal.
  apply Z.ltb_lt in Hsize. rewrite Hsize. simpl andb. cbv iota.
  rewrite (IEEE.sub_ge fraction 0 Hfin eq_refl Hfwd).
  match goal with
  | |- context [rebase_and_show _ _ ?a] =>
      destruct (rebase_and_show_spec current_time fraction a)
        as (_ & Hb & Hs & _)
  end.
  split; [exact Hs | exact Hb].
Qed.

(** X21 on a first sample two seconds after the start request. *)
Lemma first_rate_since_start_witness :
  speed_label_text
    (snd (update_ui_progress 202 0.5 (sized 200 1000 idle_app)))
  = "250 B/s".
Proof.
  assert (Hpath : strip (path_entry_text idle_app) <> "")
    by (vm_compute; discriminate).
  rewrite (proj1 (first_rate_since_start 200 202 0.5 1000 1000 idle_app
                    Hpath eq_refl eq_refl eq_refl eq_refl eq_refl eq_refl)).
  reflexivity.
Defined.

(** ** The transfer thread, case by case *)

Lemma get_remote_size_value (w : world) (remote_path : string) :
  get_remote_size w remote_path
  = ([Subprocess_run ["adb"; "shell"; "du"; "-s"; "-b"; remote_path]],
     Returned (du_size w remote_path)).
Proof. reflexivity. Qed.

(** The ways of [_prepare_and_run]. *)
Lemma prepare_and_run_cases
    (w : world) (is_pull : bool) (local_path : string) :
  let run := _prepare_and_run w is_pull local_path in
  (device_present w = false /\ run = (device_error, Returned tt))
  \/ (device_present w = true /\ is_pull = false
      /\ path_found w local_path = false
      /\ run = ([probe; Os_path_exists local_path;
                 Idle_add (On_transfer_finished false
                             "Local path does not exist")],
                Returned tt))
  \/ (exists e,
        dies_of w is_pull local_path e
        /\ run = (if is_pull
                  then [probe; Subprocess_run remote_du; Os_makedirs local_path]
                  else [probe; Os_path_exists local_path;
                        Subprocess_run remote_mkdir],
                  Raised e))
  \/ (prepared w is_pull local_path
      /\ run = ((preparation is_pull local_path
                   ++ launch (transfer_size w is_pull local_path)
                        (transfer_cmd w is_pull local_path)
                   ++ events (reader w (transfer_cmd w is_pull local_path)))%list,
                outcome (reader w (transfer_cmd w is_pull local_path)))).
Proof.
  intros run. subst run. unfold prepared, dies_of.
  destruct is_pull.
  - assert (H : _prepare_and_run w true local_path
        = if negb (device_present w) then (device_error, Returned tt)
          else if negb (makedirs_ok w local_path) then
            ([probe; Subprocess_run remote_du; Os_makedirs local_path],
             Raised OSError)
          else
            ((preparation true local_path
                ++ launch (transfer_size w true local_path)
                     (transfer_cmd w true local_path)
                ++ events (reader w (transfer_cmd w true local_path)))%list,
             outcome (reader w (transfer_cmd w true local_path)))).
    { unfold _prepare_and_run.
      rewrite check_adb_device_spec, get_remote_size_value.
      unfold os_makedirs, run_adb_command_with_progress, remote_du,
        transfer_cmd, transfer_size, reader, pipeline_cmd, device_error.
      bg_unfold.
      destruct (device_present w); simpl; [| reflexivity].
      destruct (makedirs_ok w local_path); simpl; [| reflexivity].
      destruct (read_stderr _ _ _) as [evs st]; reflexivity. }
    rewrite H.
    destruct (device_present w); simpl; [| now left].
    destruct (makedirs_ok w local_path); simpl.
    + right. right. right. auto.
    + right. right. left. exists OSError. auto.
  - rewrite prepare_and_run_push.
    destruct (device_present w); simpl; [| now left].
    destruct (path_found w local_path); simpl; [| right; left; auto].
    destruct (run_process w remote_mkdir) as [res | e] eqn:Hmk.
    + right. right. right. split; [eauto |]. reflexivity.
    + right. right. left. exists e. auto.
Qed.

Lemma reader_spec (w : world) (cmd : string) :
  reader w cmd
  = match exit_status (popen w cmd) with
    | Some rc =>
        ((queued Update_ui_progress (progress_samples (lines_read (popen w cmd)))
            ++ [Idle_add (On_transfer_finished
                            (rc =? 0)
                            (if rc =? 0 then ""
                             else join newline
                                    (diagnostic_log (lines_read (popen w cmd)))))])%list,
         Returned tt)
    | None =>
        (queued Update_ui_progress (progress_samples (lines_read (popen w cmd))),
         match read_error (popen w cmd) with
         | Some e => Raised e
         | None => Pending
         end)
    end.
Proof.
  unfold reader. rewrite read_stderr_spec. unfold transfer_outcome.
  destruct (exit_status (popen w cmd)); reflexivity.
Qed.


(** The tasks of a reader: samples, then the completion if it ended. *)
Lemma reader_tasks (w : world) (cmd : string) :
  exists samples,
    match outcome (reader w cmd) with
    | Returned _ =>
        exists success error_msg,
          idle_tasks (events (reader w cmd))
          = (map Update_ui_progress samples
               ++ [On_transfer_finished success error_msg])%list
    | _ => idle_tasks (events (reader w cmd)) = map Update_ui_progress samples
    end.
Proof.
  rewrite reader_spec.
  exists (progress_samples (lines_read (popen w cmd))).
  destruct (exit_status (popen w cmd)) as [rc |]; unfold events, outcome; simpl.
  - eexists. eexists. rewrite idle_tasks_app, idle_tasks_queued. reflexivity.
  - destruct (read_error (popen w cmd)); apply idle_tasks_queued.
Qed.

Lemma idle_tasks_preparation (is_pull : bool) (local_path : string) :
  idle_tasks (preparation is_pull local_path) = [].
Proof. destruct is_pull; reflexivity. Qed.

(** The tasks of a run: the status calls, the samples, and the
    completion last when the run returned. *)
Lemma prepare_and_run_tasks
    (w : world) (is_pull : bool) (local_path : string) :
  let run := _prepare_and_run w is_pull local_path in
  match outcome run with
  | Returned _ =>
      exists tasks success error_msg,
        idle_tasks (events run)
        = (tasks ++ [On_transfer_finished success error_msg])%list
        /\ filter is_finished tasks = []
  | _ => filter is_finished (idle_tasks (events run)) = []
  end.
Proof.
  intros run. subst run.
  destruct (prepare_and_run_cases w is_pull local_path)
    as [(_ & ->) | [(_ & _ & _ & ->) | [(e & _ & ->) | (_ & ->)]]];
    unfold outcome, events; simpl fst; simpl snd.
  - exists [Status_label_set_text "Device Error"]. eexists. eexists.
    split; reflexivity.
  - exists []. eexists. eexists. split; reflexivity.
  - destruct is_pull; reflexivity.
  - rewrite !idle_tasks_app, idle_tasks_preparation. simpl.
    destruct (reader_tasks w (transfer_cmd w is_pull local_path))
      as [samples H].
    fold (outcome (reader w (transfer_cmd w is_pull local_path))).
    fold (events (reader w (transfer_cmd w is_pull local_path))).
    destruct (outcome (reader w (transfer_cmd w is_pull local_path)))
      as [[] | e |] eqn:Hout.
    + destruct H as (success & error_msg & ->).
      exists (Status_label_set_text "Transferring..."
                :: map Update_ui_progress samples), success, error_msg.
      split; [reflexivity |]. simpl. apply no_outcome_among_progress.
    + rewrite H. simpl. apply no_outcome_among_progress.
    + rewrite H. simpl. apply no_outcome_among_progress.
Qed.


Lemma not_prepared_dies
    (w : world) (is_pull : bool) (local_path : string) (e : exn) :
  prepared w is_pull local_path -> dies_of w is_pull local_path e -> False.
Proof.
  unfold prepared, dies_of. intros [_ Hp] [_ Hd].
  destruct is_pull.
  - destruct Hd as [Hd _]. congruence.
  - destruct Hp as [_ [res Hp]]. destruct Hd as [_ Hd]. congruence.
Qed.

(** X8.  Without a device -- [adb get-state] cannot be run or exits
    with a code that is not zero -- a transfer in either direction does
    nothing but report it: no size is asked for, no directory is made,
    no path is checked and no pipeline is launched.  The thread queues
    the status [Device Error] and then the completion, so that the main
    loop ends on the status [Transfer Failed], with the message of the
    toast shown in full. *)
Theorem device_absent_reported
    (w : world) (is_pull : bool) (local_path : string)
    (Habsent : device_present w = false) :
  let run := _prepare_and_run w is_pull local_path in
  run = (device_error, Returned tt)
  /\ forall queue self,
       map snd queue = idle_tasks (events run) ->
       status_label_text (main_loop queue self) = "Transfer Failed"
       /\ start_btn_sensitive (main_loop queue self) = true
       /\ gtk_log (main_loop queue self)
          = (gtk_log self ++ Status_set_text "Device Error" :: release_calls
               ++ [Status_set_text "Transfer Failed";
                   Add_toast "Error: ADB Device not connected or unauthorized"])%list.
Proof.
  intros run. subst run.
  destruct (prepare_and_run_cases w is_pull local_path)
    as [(_ & ->) | [(H & _) | [(e & (H & _) & _) | ((H & _) & _)]]];
    try congruence.
  split; [reflexivity |].
  intros queue self Hq. unfold events in Hq. simpl in Hq.
  destruct queue as [| [t1 a] [| [t2 b] [| c queue]]]; try discriminate.
  injection Hq as -> ->.
  simpl. unfold logged. simpl. repeat rewrite <- app_assoc.
  repeat split.
Qed.

(** X8 on a pull without a device. *)
Lemma device_absent_reported_witness :
  device_present no_device = false
  /\ _prepare_and_run no_device true "/home/u/out"
     = (device_error, Returned tt)
  /\ status_label_text
       (main_loop
          [(7%float, Status_label_set_text "Device Error");
           (8%float, On_transfer_finished false
                       "ADB Device not connected or unauthorized")]
          new_app)
     = "Transfer Failed".
Proof.
  split; [reflexivity |].
  destruct (device_absent_reported no_device true "/home/u/out" eq_refl)
    as [Hrun Hloop].
  split; [exact Hrun |].
  refine (proj1 (Hloop [(7%float, _); (8%float, _)] new_app _)).
  rewrite Hrun. reflexivity.
Defined.

(** X9.  The order of a transfer that gets to its pipeline.  When the
    device is there and the preparation succeeds, the thread first
    prepares (a pull asks the device for the size and makes the
    destination directory; a push checks the path, makes the directory
    on the device and walks the local tree), then stores the byte
    count, queues the status [Transferring...] and starts the shell on
    the pipeline built from that byte count; after that it only queues
    calls for the main loop, and it ends as the reader of the pipeline
    ends.  So the byte count is stored before any progress call is
    queued, and a byte count of zero stops nothing. *)
Theorem pipeline_launch_sequence
    (w : world) (is_pull : bool) (local_path : string)
    (Hready : prepared w is_pull local_path) :
  let run := _prepare_and_run w is_pull local_path in
  let size_bytes := transfer_size w is_pull local_path in
  let cmd := pipeline_cmd is_pull local_path size_bytes in
  events run
  = (preparation is_pull local_path ++ launch size_bytes cmd
       ++ events (reader w cmd))%list
  /\ outcome run = outcome (reader w cmd)
  /\ forall e, In e (events (reader w cmd)) -> exists t, e = Idle_add t.
Proof.
  intros run size_bytes cmd. subst run size_bytes cmd.
  fold (transfer_cmd w is_pull local_path).
  destruct (prepare_and_run_cases w is_pull local_path)
    as [(H & _) | [(_ & -> & H & _) | [(e & H & _) | (_ & ->)]]].
  - destruct Hready as [Hready _]. congruence.
  - destruct Hready as [_ [Hready _]]. congruence.
  - destruct (not_prepared_dies _ _ _ _ Hready H).
  - split; [reflexivity |]. split; [reflexivity |].
    intros e. apply reader_events_are_idle.
Qed.

(** X9 on the pull of 1000 bytes. *)
Lemma pipeline_launch_sequence_witness :
  prepared pull_1000 true "/home/u/out"
  /\ events (_prepare_and_run pull_1000 true "/home/u/out")
     = (preparation true "/home/u/out" ++ launch 1000 pull_1000_cmd
          ++ [Idle_add (Update_ui_progress 0);
              Idle_add (Update_ui_progress 0.5);
              Idle_add (Update_ui_progress 1);
              Idle_add (On_transfer_finished true "")])%list.
Proof.
  assert (Hready : prepared pull_1000 true "/home/u/out")
    by (split; reflexivity).
  split; [exact Hready |].
  exact (proj1 (pipeline_launch_sequence pull_1000 true "/home/u/out" Hready)).
Defined.

(** X10.  No pipeline without preparation.  A shell command is started
    only when the device is there and the preparation has succeeded,
    and then it is the pipeline of the byte count stored just before:
    no transfer is attempted without a device, from a local path that
    does not exist, or after a failure to make a directory. *)
Theorem launch_only_when_prepared
    (w : world) (is_pull : bool) (local_path cmd : string)
    (Hlaunched : In (Popen_shell cmd)
                    (events (_prepare_and_run w is_pull local_path))) :
  prepared w is_pull local_path
  /\ cmd = pipeline_cmd is_pull local_path (transfer_size w is_pull local_path)
  /\ In (Store_total_bytes (transfer_size w is_pull local_path))
        (events (_prepare_and_run w is_pull local_path)).
Proof.
  revert Hlaunched.
  destruct (prepare_and_run_cases w is_pull local_path)
    as [(_ & ->) | [(_ & _ & _ & ->) | [(e & _ & ->) | (Hready & ->)]]];
    unfold events; simpl fst.
  - intros [H | [H | [H | []]]]; discriminate.
  - intros [H | [H | [H | []]]]; discriminate.
  - destruct is_pull; intros [H | [H | [H | []]]]; discriminate.
  - intros H. split; [exact Hready |].
    apply in_app_or in H. destruct H as [H | H].
    { destruct is_pull; simpl in H; repeat destruct H as [H | H];
        try discriminate; contradiction. }
    split.
    + destruct H as [H | [H | [H | H]]]; try discriminate.
      * now injection H as <-.
      * apply reader_events_are_idle in H. destruct H as [t H]. discriminate.
    + apply in_or_app. right. now left.
Qed.

(** X10 on the pull of 1000 bytes. *)
Lemma launch_only_when_prepared_witness :
  In (Popen_shell pull_1000_cmd)
     (events (_prepare_and_run pull_1000 true "/home/u/out"))
  /\ prepared pull_1000 true "/home/u/out"
  /\ transfer_size pull_1000 true "/home/u/out" = 1000.
Proof.
  assert (H : In (Popen_shell pull_1000_cmd)
                (events (_prepare_and_run pull_1000 true "/home/u/out")))
    by (vm_compute; auto 10).
  split; [exact H |].
  split; [| reflexivity].
  exact (proj1 (launch_only_when_prepared pull_1000 true "/home/u/out"
                  pull_1000_cmd H)).
Defined.

(** X11.  A thread that dies.  When the device is there but the
    destination directory of a pull cannot be made, or the command that
    makes the directory on the device cannot be run for a push, the
    exception is caught by nothing: the thread ends with it, having
    queued no call at all for the main loop -- no status, no completion
    -- and launched no pipeline.  The main loop has nothing to run, so
    the application stays as the start request left it. *)
Theorem thread_dies_silently
    (w : world) (is_pull : bool) (local_path : string) (e : exn)
    (Hdies : dies_of w is_pull local_path e) :
  let run := _prepare_and_run w is_pull local_path in
  outcome run = Raised e
  /\ idle_tasks (events run) = []
  /\ (forall cmd, ~ In (Popen_shell cmd) (events run))
  /\ (forall size_bytes, ~ In (Store_total_bytes size_bytes) (events run))
  /\ forall queue self,
       map snd queue = idle_tasks (events run) -> main_loop queue self = self.
Proof.
  intros run. subst run.
  destruct (prepare_and_run_cases w is_pull local_path)
    as [(H & _) | [(_ & -> & H & _) | [(e' & H & ->) | (H & _)]]].
  - destruct Hdies as [Hdies _]. congruence.
  - destruct Hdies as [_ [Hdies _]]. congruence.
  - assert (e' = e) as ->.
    { destruct is_pull; destruct H as [_ [H1 H2]]; destruct Hdies as [_ [H3 H4]];
        congruence. }
    unfold outcome, events. simpl fst. simpl snd.
    split; [reflexivity |].
    split; [destruct is_pull; reflexivity |].
    split; [| split].
    + intros cmd. destruct is_pull; intros [F | [F | [F | []]]]; discriminate.
    + intros n. destruct is_pull; intros [F | [F | [F | []]]]; discriminate.
    + intros queue self Hq.
      replace (idle_tasks _) with (@nil task) in Hq
        by (destruct is_pull; reflexivity).
      destruct queue; [reflexivity | discriminate].
  - destruct (not_prepared_dies _ _ _ _ H Hdies).
Qed.

(** X11 on a pull into a directory that cannot be made. *)
Lemma thread_dies_silently_witness :
  dies_of read_only_disk true "/home/u/out" OSError
  /\ _prepare_and_run read_only_disk true "/home/u/out"
     = ([probe; Subprocess_run remote_du; Os_makedirs "/home/u/out"],
        Raised OSError)
  /\ idle_tasks (events (_prepare_and_run read_only_disk true "/home/u/out"))
     = [].
Proof.
  assert (H : dies_of read_only_disk true "/home/u/out" OSError)
    by (repeat split).
  split; [exact H |]. split; [reflexivity |].
  exact (proj1 (proj2 (thread_dies_silently read_only_disk true "/home/u/out"
                         OSError H))).
Defined.


Lemma map_snd_last {A B : Type} (queue : list (A * B)) (xs : list B) (x : B) :
  map snd queue = (xs ++ [x])%list ->
  exists q a, queue = (q ++ [(a, x)])%list /\ map snd q = xs.
Proof.
  intros H. apply map_eq_app in H.
  destruct H as (q & l & -> & Hq & Hl).
  destruct l as [| [a b] [| c l]]; try discriminate.
  simpl in Hl. injection Hl as ->.
  now exists q, a.
Qed.

(** X13.  A thread that returns releases the window.  Once the main
    loop has run the calls a returned transfer thread queued -- at any
    times, from any state, and whether or not some of them raised --
    the start button is enabled again, the progress bar and the speed
    label are hidden, the fraction is back to zero, and the status is
    [Transfer Complete!] or [Transfer Failed]. *)
Theorem returned_run_releases_ui
    (w : world) (is_pull : bool) (local_path : string)
    (queue : list (float * task)) (self : ADBTransferApp)
    (Hret : outcome (_prepare_and_run w is_pull local_path) = Returned tt)
    (Hqueue : map snd queue
              = idle_tasks (events (_prepare_and_run w is_pull local_path))) :
  let final := main_loop queue self in
  start_btn_sensitive final = true
  /\ progress_bar_opacity final = 0%float
  /\ progress_bar_fraction final = 0%float
  /\ speed_label_opacity final = 0%float
  /\ (status_label_text final = "Transfer Complete!"
      \/ status_label_text final = "Transfer Failed").
Proof.
  intros final. subst final.
  pose proof (prepare_and_run_tasks w is_pull local_path) as Htasks.
  cbv zeta in Htasks. rewrite Hret in Htasks.
  destruct Htasks as (tasks & success & error_msg & Htasks & _).
  rewrite Htasks in Hqueue.
  destruct (map_snd_last _ _ _ Hqueue) as (q & now & -> & _).
  rewrite main_loop_app. simpl.
  destruct (on_transfer_finished_effect success error_msg (main_loop q self))
    as (_ & Hbtn & Hop & Hfr & Hsp & Hst & _).
  repeat split; try assumption.
  rewrite Hst. destruct success; auto.
Qed.

(** X13 on the pull of 1000 bytes, after a start request. *)
Lemma returned_run_releases_ui_witness :
  outcome (_prepare_and_run pull_1000 true "/home/u/out") = Returned tt
  /\ start_btn_sensitive
       (main_loop
          [(10%float, Status_label_set_text "Transferring...");
           (11%float, Update_ui_progress 0);
           (12%float, Update_ui_progress 0.5);
           (13%float, Update_ui_progress 1);
           (14%float, On_transfer_finished true "")]
          (snd (on_start 9 half_way)))
     = true.
Proof.
  split; [reflexivity |].
  exact (proj1 (returned_run_releases_ui pull_1000 true "/home/u/out"
                  [(10%float, _); (11%float, _); (12%float, _);
                   (13%float, _); (14%float, _)]
                  (snd (on_start 9 half_way)) eq_refl eq_refl)).
Defined.

(** ** The size of a transfer *)

(** *** Decimal numerals *)

Lemma digits_rest_digit (c : ascii) (s : string) (v n : Z) :
  is_digit c = true ->
  digits_rest (String c s) v n = digits_rest s (10 * v + digit_val c) (n + 1).
Proof. intros H. cbn [digits_rest]. now rewrite H. Qed.

Lemma digits_rest_pos (d : Decimal.uint) :
  forall acc n,
    digits_rest (NilEmpty.string_of_uint d) (Z.pos acc) n
    = (Z.pos (Pos.of_uint_acc d acc), n + Z.of_nat (Decimal.nb_digits d), "").
Proof.
  induction d as [| d IH | d IH | d IH | d IH | d IH | d IH | d IH | d IH
                 | d IH | d IH];
    intros acc n;
    cbn [NilEmpty.string_of_uint Pos.of_uint_acc Decimal.nb_digits];
    [simpl; now rewrite Z.add_0_r | ..];
    (rewrite digits_rest_digit by reflexivity;
     match goal with
     | |- context [digit_val ?c] =>
         let k := eval vm_compute in (digit_val c) in
         change (digit_val c) with k
     end;
     match goal with
     | |- digits_rest _ ?v _ = (Z.pos (Pos.of_uint_acc _ ?a), _, _) =>
         replace v with (Z.pos a) by lia
     end;
     rewrite IH;
     apply f_equal2; [apply f_equal2; [reflexivity | lia] | reflexivity]).
Qed.

Lemma digits_rest_zero (d : Decimal.uint) :
  forall n,
    digits_rest (NilEmpty.string_of_uint d) 0 n
    = (Z.of_N (Pos.of_uint d), n + Z.of_nat (Decimal.nb_digits d), "").
Proof.
  induction d as [| d IH | d IH | d IH | d IH | d IH | d IH | d IH | d IH
                 | d IH | d IH];
    intros n;
    cbn [NilEmpty.string_of_uint Pos.of_uint Decimal.nb_digits Z.of_N];
    [simpl; now rewrite Z.add_0_r
    | rewrite digits_rest_digit by reflexivity;
      change (10 * 0 + digit_val "0") with 0; rewrite IH;
      apply f_equal2; [apply f_equal2; [reflexivity | lia] | reflexivity]
    | ..];
    (rewrite digits_rest_digit by reflexivity;
     match goal with
     | |- context [digit_val ?c] =>
         let k := eval vm_compute in (digit_val c) in
         change (digit_val c) with k
     end;
     change (10 * 0 + ?k) with k;
     rewrite digits_rest_pos;
     apply f_equal2; [apply f_equal2; [reflexivity | lia] | reflexivity]).
Qed.

Lemma to_uint_digits (p : positive) :
  exists c s,
    NilZero.string_of_uint (Pos.to_uint p) = String c s
    /\ NilEmpty.string_of_uint (Pos.to_uint p) = String c s
    /\ is_digit c = true
    /\ (0 < Decimal.nb_digits (Pos.to_uint p))%nat.
Proof.
  pose proof (DecimalPos.Unsigned.of_to p) as H.
  destruct (Pos.to_uint p) as [| d | d | d | d | d | d | d | d | d | d];
    [discriminate | ..]; simpl; eexists; eexists;
    (split; [reflexivity |]); (split; [reflexivity |]);
    (split; [reflexivity | lia]).
Qed.

Lemma opt_sign_digit (c : ascii) (s : string) :
  is_digit c = true -> opt_sign (String c s) = (false, String c s).
Proof.
  intros H. unfold opt_sign.
  destruct c as [[] [] [] [] [] [] [] []]; try reflexivity; discriminate.
Qed.

Lemma opt_digitpart_digit (c : ascii) (s : string) (v n : Z) :
  is_digit c = true ->
  opt_digitpart (String c s) v n = digits_rest (String c s) v n.
Proof. intros H. cbn [opt_digitpart digits_rest]. now rewrite H. Qed.

(** *** Words and white space *)

Section Words.

Variable space : ascii -> bool.

Lemma rstrip_by_word (s : string) :
  all_chars (fun c => negb (space c)) s = true -> rstrip_by space s = s.
Proof.
  induction s as [| c s IH]; simpl; [reflexivity |].
  intros H. apply andb_prop in H. destruct H as [Hc Hs].
  apply negb_true_iff in Hc. rewrite Hc, IH by assumption. reflexivity.
Qed.

Lemma strip_by_word (s : string) :
  all_chars (fun c => negb (space c)) s = true -> strip_by space s = s.
Proof.
  intros H. unfold strip_by.
  replace (lstrip_by space s) with s; [now apply rstrip_by_word |].
  destruct s as [| c s]; [reflexivity |].
  simpl in *. apply andb_prop in H. destruct H as [Hc _].
  apply negb_true_iff in Hc. now rewrite Hc.
Qed.

End Words.

Lemma all_chars_impl (p q : ascii -> bool) (s : string) :
  (forall c, p c = true -> q c = true) ->
  all_chars p s = true -> all_chars q s = true.
Proof.
  intros Hpq. induction s as [| c s IH]; simpl; [reflexivity |].
  intros H. apply andb_prop in H. destruct H as [Hc Hs].
  now rewrite (Hpq c Hc), IH.
Qed.

Lemma numeral_char_not_space (c : ascii) :
  numeral_char c = true -> negb (isspace c) = true.
Proof.
  destruct c as [[] [] [] [] [] [] [] []]; try reflexivity; discriminate.
Qed.

Lemma numeral_char_not_space_num (c : ascii) :
  numeral_char c = true -> negb (isspace_num c) = true.
Proof.
  destruct c as [[] [] [] [] [] [] [] []]; try reflexivity; discriminate.
Qed.

Lemma string_of_uint_chars (d : Decimal.uint) :
  all_chars numeral_char (NilEmpty.string_of_uint d) = true.
Proof. induction d; simpl; auto. Qed.

Lemma str_of_int_chars (n : Z) :
  all_chars numeral_char (str_of_int n) = true
  /\ exists c s, str_of_int n = String c s.
Proof.
  unfold str_of_int.
  destruct n as [| p | p]; [split; [reflexivity | eexists; eexists; reflexivity]
                           | |];
    destruct (to_uint_digits p) as (c & s & H0 & He & _);
    cbn [Z.to_int NilZero.string_of_int]; rewrite H0, <- He.
  - split; [apply string_of_uint_chars | rewrite He; eauto].
  - split; [| eauto]. cbn [all_chars].
    now rewrite string_of_uint_chars.
Qed.

Lemma split_from_word (tok s : string) :
  all_chars (fun c => negb (isspace c)) tok = true ->
  forall cur,
    split_from (tok ++ s) cur
    = split_from s (rev (list_ascii_of_string tok) ++ cur)%list.
Proof.
  induction tok as [| c tok IH]; intros H cur; [reflexivity |].
  simpl in H. apply andb_prop in H. destruct H as [Hc Htok].
  apply negb_true_iff in Hc.
  cbn [append split_from list_ascii_of_string rev]. rewrite Hc.
  rewrite IH by assumption. now rewrite <- app_assoc.
Qed.

Lemma string_of_rev_word (tok : string) :
  string_of_rev (rev (list_ascii_of_string tok) ++ [])%list = tok.
Proof.
  unfold string_of_rev.
  now rewrite app_nil_r, rev_involutive, string_of_list_ascii_of_string.
Qed.

(** The first field of a word followed by white space is the word. *)
Lemma split_word_first (tok : string) (c : ascii) (rest : string) :
  all_chars (fun c => negb (isspace c)) tok = true ->
  tok <> "" -> isspace c = true ->
  split (tok ++ String c rest) = tok :: split rest.
Proof.
  intros Htok Hne Hc. unfold split. rewrite split_from_word by assumption.
  cbn [split_from]. rewrite Hc.
  destruct (rev (list_ascii_of_string tok) ++ [])%list as [| a l] eqn:E.
  - apply (f_equal string_of_rev) in E. rewrite string_of_rev_word in E.
    contradiction.
  - rewrite <- E. now rewrite string_of_rev_word.
Qed.

(** Trimming changes no field. *)
Lemma split_from_rstrip (s : string) :
  forall cur, split_from (rstrip_by isspace s) cur = split_from s cur.
Proof.
  induction s as [| c s IH]; intros cur; [reflexivity |].
  cbn [rstrip_by].
  destruct (isspace c) eqn:Hc; simpl andb; cbv iota.
  - destruct (is_empty (rstrip_by isspace s)) eqn:He.
    + pose proof (IH []) as H0.
      destruct (rstrip_by isspace s); [| discriminate].
      cbn [split_from] in *. rewrite Hc, <- H0. now destruct cur.
    + cbn [split_from]. rewrite Hc, !IH. reflexivity.
  - cbn [split_from]. rewrite Hc. apply IH.
Qed.

Lemma split_strip (s : string) : split (strip s) = split s.
Proof.
  unfold split, strip, strip_by. rewrite split_from_rstrip.
  induction s as [| c s IH]; [reflexivity |].
  cbn [lstrip_by]. destruct (isspace c) eqn:Hc; [| reflexivity].
  rewrite IH. cbn [split_from]. now rewrite Hc.
Qed.

(** *** [int] reads what [str] writes *)

Lemma of_uint_acc_lower (d : Decimal.uint) :
  forall acc,
    Z.pos acc * 10 ^ Z.of_nat (Decimal.nb_digits d)
    <= Z.pos (Pos.of_uint_acc d acc).
Proof.
  induction d as [| d IH | d IH | d IH | d IH | d IH | d IH | d IH | d IH
                 | d IH | d IH];
    intros acc; cbn [Pos.of_uint_acc Decimal.nb_digits];
    [simpl; lia | ..];
    (rewrite Nat2Z.inj_succ, Z.pow_succ_r by lia;
     eapply Z.le_trans; [| apply IH];
     apply Z.le_trans
       with (Z.pos acc * 10 * 10 ^ Z.of_nat (Decimal.nb_digits d)); [lia |];
     apply Z.mul_le_mono_nonneg_r; [apply Z.pow_nonneg |]; lia).
Qed.

Lemma to_uint_canonical (p : positive) :
  Decimal.unorm (Pos.to_uint p) = Pos.to_uint p.
Proof.
  pose proof (DecimalPos.Unsigned.to_of (Pos.to_uint p)) as H.
  rewrite DecimalPos.Unsigned.of_to in H. symmetry. exact H.
Qed.

(** A number below [10 ** k] has at most [k] digits. *)
Lemma to_uint_digits_bound (p : positive) (k : Z) :
  0 <= k -> Z.pos p < 10 ^ k ->
  Z.of_nat (Decimal.nb_digits (Pos.to_uint p)) <= k.
Proof.
  intros Hk Hp.
  pose proof (DecimalPos.Unsigned.of_to p) as Hof.
  pose proof (to_uint_canonical p) as Hcan.
  pose proof (DecimalPos.Unsigned.to_uint_nonzero p) as Hnz.
  assert (Hlow : forall d acc,
             Pos.of_uint_acc d acc = p ->
             Z.of_nat (S (Decimal.nb_digits d)) <= k).
  { intros d acc <-.
    pose proof (of_uint_acc_lower d acc) as H.
    assert (H1 : 10 ^ Z.of_nat (Decimal.nb_digits d) < 10 ^ k).
    { eapply Z.le_lt_trans; [| exact Hp].
      eapply Z.le_trans; [| exact H].
      assert (0 < 10 ^ Z.of_nat (Decimal.nb_digits d))
        by (apply Z.pow_pos_nonneg; lia).
      nia. }
    apply Z.pow_lt_mono_r_iff in H1; lia. }
  destruct (Pos.to_uint p) as [| d | d | d | d | d | d | d | d | d | d];
    cbn [Pos.of_uint] in Hof;
    try (injection Hof as Hof; exact (Hlow _ _ Hof)).
  - discriminate.
  - exfalso. unfold Decimal.unorm in Hcan. cbn [Decimal.nzhead] in Hcan.
    pose proof (DecimalFacts.nb_digits_nzhead d) as Hle.
    destruct (Decimal.nzhead d) eqn:Hd;
      [apply Hnz; exact (eq_sym Hcan) | ..];
      (rewrite Hcan in Hle; cbn [Decimal.nb_digits] in Hle; lia).
Qed.

Lemma int_of_str_str_of_int (n : Z) :
  Z.abs n < 10 ^ int_max_str_digits -> int_of_str (str_of_int n) = Ok n.
Proof.
  intros Hsize.
  destruct (str_of_int_chars n) as [Hchars _].
  unfold int_of_str, strip_num.
  rewrite strip_by_word
    by (revert Hchars; apply all_chars_impl, numeral_char_not_space_num).
  unfold str_of_int.
  destruct n as [| p | p]; [reflexivity | |];
    destruct (to_uint_digits p) as (c & s & H0 & He & Hc & Hlen);
    pose proof (to_uint_digits_bound p int_max_str_digits
                  ltac:(discriminate) Hsize) as Hmax;
    cbn [Z.to_int NilZero.string_of_int]; rewrite H0.
  - rewrite opt_sign_digit, opt_digitpart_digit by assumption.
    rewrite <- He, digits_rest_zero, DecimalPos.Unsigned.of_to.
    replace (0 <? 0 + Z.of_nat (Decimal.nb_digits (Pos.to_uint p))) with true
      by (symmetry; apply Z.ltb_lt; lia).
    replace (0 + Z.of_nat (Decimal.nb_digits (Pos.to_uint p))
             <=? int_max_str_digits) with true
      by (symmetry; apply Z.leb_le; rewrite Z.add_0_l; exact Hmax).
    reflexivity.
  - cbn [opt_sign]. rewrite opt_digitpart_digit by assumption.
    rewrite <- He, digits_rest_zero, DecimalPos.Unsigned.of_to.
    replace (0 <? 0 + Z.of_nat (Decimal.nb_digits (Pos.to_uint p))) with true
      by (symmetry; apply Z.ltb_lt; lia).
    replace (0 + Z.of_nat (Decimal.nb_digits (Pos.to_uint p))
             <=? int_max_str_digits) with true
      by (symmetry; apply Z.leb_le; rewrite Z.add_0_l; exact Hmax).
    reflexivity.
Qed.

(** *** [get_remote_size] *)

Lemma du_size_eq (w : world) (remote_path : string) :
  du_size w remote_path
  = match run_process w ["adb"; "shell"; "du"; "-s"; "-b"; remote_path] with
    | Ok result =>
        if returncode result =? 0 then
          match split (stdout result) with
          | tok :: _ =>
              match int_of_str tok with
              | Ok size_bytes => size_bytes
              | Raise _ => 0
              end
          | [] => 0
          end
        else 0
    | Raise _ => 0
    end.
Proof.
  unfold du_size, get_remote_size, outcome. bg_unfold. simpl.
  destruct (run_process w _) as [result | e]; [| reflexivity].
  destruct (returncode result =? 0); [| reflexivity].
  rewrite split_strip.
  destruct (strip (stdout result)) as [| c s] eqn:E.
  - rewrite <- split_strip, E. reflexivity.
  - simpl truthy. cbv iota.
    destruct (split (stdout result)); reflexivity.
Qed.

(** X14.  [get_remote_size] reads what [du] writes.  When the command
    exits with code 0 and its output is the decimal numeral of an
    integer, a white space character and anything -- as
    [du -s -b] prints a count, a tab and the path --, the function
    returns that integer, whatever its sign: [int] reads back what
    [str] writes.  The function has run that one command and nothing
    else.  The integer is taken below [10 ** 4300] in absolute value,
    the longest numeral the interpreter converts by default. *)
Theorem get_remote_size_reads_du
    (w : world) (remote_path : string) (res : completed)
    (n : Z) (c : ascii) (rest : string)
    (Hsize : Z.abs n < 10 ^ 4300)
    (Hrun : run_process w ["adb"; "shell"; "du"; "-s"; "-b"; remote_path]
            = Ok res)
    (Hexit : returncode res = 0)
    (Hsep : isspace c = true)
    (Hout : stdout res = str_of_int n ++ String c rest) :
  get_remote_size w remote_path
  = ([Subprocess_run ["adb"; "shell"; "du"; "-s"; "-b"; remote_path]],
     Returned n)
  /\ int_of_str (str_of_int n) = Ok n.
Proof.
  split; [| now apply int_of_str_str_of_int].
  rewrite get_remote_size_value, du_size_eq, Hrun, Hexit, Hout.
  destruct (str_of_int_chars n) as [Hchars (a & s & Hne)].
  rewrite split_word_first; try assumption.
  - now rewrite int_of_str_str_of_int.
  - revert Hchars. apply all_chars_impl, numeral_char_not_space.
  - rewrite Hne. discriminate.
Qed.

(** X14 on a folder of 174598144 bytes. *)
Lemma get_remote_size_reads_du_witness :
  get_remote_size (du_world "174598144") "/sdcard/Transfer"
  = ([Subprocess_run ["adb"; "shell"; "du"; "-s"; "-b"; "/sdcard/Transfer"]],
     Returned 174598144).
Proof.
  exact (proj1 (get_remote_size_reads_du (du_world "174598144")
                  "/sdcard/Transfer" _ 174598144 "009"%char
                  ("/sdcard/Transfer" ++ newline)
                  eq_refl eq_refl eq_refl eq_refl eq_refl)).
Defined.

(** X15.  [get_remote_size] never raises, and a size that is not zero
    comes from the device: the command was run, it exited with code 0,
    and the first field of its output reads as that integer.  A command
    that cannot be run or fails, an output that is blank, and a first
    field that is not an integer all give 0. *)
Theorem get_remote_size_falls_back (w : world) (remote_path : string) :
  let cmd := ["adb"; "shell"; "du"; "-s"; "-b"; remote_path] in
  exists size_bytes,
    get_remote_size w remote_path = ([Subprocess_run cmd], Returned size_bytes)
    /\ (size_bytes = 0
        \/ exists res tok fields,
             run_process w cmd = Ok res
             /\ returncode res = 0
             /\ split (stdout res) = tok :: fields
             /\ int_of_str tok = Ok size_bytes)
    /\ (forall e, run_process w cmd = Raise e -> size_bytes = 0)
    /\ (forall res,
          run_process w cmd = Ok res ->
          returncode res <> 0 \/ split (stdout res) = [] -> size_bytes = 0)
    /\ (forall res tok fields e,
          run_process w cmd = Ok res ->
          split (stdout res) = tok :: fields ->
          int_of_str tok = Raise e -> size_bytes = 0).
Proof.
  intros cmd. subst cmd. exists (du_size w remote_path).
  split; [apply get_remote_size_value |].
  rewrite du_size_eq.
  destruct (run_process w _) as [res | e].
  2:{ split; [now left |]. split; [reflexivity |].
      split; intros; discriminate. }
  destruct (returncode res =? 0) eqn:Hrc.
  2:{ split; [now left |]. split; [discriminate |].
      split; reflexivity. }
  apply Z.eqb_eq in Hrc.
  destruct (split (stdout res)) as [| tok fields] eqn:Hs.
  { split; [now left |]. split; [discriminate |]. split; reflexivity. }
  destruct (int_of_str tok) as [size_bytes | e] eqn:Hi.
  - split; [right; exists res, tok, fields; auto |].
    split; [discriminate |]. split.
    + intros res' H [Hne | Hnil]; injection H as <-.
      * contradiction.
      * rewrite Hs in Hnil. discriminate.
    + intros res' tok' fields' e H Hs' Hi'. injection H as <-.
      rewrite Hs in Hs'. injection Hs' as <- <-. congruence.
  - split; [now left |]. split; [discriminate |]. split; reflexivity.
Qed.

Lemma prepared_run
    (w : world) (is_pull : bool) (local_path : string) :
  prepared w is_pull local_path ->
  _prepare_and_run w is_pull local_path
  = ((preparation is_pull local_path
        ++ launch (transfer_size w is_pull local_path)
             (transfer_cmd w is_pull local_path)
        ++ events (reader w (transfer_cmd w is_pull local_path)))%list,
     outcome (reader w (transfer_cmd w is_pull local_path))).
Proof.
  intros Hready.
  destruct (prepare_and_run_cases w is_pull local_path)
    as [(H & _) | [(_ & -> & H & _) | [(e & H & _) | (_ & ->)]]].
  - destruct Hready as [Hready _]. congruence.
  - destruct Hready as [_ [Hready _]]. congruence.
  - destruct (not_prepared_dies _ _ _ _ Hready H).
  - reflexivity.
Qed.

(** X16.  The size hint of a push.  When a push gets to its pipeline,
    the byte count it stores and writes after [pv -n -s] is the one
    [get_local_size] computed for the local path: never negative, never
    more than the bytes of the regular files under the path, symbolic
    links left out, and exactly that many when every file can be
    examined. *)
Theorem push_size_is_tree_bytes
    (w : world) (local_path : string)
    (Hready : prepared w false local_path) :
  let run := _prepare_and_run w false local_path in
  exists size_bytes,
    events run
    = (preparation false local_path
         ++ launch size_bytes (push_cmd local_path size_bytes)
         ++ events (reader w (push_cmd local_path size_bytes)))%list
    /\ 0 <= size_bytes <= tree_bytes (local_fs w local_path)
    /\ (tree_stats_ok (local_fs w local_path) = true ->
        size_bytes = tree_bytes (local_fs w local_path)).
Proof.
  intros run. subst run.
  exists (get_local_size (local_fs w) local_path).
  rewrite (prepared_run _ _ _ Hready).
  split; [reflexivity |].
  apply get_local_size_adds.
Qed.

(** X16 on the sample tree: 114 bytes. *)
Lemma push_size_is_tree_bytes_witness :
  prepared push_world false "/home/u/out"
  /\ In (Store_total_bytes 114)
        (events (_prepare_and_run push_world false "/home/u/out"))
  /\ In (Popen_shell (push_cmd "/home/u/out" 114))
        (events (_prepare_and_run push_world false "/home/u/out")).
Proof.
  assert (Hready : prepared push_world false "/home/u/out").
  { split; [reflexivity |]. split; [reflexivity |]. eexists. reflexivity. }
  split; [exact Hready |].
  destruct (push_size_is_tree_bytes push_world "/home/u/out" Hready)
    as (size_bytes & Hev & _ & Hexact).
  rewrite (Hexact eq_refl) in Hev. rewrite Hev.
  split; apply in_or_app; right; simpl; auto.
Defined.

(** X17.  The size hint of a pull.  When the device is there, the
    destination directory can be made and [du] has printed a count, a
    white space character and anything, a pull stores that count and
    starts the pipeline whose metering stage is given that count; the
    thread then does what the reader of that pipeline does. *)
Theorem pull_size_is_du_count
    (w : world) (local_path : string) (res : completed)
    (n : Z) (c : ascii) (rest : string)
    (Hsize : Z.abs n < 10 ^ 4300)
    (Hdevice : device_present w = true)
    (Hmakedirs : makedirs_ok w local_path = true)
    (Hrun : run_process w remote_du = Ok res)
    (Hexit : returncode res = 0)
    (Hsep : isspace c = true)
    (Hout : stdout res = str_of_int n ++ String c rest) :
  let cmd := pull_cmd local_path n in
  _prepare_and_run w true local_path
  = (([probe; Subprocess_run remote_du; Os_makedirs local_path;
       Store_total_bytes n;
       Idle_add (Status_label_set_text "Transferring...");
       Popen_shell cmd] ++ events (reader w cmd))%list,
     outcome (reader w cmd))
  /\ cmd
     = archive_stage true local_path ++ " | "
       ++ metering_stage (str_of_int n) ++ " | "
       ++ extract_stage true local_path.
Proof.
  intros cmd. subst cmd.
  assert (Hready : prepared w true local_path) by (split; assumption).
  rewrite (prepared_run _ _ _ Hready).
  assert (Hn : transfer_size w true local_path = n).
  { unfold transfer_size. rewrite du_size_eq.
    fold remote_du. rewrite Hrun, Hexit, Hout.
    destruct (str_of_int_chars n) as [Hchars (a & s & Hne)].
    rewrite split_word_first; try assumption.
    - now rewrite int_of_str_str_of_int.
    - revert Hchars. apply all_chars_impl, numeral_char_not_space.
    - rewrite Hne. discriminate. }
  unfold transfer_cmd. rewrite Hn.
  split; [reflexivity |].
  apply (pipeline_cmd_stages true).
Qed.

(** X17 on a folder of 174598144 bytes. *)
Lemma pull_size_is_du_count_witness :
  In (Popen_shell (pull_cmd "/home/u/out" 174598144))
     (events (_prepare_and_run (du_world "174598144") true "/home/u/out")).
Proof.
  rewrite (proj1 (pull_size_is_du_count (du_world "174598144") "/home/u/out"
                    _ 174598144 "009"%char ("/sdcard/Transfer" ++ newline)
                    eq_refl eq_refl eq_refl eq_refl eq_refl eq_refl eq_refl)).
  unfold events. simpl. auto 10.
Defined.

(** *** The end of the stream *)

Lemma ended_prefix (steps more : list read_step) (rc : Z) :
  exit_status steps = Some rc ->
  exit_status (steps ++ more) = Some rc
  /\ lines_read (steps ++ more) = lines_read steps.
Proof.
  induction steps as [| step steps IH]; simpl; [discriminate |].
  unfold stream_ended, failed_read.
  destruct (line step) as [data | e]; simpl; [| discriminate].
  destruct (is_empty data && is_some (poll step)); [auto |].
  intros H. destruct (IH H) as [-> ->]. auto.
Qed.

(** X18.  The reader stops at the end of the stream.  Once a read has
    found the stream empty and the process ended, nothing that could be
    read afterwards matters: the thread has queued its samples and its
    one completion, and queues nothing more. *)
Theorem reader_stops_at_end
    (update_callback : float -> task)
    (finished_callback : bool -> string -> task)
    (steps more : list read_step) (rc : Z)
    (Hend : exit_status steps = Some rc) :
  read_stderr update_callback finished_callback (steps ++ more)
  = read_stderr update_callback finished_callback steps
  /\ outcome (read_stderr update_callback finished_callback steps)
     = Returned tt.
Proof.
  rewrite !read_stderr_spec.
  destruct (ended_prefix steps more rc Hend) as [-> ->]. rewrite Hend.
  split; [reflexivity |].
  destruct (transfer_outcome _ _). reflexivity.
Qed.

(** X18 on a stream with a line after its end. *)
Lemma reader_stops_at_end_witness :
  read_stderr Update_ui_progress On_transfer_finished
    ([reads "50"; ends 0] ++ [reads "100"; ends 1])%list
  = ([Idle_add (Update_ui_progress 0.5);
      Idle_add (On_transfer_finished true "")],
     Returned tt).
Proof.
  rewrite (proj1 (reader_stops_at_end Update_ui_progress On_transfer_finished
                    [reads "50"; ends 0] [reads "100"; ends 1] 0 eq_refl)).
  reflexivity.
Defined.

(** *** The diagnostic log *)

Lemma diagnostic_entry (raw l : string) :
  In l (diagnostic raw) ->
  l = strip raw /\ l <> "" /\ float_of_str l = Raise ValueError.
Proof.
  unfold diagnostic.
  destruct (float_of_str (strip raw)) as [x | e] eqn:Hf; [contradiction |].
  destruct (strip raw) as [| c s] eqn:Hs; simpl; [contradiction |].
  intros [<- | []]. split; [reflexivity |]. split; [discriminate |].
  now rewrite (float_of_str_raises _ _ Hf) in Hf.
Qed.

Lemma diagnostic_log_entry (lines : list string) (l : string) :
  In l (diagnostic_log lines) ->
  exists raw,
    In raw lines /\ l = strip raw /\ l <> ""
    /\ float_of_str l = Raise ValueError.
Proof.
  unfold diagnostic_log. intros Hin. apply in_flat_map in Hin.
  destruct Hin as (raw & Hraw & Hl).
  destruct (diagnostic_entry raw l Hl) as (-> & Hne & Hf).
  now exists raw.
Qed.



Lemma append_empty (a b : string) : a ++ b = "" -> a = "".
Proof. destruct a; [reflexivity | discriminate]. Qed.

Lemma join_empty (sep : string) (xs : list string) :
  Forall (fun x => x <> "") xs -> join sep xs = "" -> xs = [].
Proof.
  intros Hall. destruct Hall as [| x xs Hx _]; [reflexivity |].
  intros H. exfalso. apply Hx.
  destruct xs as [| y xs]; [exact H |].
  simpl in H. now apply append_empty in H.
Qed.

(** X20.  A failure without a word.  A pipeline whose stream is read
    to its end -- no read having failed -- and that ends with an exit
    code other than 0 is reported by a completion whose message is the
    log joined by line feeds; that message is empty exactly when the
    pipeline wrote no diagnostic line, and the toast then reads
    [Error: Check terminal for details.]. *)
Theorem silent_failure_message (w : world) (cmd : string) (rc : Z)
    (Hend : exit_status (popen w cmd) = Some rc)
    (Hfailed : rc <> 0) :
  let log := diagnostic_log (lines_read (popen w cmd)) in
  idle_tasks (events (reader w cmd))
  = (map Update_ui_progress (progress_samples (lines_read (popen w cmd)))
       ++ [On_transfer_finished false (join newline log)])%list
  /\ (join newline log = "" <-> log = [])
  /\ (log = [] ->
      forall self,
        gtk_log (snd (on_transfer_finished false (join newline log) self))
        = (gtk_log self ++ release_calls
             ++ [Status_set_text "Transfer Failed";
                 Add_toast "Error: Check terminal for details."])%list).
Proof.
  intros log. subst log.
  rewrite reader_spec, Hend. apply Z.eqb_neq in Hfailed. rewrite Hfailed.
  unfold events. simpl fst.
  split; [rewrite idle_tasks_app, idle_tasks_queued; reflexivity |].
  split.
  - split; [| intros ->; reflexivity].
    apply join_empty. apply Forall_forall. intros l Hl.
    now destruct (diagnostic_log_entry _ _ Hl) as (raw & _ & _ & Hne & _).
  - intros -> self. unfold on_transfer_finished, release_calls. ui_unfold.
    simpl. unfold logged. simpl. repeat rewrite <- app_assoc. reflexivity.
Qed.

(** X20 on a pipeline that exits with code 2 after one sample and a
    blank line. *)
Lemma silent_failure_message_witness :
  exit_status (popen silent_failure "cmd") = Some 2
  /\ diagnostic_log (lines_read (popen silent_failure "cmd")) = []
  /\ idle_tasks (events (reader silent_failure "cmd"))
     = [Update_ui_progress 0.5; On_transfer_finished false ""].
Proof.
  split; [reflexivity |]. split; [reflexivity |].
  destruct (silent_failure_message silent_failure "cmd" 2 eq_refl
              ltac:(discriminate)) as (Htasks & _).
  rewrite Htasks. reflexivity.
Defined.

(** ** The local size, when a file cannot be examined *)

Lemma add_files_app (a b : list (string * node)) (total_size : Z) :
  add_files (a ++ b) total_size
  = match add_files a total_size with
    | (total_size', Ok _) => add_files b total_size'
    | (total_size', Raise e) => (total_size', Raise e)
    end.
Proof.
  revert total_size.
  induction a as [| [f fp] a IH]; intros total_size; simpl; [reflexivity |].
  destruct (negb (islink fp)); [| apply IH].
  destruct (getsize fp) as [size | e]; [apply IH | reflexivity].
Qed.

Lemma add_files_readable (a : list (string * node)) :
  forallb (fun e => negb (stat_fails (snd e))) a = true ->
  forall total_size,
    add_files (filter (fun e => negb (is_dir (snd e))) a) total_size
    = (total_size + files_bytes a, Ok tt).
Proof.
  unfold files_bytes.
  induction a as [| [f fp] a IH]; intros H total_size.
  - simpl. now rewrite Z.add_0_r.
  - cbn [forallb snd] in H. apply andb_prop in H. destruct H as [Hfp Ha].
    cbn [filter snd].
    destruct (is_dir fp) eqn:Hd; cbn [negb fold_right snd add_files];
      [now apply IH |].
    destruct fp as [[size |] | target | readable es];
      cbn [islink negb getsize]; try discriminate.
    + rewrite IH by assumption. now rewrite Z.add_assoc.
    + now rewrite IH by assumption.
Qed.

(** X22.  A file that cannot be examined ends the count.  When the
    directory holds a file whose size cannot be read, and the entries
    listed before it can be, [get_local_size] returns the bytes of the
    files listed before it in the directory itself, symbolic links left
    out: the files listed after it and everything in the
    sub-directories, which are walked after the directory, are not
    counted. *)
Theorem get_local_size_stops_at_failure
    (fs : string -> option node) (path name : string)
    (before after : list (string * node))
    (Hdir : fs path = Some (Dir true (before ++ (name, File None) :: after)))
    (Hbefore : forallb (fun e => negb (stat_fails (snd e))) before = true) :
  get_local_size fs path = files_bytes before.
Proof.
  unfold get_local_size, os_walk. rewrite Hdir, walk_dir.
  cbn [add_dirs]. rewrite filter_app. cbn [filter snd is_dir negb].
  rewrite add_files_app, add_files_readable by assumption.
  reflexivity.
Qed.

(** X22 on a tree of 14 readable bytes: 3 are counted. *)
Lemma get_local_size_stops_at_failure_witness :
  get_local_size (fun _ => Some damaged_tree) "/home/u/out" = 3
  /\ tree_bytes (Some damaged_tree) = 14.
Proof.
  split; [| reflexivity].
  exact (get_local_size_stops_at_failure (fun _ => Some damaged_tree)
           "/home/u/out" "gone"
           [("sub", Dir true [("b.bin", File (Some 4%N))]);
            ("a.txt", File (Some 3%N))]
           [("z.txt", File (Some 7%N))] eq_refl eq_refl).
Defined.
